(** * FreeRDP drive channel: the IRP dispatcher of [channels/drive/client/drive_main.c]

    A shallow embedding of the redirected file-system ("drive") device:
    the host-error to NT-status mapper, the per-major-function IRP
    handlers, the dispatcher [drive_process_irp] and the worker loop
    [drive_thread_func].

    - Integers of the C code are [Z]; 32-bit wrap-around is written out
      where the source relies on it.
    - Streams are byte lists ([Byte.byte]), little-endian as WinPR writes
      them.
    - The open-file table [drive->files] is a [gmap] from FileId to file
      handle.
    - Everything the handlers call but that lives outside this file of the
      source (the [drive_file_*] operations, [GetLastError], disk queries,
      heap growth, the transport's [Complete]/[Discard] callbacks) is the
      interface [HostFS]; the numeric values of the header constants are
      the interface [Headers]. *)

From Stdlib Require Import ZArith List Bool Lia.
From Stdlib Require Import Strings.Byte.
From stdpp Require Import gmap.
Import ListNotations.

Local Open Scope Z_scope.

(** ** Header constants

    The macros come from WinPR and the RDPDR headers
    ([winpr/error.h], [winpr/nt.h], [winpr/file.h], [freerdp/channels/rdpdr.h],
    [winpr/collections.h]).  Only their names occur in [drive_main.c], so
    they are fields of an interface; [winpr_headers] below gives the values
    the Windows ABI fixes for them. *)

Class Headers := {
  (* channel / Win32 return codes of the handlers *)
  CHANNEL_RC_OK : Z;
  CHANNEL_RC_NO_BUFFER : Z;
  CHANNEL_RC_NO_MEMORY : Z;
  ERROR_INVALID_PARAMETER : Z;
  ERROR_INVALID_DATA : Z;
  ERROR_INTERNAL_ERROR : Z;
  (* Win32 error codes switched on by drive_map_windows_err *)
  ERROR_ACCESS_DENIED : Z;
  ERROR_SHARING_VIOLATION : Z;
  ERROR_FILE_NOT_FOUND : Z;
  ERROR_BUSY_DRIVE : Z;
  ERROR_INVALID_DRIVE : Z;
  ERROR_NOT_READY : Z;
  ERROR_FILE_EXISTS : Z;
  ERROR_ALREADY_EXISTS : Z;
  ERROR_INVALID_NAME : Z;
  ERROR_INVALID_HANDLE : Z;
  ERROR_NO_MORE_FILES : Z;
  ERROR_DIRECTORY : Z;
  ERROR_PATH_NOT_FOUND : Z;
  ERROR_DIR_NOT_EMPTY : Z;
  (* NTSTATUS values *)
  STATUS_SUCCESS : Z;
  STATUS_ACCESS_DENIED : Z;
  STATUS_NO_SUCH_FILE : Z;
  STATUS_DEVICE_BUSY : Z;
  STATUS_NO_SUCH_DEVICE : Z;
  STATUS_OBJECT_NAME_COLLISION : Z;
  STATUS_INVALID_HANDLE : Z;
  STATUS_NO_MORE_FILES : Z;
  STATUS_NOT_A_DIRECTORY : Z;
  STATUS_OBJECT_PATH_NOT_FOUND : Z;
  STATUS_DIRECTORY_NOT_EMPTY : Z;
  STATUS_UNSUCCESSFUL : Z;
  STATUS_NOT_SUPPORTED : Z;
  (* CreateDisposition and the Information values of the Create response *)
  FILE_SUPERSEDE : Z;
  FILE_OPEN : Z;
  FILE_CREATE : Z;
  FILE_OPEN_IF : Z;
  FILE_OVERWRITE : Z;
  FILE_OVERWRITE_IF : Z;
  FILE_SUPERSEDED : Z;
  FILE_OPENED : Z;
  FILE_OVERWRITTEN : Z;
  (* FsInformationClass of QueryVolumeInformation and its payload constants *)
  FileFsVolumeInformation : Z;
  FileFsSizeInformation : Z;
  FileFsAttributeInformation : Z;
  FileFsFullSizeInformation : Z;
  FileFsDeviceInformation : Z;
  FILE_CASE_SENSITIVE_SEARCH : Z;
  FILE_CASE_PRESERVED_NAMES : Z;
  FILE_UNICODE_ON_DISK : Z;
  MAX_PATH : Z;
  FILE_DEVICE_DISK : Z;
  (* major and minor function codes *)
  IRP_MJ_CREATE : Z;
  IRP_MJ_CLOSE : Z;
  IRP_MJ_READ : Z;
  IRP_MJ_WRITE : Z;
  IRP_MJ_QUERY_INFORMATION : Z;
  IRP_MJ_SET_INFORMATION : Z;
  IRP_MJ_QUERY_VOLUME_INFORMATION : Z;
  IRP_MJ_LOCK_CONTROL : Z;
  IRP_MJ_DIRECTORY_CONTROL : Z;
  IRP_MJ_DEVICE_CONTROL : Z;
  IRP_MN_QUERY_DIRECTORY : Z;
  IRP_MN_NOTIFY_CHANGE_DIRECTORY : Z;
  (* message queue *)
  WMQ_QUIT : Z
}.

(** The values of the Windows ABI ([MS-ERREF], [MS-RDPEFS], [MS-FSCC]);
    an NTSTATUS is given as its unsigned 32-bit value on the wire. *)
Definition winpr_headers : Headers := {|
  CHANNEL_RC_OK := 0;
  CHANNEL_RC_NO_BUFFER := 8;
  CHANNEL_RC_NO_MEMORY := 12;
  ERROR_INVALID_PARAMETER := 87;
  ERROR_INVALID_DATA := 13;
  ERROR_INTERNAL_ERROR := 1359;
  ERROR_ACCESS_DENIED := 5;
  ERROR_SHARING_VIOLATION := 32;
  ERROR_FILE_NOT_FOUND := 2;
  ERROR_BUSY_DRIVE := 142;
  ERROR_INVALID_DRIVE := 15;
  ERROR_NOT_READY := 21;
  ERROR_FILE_EXISTS := 80;
  ERROR_ALREADY_EXISTS := 183;
  ERROR_INVALID_NAME := 123;
  ERROR_INVALID_HANDLE := 6;
  ERROR_NO_MORE_FILES := 18;
  ERROR_DIRECTORY := 267;
  ERROR_PATH_NOT_FOUND := 3;
  ERROR_DIR_NOT_EMPTY := 145;
  STATUS_SUCCESS := 0;
  STATUS_ACCESS_DENIED := 0xC0000022;
  STATUS_NO_SUCH_FILE := 0xC000000F;
  STATUS_DEVICE_BUSY := 0x80000011;
  STATUS_NO_SUCH_DEVICE := 0xC000000E;
  STATUS_OBJECT_NAME_COLLISION := 0xC0000035;
  STATUS_INVALID_HANDLE := 0xC0000008;
  STATUS_NO_MORE_FILES := 0x80000006;
  STATUS_NOT_A_DIRECTORY := 0xC0000103;
  STATUS_OBJECT_PATH_NOT_FOUND := 0xC000003A;
  STATUS_DIRECTORY_NOT_EMPTY := 0xC0000101;
  STATUS_UNSUCCESSFUL := 0xC0000001;
  STATUS_NOT_SUPPORTED := 0xC00000BB;
  FILE_SUPERSEDE := 0;
  FILE_OPEN := 1;
  FILE_CREATE := 2;
  FILE_OPEN_IF := 3;
  FILE_OVERWRITE := 4;
  FILE_OVERWRITE_IF := 5;
  FILE_SUPERSEDED := 0;
  FILE_OPENED := 1;
  FILE_OVERWRITTEN := 3;
  FileFsVolumeInformation := 1;
  FileFsSizeInformation := 3;
  FileFsAttributeInformation := 5;
  FileFsFullSizeInformation := 7;
  FileFsDeviceInformation := 4;
  FILE_CASE_SENSITIVE_SEARCH := 1;
  FILE_CASE_PRESERVED_NAMES := 2;
  FILE_UNICODE_ON_DISK := 4;
  MAX_PATH := 260;
  FILE_DEVICE_DISK := 7;
  IRP_MJ_CREATE := 0;
  IRP_MJ_CLOSE := 2;
  IRP_MJ_READ := 3;
  IRP_MJ_WRITE := 4;
  IRP_MJ_QUERY_INFORMATION := 5;
  IRP_MJ_SET_INFORMATION := 6;
  IRP_MJ_QUERY_VOLUME_INFORMATION := 0xA;
  IRP_MJ_LOCK_CONTROL := 0x11;
  IRP_MJ_DIRECTORY_CONTROL := 0xC;
  IRP_MJ_DEVICE_CONTROL := 0xE;
  IRP_MN_QUERY_DIRECTORY := 1;
  IRP_MN_NOTIFY_CHANGE_DIRECTORY := 2;
  WMQ_QUIT := 0xFFFFFFFF
|}.

(** A C [switch] needs pairwise distinct case labels; the check is a
    boolean so that it evaluates on [winpr_headers]. *)
Fixpoint fresh (x : Z) (l : list Z) : bool :=
  match l with
  | [] => true
  | y :: l' => negb (x =? y) && fresh x l'
  end.

Fixpoint distinct (l : list Z) : bool :=
  match l with
  | [] => true
  | x :: l' => fresh x l' && distinct l'
  end.

(** The case labels of [drive_map_windows_err], in source order. *)
Definition host_error_labels `{Headers} : list Z :=
  [ STATUS_SUCCESS; ERROR_ACCESS_DENIED; ERROR_SHARING_VIOLATION;
    ERROR_FILE_NOT_FOUND; ERROR_BUSY_DRIVE; ERROR_INVALID_DRIVE;
    ERROR_NOT_READY; ERROR_FILE_EXISTS; ERROR_ALREADY_EXISTS;
    ERROR_INVALID_NAME; ERROR_INVALID_HANDLE; ERROR_NO_MORE_FILES;
    ERROR_DIRECTORY; ERROR_PATH_NOT_FOUND; ERROR_DIR_NOT_EMPTY ].


(** The case labels of the FsInformationClass switch of
    QueryVolumeInformation. *)
Definition volume_class_labels `{Headers} : list Z :=
  [ FileFsVolumeInformation; FileFsSizeInformation;
    FileFsAttributeInformation; FileFsFullSizeInformation;
    FileFsDeviceInformation ].

(** The case labels of the major-function switch of [drive_process_irp]. *)
Definition major_labels `{Headers} : list Z :=
  [ IRP_MJ_CREATE; IRP_MJ_CLOSE; IRP_MJ_READ; IRP_MJ_WRITE;
    IRP_MJ_QUERY_INFORMATION; IRP_MJ_SET_INFORMATION;
    IRP_MJ_QUERY_VOLUME_INFORMATION; IRP_MJ_LOCK_CONTROL;
    IRP_MJ_DIRECTORY_CONTROL; IRP_MJ_DEVICE_CONTROL ].

(** ** Streams ([winpr/stream.h])

    An input stream is the list of bytes still to be read.  An output
    stream is the bytes written so far and the capacity of its buffer;
    the capacity decides whether [Stream_EnsureRemainingCapacity] has to
    grow the buffer, and whether what [drive_file_read] stores lies within
    it. *)

Definition UINT32_MAX : Z := 4294967295.

Definition byte_of_Z (z : Z) : byte :=
  match Byte.of_N (Z.to_N (z mod 256)) with
  | Some b => b
  | None => x00
  end.

Definition Z_of_byte (b : byte) : Z := Z.of_N (Byte.to_N b).

(** [n] bytes of [z], least significant first. *)
Fixpoint le_bytes (n : nat) (z : Z) : list byte :=
  match n with
  | O => []
  | S n' => byte_of_Z z :: le_bytes n' (z / 256)
  end.

(** The little-endian value of a byte list. *)
Fixpoint le_value (bs : list byte) : Z :=
  match bs with
  | [] => 0
  | b :: bs' => Z_of_byte b + 256 * le_value bs'
  end.

Record wStream := {
  buffer : list byte;
  capacity : Z
}.

Definition Stream_GetRemainingLength (s : list byte) : Z := Z.of_nat (length s).

(** [Stream_CheckAndLogRequiredLength(TAG, s, n)] (the message it logs on
    failure is WinPR's, not this file's). *)
Definition Stream_CheckAndLogRequiredLength (s : list byte) (n : Z) : bool :=
  n <=? Stream_GetRemainingLength s.

Definition Stream_Seek (s : list byte) (n : Z) : list byte := drop (Z.to_nat n) s.

(** [Stream_Get_UINT32] / [Stream_Read_UINT32]: the value and the stream
    advanced by four bytes. *)
Definition Stream_Get_UINT32 (s : list byte) : Z * list byte :=
  (le_value (take 4 s), drop 4 s).

Definition Stream_Get_UINT64 (s : list byte) : Z * list byte :=
  (le_value (take 8 s), drop 8 s).

Definition Stream_Get_UINT8 (s : list byte) : Z * list byte :=
  (le_value (take 1 s), drop 1 s).

(** [Stream_SafeSeek]: fails when fewer than [n] bytes remain. *)
Definition Stream_SafeSeek (s : list byte) (n : Z) : option (list byte) :=
  if Stream_GetRemainingLength s <? n then None else Some (Stream_Seek s n).

Definition Stream_Write (s : wStream) (bs : list byte) : wStream :=
  {| buffer := buffer s ++ bs; capacity := capacity s |}.

Definition Stream_Write_UINT8 (s : wStream) (v : Z) : wStream :=
  Stream_Write s (le_bytes 1 v).

Definition Stream_Write_UINT32 (s : wStream) (v : Z) : wStream :=
  Stream_Write s (le_bytes 4 v).

Definition Stream_Write_UINT64 (s : wStream) (v : Z) : wStream :=
  Stream_Write s (le_bytes 8 v).

Definition Stream_Zero (s : wStream) (n : nat) : wStream :=
  Stream_Write s (repeat x00 n).

Definition Stream_GetPosition (s : wStream) : Z := Z.of_nat (length (buffer s)).

(** [Stream_EnsureRemainingCapacity(s, size)] without the heap: [true]
    when the bytes fit in the buffer as it is. *)
Definition Stream_HasRemainingCapacity (s : wStream) (size : Z) : bool :=
  Stream_GetPosition s + size <=? capacity s.

(** ** IRPs, the device and the host interface *)

(** The fields of [IRP] the handlers use.  [input] is the unread rest of
    the request body, [output] the response body under construction. *)
Record IRP := {
  MajorFunction : Z;
  MinorFunction : Z;
  FileId : Z;
  IoStatus : Z;
  input : list byte;
  output : wStream
}.

Definition set_IoStatus (v : Z) (irp : IRP) : IRP :=
  {| MajorFunction := MajorFunction irp; MinorFunction := MinorFunction irp;
     FileId := FileId irp; IoStatus := v;
     input := input irp; output := output irp |}.

Definition set_input (s : list byte) (irp : IRP) : IRP :=
  {| MajorFunction := MajorFunction irp; MinorFunction := MinorFunction irp;
     FileId := FileId irp; IoStatus := IoStatus irp;
     input := s; output := output irp |}.

Definition set_output (s : wStream) (irp : IRP) : IRP :=
  {| MajorFunction := MajorFunction irp; MinorFunction := MinorFunction irp;
     FileId := FileId irp; IoStatus := IoStatus irp;
     input := input irp; output := s |}.

(** The configuration fields of [DRIVE_DEVICE]; the mutable ones
    ([files], the queue) are part of [World]. *)
Record DRIVE_DEVICE := {
  path : list byte;
  automount : bool;
  async : bool;
  rdpcontext : bool   (* [drive->rdpcontext != NULL] *)
}.

(** What the handlers call outside [drive_main.c].  [Host] is the state of
    the host (file system, heap, thread-local last error, transport);
    [DRIVE_FILE] stands for a [DRIVE_FILE*].  A [BOOL] result is a [bool],
    a pointer result that may be [NULL] an [option]. *)
Class HostFS := {
  Host : Type;
  DRIVE_FILE : Type;
  file_id : DRIVE_FILE -> Z;
  GetLastError : Host -> Z;
  (* drive_file_new(base_path, path, PathWCharLength, id, DesiredAccess,
     CreateDisposition, CreateOptions, FileAttributes, SharedAccess) *)
  drive_file_new :
    list byte -> list byte -> Z -> Z -> Z -> Z -> Z -> Z -> Z ->
    Host -> option DRIVE_FILE * Host;
  drive_file_free : DRIVE_FILE -> Host -> bool * Host;
  drive_file_seek : DRIVE_FILE -> Z -> Host -> bool * Host;
  (* drive_file_read(file, buffer, &Length): the bytes read, whose number
     is the new Length *)
  drive_file_read : DRIVE_FILE -> Z -> Host -> option (list byte) * Host;
  drive_file_write : DRIVE_FILE -> list byte -> Z -> Host -> bool * Host;
  drive_file_query_information :
    DRIVE_FILE -> Z -> wStream -> Host -> (bool * wStream) * Host;
  drive_file_set_information :
    DRIVE_FILE -> Z -> Z -> list byte -> Host -> bool * Host;
  drive_file_query_directory :
    DRIVE_FILE -> Z -> Z -> list byte -> Z -> wStream -> Host ->
    (bool * wStream) * Host;
  (* the four DWORD out-parameters: SectorsPerCluster, BytesPerSector,
     NumberOfFreeClusters, TotalNumberOfClusters *)
  GetDiskFreeSpaceW : list byte -> Host -> (Z * Z * Z * Z) * Host;
  (* ftCreationTime.dwLowDateTime, ftCreationTime.dwHighDateTime *)
  GetFileAttributesExW : list byte -> Host -> (Z * Z) * Host;
  (* growing a heap block by the given number of bytes *)
  heap_grow : Z -> Host -> bool * Host;
  (* the transport's callbacks and their return codes *)
  irp_Complete : IRP -> Host -> Z * Host;
  irp_Discard : IRP -> Host -> Z * Host
}.

(** Invocations of the IRP callbacks, oldest first. *)
Inductive Callback :=
| Complete (irp : IRP)
| Discard (irp : IRP).

(** The messages [drive_main.c] logs. *)
Inductive LogMsg :=
| Error_code_not_found (fs_errno : Z)
| ListDictionary_Add_failed
| Stream_EnsureRemainingCapacity_failed
| Unhandled_FSInformationClass (FsInformationClass : Z)
| Silently_ignore_FSInformationClass (FsInformationClass : Z)
| drive_process_irp_failed (error : Z)
| MessageQueue_Wait_failed
| MessageQueue_Peek_failed.

(** The host operations, by name, and [write_past_buffer]: an operation
    has stored bytes past the end of the buffer it was given. *)
Inductive HostCall :=
| write_past_buffer
| call_drive_file_new
| call_drive_file_free
| call_drive_file_seek
| call_drive_file_read
| call_drive_file_write
| call_drive_file_query_information
| call_drive_file_set_information
| call_drive_file_query_directory
| call_GetDiskFreeSpaceW
| call_GetFileAttributesExW
| call_heap_grow.

Section Drive.
Context `{Headers} `{HostFS}.

(** Everything the device code reads and writes:
    the host and the operations invoked on it, [drive->files],
    [devman->id_sequence], and what the code emits. *)
Record World := {
  host : Host;
  hostcalls : list HostCall;
  files : gmap Z DRIVE_FILE;
  id_sequence : Z;
  calls : list Callback;
  log : list LogMsg;
  channel_error : option Z
}.

(** State monad over [World]. *)
Definition M (A : Type) : Type := World -> A * World.

Definition ret {A} (a : A) : M A := fun w => (a, w).

Definition bind {A B} (m : M A) (k : A -> M B) : M B :=
  fun w => let (a, w') := m w in k a w'.

Notation "'let*' x ':=' m 'in' k" := (bind m (fun x => k))
  (at level 10, x name, m at level 200, k at level 200, only parsing).
Notation "'let*' ' p ':=' m 'in' k" :=
  (bind m (fun x => match x with p => k end))
  (at level 10, p pattern, m at level 200, k at level 200, only parsing).

(** An operation of the host, recorded under its name. *)
Definition on_host {A} (c : HostCall) (op : Host -> A * Host) : M A :=
  fun w =>
    let (a, h) := op (host w) in
    (a, {| host := h; hostcalls := hostcalls w ++ [c];
           files := files w; id_sequence := id_sequence w;
           calls := calls w; log := log w; channel_error := channel_error w |}).

(** The transport running a callback. *)
Definition transport {A} (op : Host -> A * Host) : M A :=
  fun w =>
    let (a, h) := op (host w) in
    (a, {| host := h; hostcalls := hostcalls w;
           files := files w; id_sequence := id_sequence w;
           calls := calls w; log := log w; channel_error := channel_error w |}).

(** A store past the end of the buffer a host operation was given.  From
    there on the behaviour of the C program is undefined: the trace keeps
    the event, and the model goes on as the code reads. *)
Definition past_buffer : M unit :=
  fun w =>
    (tt, {| host := host w; hostcalls := hostcalls w ++ [write_past_buffer];
            files := files w; id_sequence := id_sequence w;
            calls := calls w; log := log w; channel_error := channel_error w |}).

Definition last_error : M Z := fun w => (GetLastError (host w), w).

Definition WLog (m : LogMsg) : M unit :=
  fun w =>
    (tt, {| host := host w; hostcalls := hostcalls w;
            files := files w; id_sequence := id_sequence w;
            calls := calls w; log := log w ++ [m];
            channel_error := channel_error w |}).

Definition called (c : Callback) : M unit :=
  fun w =>
    (tt, {| host := host w; hostcalls := hostcalls w;
            files := files w; id_sequence := id_sequence w;
            calls := calls w ++ [c]; log := log w;
            channel_error := channel_error w |}).

(** [irp->Complete(irp)] *)
Definition Complete_irp (irp : IRP) : M Z :=
  let* _ := called (Complete irp) in transport (irp_Complete irp).

(** [irp->Discard(irp)] *)
Definition Discard_irp (irp : IRP) : M Z :=
  let* _ := called (Discard irp) in transport (irp_Discard irp).

Definition setChannelError (error : Z) : M unit :=
  fun w =>
    (tt, {| host := host w; hostcalls := hostcalls w;
            files := files w; id_sequence := id_sequence w;
            calls := calls w; log := log w; channel_error := Some error |}).

(** [irp->devman->id_sequence++] on a UINT32. *)
Definition next_id_sequence : M Z :=
  fun w =>
    (id_sequence w,
     {| host := host w; hostcalls := hostcalls w; files := files w;
        id_sequence := (id_sequence w + 1) mod 2 ^ 32;
        calls := calls w; log := log w; channel_error := channel_error w |}).

Definition set_files (t : gmap Z DRIVE_FILE) (w : World) : World :=
  {| host := host w; hostcalls := hostcalls w; files := t; id_sequence := id_sequence w;
     calls := calls w; log := log w; channel_error := channel_error w |}.

(** *** The open-file table *)

(** Modelled from the spec: WinPR's [wListDictionary] is not part of the
    source; section 4.2 gives its contract.  [insert(id, file)] fails if
    [id] is already present. *)
Definition ListDictionary_Add (key : Z) (value : DRIVE_FILE) : M bool :=
  fun w =>
    match files w !! key with
    | Some _ => (false, w)
    | None => (true, set_files (<[key := value]> (files w)) w)
    end.

(** Modelled from the spec: [get(id)] is a borrow of a file or nothing. *)
Definition ListDictionary_GetItemValue (key : Z) : M (option DRIVE_FILE) :=
  fun w => (files w !! key, w).

(** Modelled from the spec: [take(id)] removes the entry and returns the
    file. *)
Definition ListDictionary_Take (key : Z) : M (option DRIVE_FILE) :=
  fun w => (files w !! key, set_files (delete key (files w)) w).

(** [Stream_EnsureRemainingCapacity(s, size)]: nothing to do when the bytes
    fit, otherwise the buffer is grown by [size], which the heap may
    refuse. *)
Definition Stream_EnsureRemainingCapacity (s : wStream) (size : Z)
    : M (bool * wStream) :=
  if Stream_HasRemainingCapacity s size then ret (true, s)
  else
    let* ok := on_host call_heap_grow (heap_grow size) in
    if ok then ret (true, {| buffer := buffer s; capacity := capacity s + size |})
    else ret (false, s).

(** ** [drive_map_windows_err] *)

Definition drive_map_windows_err (fs_errno : Z) : M Z :=
  if fs_errno =? STATUS_SUCCESS then ret STATUS_SUCCESS
  else if (fs_errno =? ERROR_ACCESS_DENIED) || (fs_errno =? ERROR_SHARING_VIOLATION)
  then ret STATUS_ACCESS_DENIED
  else if fs_errno =? ERROR_FILE_NOT_FOUND then ret STATUS_NO_SUCH_FILE
  else if fs_errno =? ERROR_BUSY_DRIVE then ret STATUS_DEVICE_BUSY
  else if fs_errno =? ERROR_INVALID_DRIVE then ret STATUS_NO_SUCH_DEVICE
  else if fs_errno =? ERROR_NOT_READY then ret STATUS_NO_SUCH_DEVICE
  else if (fs_errno =? ERROR_FILE_EXISTS) || (fs_errno =? ERROR_ALREADY_EXISTS)
  then ret STATUS_OBJECT_NAME_COLLISION
  else if fs_errno =? ERROR_INVALID_NAME then ret STATUS_NO_SUCH_FILE
  else if fs_errno =? ERROR_INVALID_HANDLE then ret STATUS_INVALID_HANDLE
  else if fs_errno =? ERROR_NO_MORE_FILES then ret STATUS_NO_MORE_FILES
  else if fs_errno =? ERROR_DIRECTORY then ret STATUS_NOT_A_DIRECTORY
  else if fs_errno =? ERROR_PATH_NOT_FOUND then ret STATUS_OBJECT_PATH_NOT_FOUND
  else if fs_errno =? ERROR_DIR_NOT_EMPTY then ret STATUS_DIRECTORY_NOT_EMPTY
  else let* _ := WLog (Error_code_not_found fs_errno) in ret STATUS_UNSUCCESSFUL.

(** [irp->IoStatus = drive_map_windows_err(GetLastError())] *)
Definition set_IoStatus_from_last_error (irp : IRP) : M IRP :=
  let* e := last_error in
  let* st := drive_map_windows_err e in
  ret (set_IoStatus st irp).

Definition drive_get_file_by_id (id : Z) : M (option DRIVE_FILE) :=
  ListDictionary_GetItemValue id.

(** ** The handlers

    Each handler opens with a guard of the form
    [if (!drive || !irp || !irp->output) return ERROR_INVALID_PARAMETER;].
    The guard tests pointers for NULL.  Here the device, the IRP, its two
    streams and the device manager are values, as they are for every IRP
    the transport builds, so the guard is never taken and has no
    counterpart; likewise [WINPR_ASSERT(irp->Complete)].  Writes to the
    response stream that the source does without asking for capacity
    ([Stream_Write_UINT32] and the like) append to the buffer.  The Read
    handler hands [drive_file_read] a pointer into the response buffer;
    when the bytes read do not fit behind it, the trace records
    [write_past_buffer]. *)

(** The [switch (CreateDisposition)] of [drive_process_irp_create]. *)
Definition create_information (CreateDisposition : Z) : Z :=
  if (CreateDisposition =? FILE_SUPERSEDE) || (CreateDisposition =? FILE_OPEN)
     || (CreateDisposition =? FILE_CREATE) || (CreateDisposition =? FILE_OVERWRITE)
  then FILE_SUPERSEDED
  else if CreateDisposition =? FILE_OPEN_IF then FILE_OPENED
  else if CreateDisposition =? FILE_OVERWRITE_IF then FILE_OVERWRITTEN
  else 0.

Definition drive_process_irp_create (drive : DRIVE_DEVICE) (irp : IRP) : M Z :=
  if negb (Stream_CheckAndLogRequiredLength (input irp) (6 * 4 + 8))
  then ret ERROR_INVALID_DATA
  else
    let '(DesiredAccess, s) := Stream_Get_UINT32 (input irp) in
    let '(allocationSize, s) := Stream_Get_UINT64 s in
    let '(FileAttributes, s) := Stream_Get_UINT32 s in
    let '(SharedAccess, s) := Stream_Get_UINT32 s in
    let '(CreateDisposition, s) := Stream_Get_UINT32 s in
    let '(CreateOptions, s) := Stream_Get_UINT32 s in
    let '(PathLength, s) := Stream_Get_UINT32 s in
    let irp := set_input s irp in
    if negb (Stream_CheckAndLogRequiredLength s PathLength)
    then ret ERROR_INVALID_DATA
    else
      (* the two writes and the completion that end both branches *)
      let reply (irp : IRP) (FileId Information : Z) : M Z :=
        let out := Stream_Write_UINT32 (output irp) FileId in
        let out := Stream_Write_UINT8 out Information in
        Complete_irp (set_output out irp) in
      let* FileId := next_id_sequence in
      let* file :=
        on_host call_drive_file_new
          (drive_file_new (path drive) s (PathLength / 2) FileId
             DesiredAccess CreateDisposition CreateOptions
             FileAttributes SharedAccess) in
      match file with
      | None =>
          let* irp := set_IoStatus_from_last_error irp in
          reply irp 0 0
      | Some file =>
          let* added := ListDictionary_Add (file_id file) file in
          if negb added
          then let* _ := WLog ListDictionary_Add_failed in ret ERROR_INTERNAL_ERROR
          else
            let Information := create_information CreateDisposition in
            if allocationSize >? 0
            then
              let* ok :=
                on_host call_drive_file_seek
                  (drive_file_seek file (allocationSize - 1)) in
              if negb ok then ret ERROR_INTERNAL_ERROR
              else
                let* ok :=
                  on_host call_drive_file_write (drive_file_write file [x00] 1) in
                if negb ok then ret ERROR_INTERNAL_ERROR
                else reply irp FileId Information
            else reply irp FileId Information
      end.

Definition drive_process_irp_close (drive : DRIVE_DEVICE) (irp : IRP) : M Z :=
  let* file := drive_get_file_by_id (FileId irp) in
  let* irp :=
    match file with
    | None => ret (set_IoStatus STATUS_UNSUCCESSFUL irp)
    | Some file =>
        let* _ := ListDictionary_Take (FileId irp) in
        let* ok := on_host call_drive_file_free (drive_file_free file) in
        if ok then ret (set_IoStatus STATUS_SUCCESS irp)
        else set_IoStatus_from_last_error irp
    end in
  let out := Stream_Zero (output irp) 5 in
  Complete_irp (set_output out irp).

Definition drive_process_irp_read (drive : DRIVE_DEVICE) (irp : IRP) : M Z :=
  if negb (Stream_CheckAndLogRequiredLength (input irp) 12)
  then ret ERROR_INVALID_DATA
  else
    let '(Length, s) := Stream_Get_UINT32 (input irp) in
    let '(Offset, s) := Stream_Get_UINT64 s in
    let irp := set_input s irp in
    let* file := drive_get_file_by_id (FileId irp) in
    let* '(irp, Length) :=
      match file with
      | None => ret (set_IoStatus STATUS_UNSUCCESSFUL irp, 0)
      | Some file =>
          let* ok := on_host call_drive_file_seek (drive_file_seek file Offset) in
          if negb ok
          then let* irp := set_IoStatus_from_last_error irp in ret (irp, 0)
          else ret (irp, Length)
      end in
    (* [Length + 4] is computed on UINT32 and wraps from 0xFFFFFFFC on *)
    let* '(ok, out) :=
      Stream_EnsureRemainingCapacity (output irp) ((Length + 4) mod 2 ^ 32) in
    if negb ok
    then let* _ := WLog Stream_EnsureRemainingCapacity_failed in
         ret ERROR_INTERNAL_ERROR
    else if Length =? 0
    then Complete_irp (set_output (Stream_Write_UINT32 out 0) irp)
    else
      let* data :=
        match file with
        | Some file => on_host call_drive_file_read (drive_file_read file Length)
        | None => ret None  (* not reached: Length is 0 when the lookup fails *)
        end in
      match data with
      | None =>
          let* irp := set_IoStatus_from_last_error irp in
          Complete_irp (set_output (Stream_Write_UINT32 out 0) irp)
      | Some data =>
          let Length := Z.of_nat (length data) in
          (* [drive_file_read] has stored [data] at [buffer], four bytes
             behind the position, whatever room there is *)
          let* _ :=
            if (Length =? 0) || Stream_HasRemainingCapacity out (4 + Length)
            then ret tt
            else past_buffer in
          let out := Stream_Write_UINT32 out Length in
          (* [Stream_Seek(irp->output, Length)] over the bytes stored *)
          let out := Stream_Write out data in
          Complete_irp (set_output out irp)
      end.

Definition drive_process_irp_write (drive : DRIVE_DEVICE) (irp : IRP) : M Z :=
  if negb (Stream_CheckAndLogRequiredLength (input irp) 32)
  then ret ERROR_INVALID_DATA
  else
    let '(Length, s) := Stream_Get_UINT32 (input irp) in
    let '(Offset, s) := Stream_Get_UINT64 s in
    let s := Stream_Seek s 20 in
    let ptr := s in
    match Stream_SafeSeek s Length with
    | None => ret ERROR_INVALID_DATA
    | Some s =>
        let irp := set_input s irp in
        let* file := drive_get_file_by_id (FileId irp) in
        let* '(irp, Length) :=
          match file with
          | None => ret (set_IoStatus STATUS_UNSUCCESSFUL irp, 0)
          | Some file =>
              let* ok := on_host call_drive_file_seek (drive_file_seek file Offset) in
              if negb ok
              then let* irp := set_IoStatus_from_last_error irp in ret (irp, 0)
              else
                let* ok :=
                  on_host call_drive_file_write (drive_file_write file ptr Length) in
                if negb ok
                then let* irp := set_IoStatus_from_last_error irp in ret (irp, 0)
                else ret (irp, Length)
          end in
        let out := Stream_Write_UINT32 (output irp) Length in
        let out := Stream_Write_UINT8 out 0 in
        Complete_irp (set_output out irp)
    end.

Definition drive_process_irp_query_information
    (drive : DRIVE_DEVICE) (irp : IRP) : M Z :=
  if negb (Stream_CheckAndLogRequiredLength (input irp) 4)
  then ret ERROR_INVALID_DATA
  else
    let '(FsInformationClass, s) := Stream_Get_UINT32 (input irp) in
    let irp := set_input s irp in
    let* file := drive_get_file_by_id (FileId irp) in
    let* irp :=
      match file with
      | None => ret (set_IoStatus STATUS_UNSUCCESSFUL irp)
      | Some file =>
          let* '(ok, out) :=
            on_host call_drive_file_query_information
              (drive_file_query_information file FsInformationClass (output irp)) in
          let irp := set_output out irp in
          if negb ok then set_IoStatus_from_last_error irp else ret irp
      end in
    Complete_irp irp.

Definition drive_process_irp_set_information (drive : DRIVE_DEVICE) (irp : IRP) : M Z :=
  if negb (Stream_CheckAndLogRequiredLength (input irp) 32)
  then ret ERROR_INVALID_DATA
  else
    let '(FsInformationClass, s) := Stream_Get_UINT32 (input irp) in
    let '(Length, s) := Stream_Get_UINT32 s in
    let s := Stream_Seek s 24 in
    let irp := set_input s irp in
    let* file := drive_get_file_by_id (FileId irp) in
    let* irp :=
      match file with
      | None => ret (set_IoStatus STATUS_UNSUCCESSFUL irp)
      | Some file =>
          let* ok :=
            on_host call_drive_file_set_information
              (drive_file_set_information file FsInformationClass Length s) in
          if negb ok then set_IoStatus_from_last_error irp else ret irp
      end in
    let out := Stream_Write_UINT32 (output irp) Length in
    Complete_irp (set_output out irp).

(** [InitializeConstWCharFromUtf8] on an ASCII literal: its UTF-16LE code
    units, without the terminator. *)
Definition InitializeConstWCharFromUtf8 (s : list byte) : list byte :=
  flat_map (fun c => [c; x00]) s.

(** The literals "FREERDP" and "FAT32" in ASCII. *)
Definition ascii_FREERDP : list byte := [x46; x52; x45; x45; x52; x44; x50].

Definition ascii_FAT32 : list byte := [x46; x41; x54; x33; x32].

Definition _wcslen (ws : list byte) : Z := Z.of_nat (length ws) / 2.

(** The bytes [Stream_Write(output, str, len)] copies from a terminated
    wide string. *)
Definition wide_bytes (ws : list byte) (len : Z) : list byte :=
  take (Z.to_nat len) (ws ++ [x00; x00]).

Definition drive_process_irp_query_volume_information
    (drive : DRIVE_DEVICE) (irp : IRP) : M Z :=
  let output := output irp in
  if negb (Stream_CheckAndLogRequiredLength (input irp) 4)
  then ret ERROR_INVALID_DATA
  else
    let '(FsInformationClass, s) := Stream_Get_UINT32 (input irp) in
    let irp := set_input s irp in
    let* '(lpSectorsPerCluster, lpBytesPerSector,
           lpNumberOfFreeClusters, lpTotalNumberOfClusters) :=
      on_host call_GetDiskFreeSpaceW (GetDiskFreeSpaceW (path drive)) in
    if FsInformationClass =? FileFsVolumeInformation then
      let volumeLabel :=
        InitializeConstWCharFromUtf8 ascii_FREERDP in
      let volumeLabelLen := (_wcslen volumeLabel + 1) * 2 in
      let length := 17 + volumeLabelLen in
      if (length >? UINT32_MAX) || (volumeLabelLen >? UINT32_MAX)
      then ret CHANNEL_RC_NO_BUFFER
      else
        let output := Stream_Write_UINT32 output length in
        let* '(ok, output) := Stream_EnsureRemainingCapacity output length in
        if negb ok
        then let* _ := WLog Stream_EnsureRemainingCapacity_failed in
             ret CHANNEL_RC_NO_MEMORY
        else
          let* '(dwLowDateTime, dwHighDateTime) :=
            on_host call_GetFileAttributesExW (GetFileAttributesExW (path drive)) in
          let output := Stream_Write_UINT32 output dwLowDateTime in
          let output := Stream_Write_UINT32 output dwHighDateTime in
          let output :=
            Stream_Write_UINT32 output (Z.land lpNumberOfFreeClusters 0xffff) in
          let output := Stream_Write_UINT32 output volumeLabelLen in
          let output := Stream_Write_UINT8 output 0 in
          let output := Stream_Write output (wide_bytes volumeLabel volumeLabelLen) in
          Complete_irp (set_output output irp)
    else if FsInformationClass =? FileFsSizeInformation then
      let output := Stream_Write_UINT32 output 24 in
      let* '(ok, output) := Stream_EnsureRemainingCapacity output 24 in
      if negb ok
      then let* _ := WLog Stream_EnsureRemainingCapacity_failed in
           ret CHANNEL_RC_NO_MEMORY
      else
        let output := Stream_Write_UINT64 output lpTotalNumberOfClusters in
        let output := Stream_Write_UINT64 output lpNumberOfFreeClusters in
        let output := Stream_Write_UINT32 output lpSectorsPerCluster in
        let output := Stream_Write_UINT32 output lpBytesPerSector in
        Complete_irp (set_output output irp)
    else if FsInformationClass =? FileFsAttributeInformation then
      let diskType :=
        InitializeConstWCharFromUtf8 ascii_FAT32 in
      let diskTypeLen := (_wcslen diskType + 1) * 2 in
      let length := 12 + diskTypeLen in
      if (length >? UINT32_MAX) || (diskTypeLen >? UINT32_MAX)
      then ret CHANNEL_RC_NO_BUFFER
      else
        let output := Stream_Write_UINT32 output length in
        let* '(ok, output) := Stream_EnsureRemainingCapacity output length in
        if negb ok
        then let* _ := WLog Stream_EnsureRemainingCapacity_failed in
             ret CHANNEL_RC_NO_MEMORY
        else
          let output :=
            Stream_Write_UINT32 output
              (Z.lor (Z.lor FILE_CASE_SENSITIVE_SEARCH FILE_CASE_PRESERVED_NAMES)
                     FILE_UNICODE_ON_DISK) in
          let output := Stream_Write_UINT32 output MAX_PATH in
          let output := Stream_Write_UINT32 output diskTypeLen in
          let output := Stream_Write output (wide_bytes diskType diskTypeLen) in
          Complete_irp (set_output output irp)
    else if FsInformationClass =? FileFsFullSizeInformation then
      let output := Stream_Write_UINT32 output 32 in
      let* '(ok, output) := Stream_EnsureRemainingCapacity output 32 in
      if negb ok
      then let* _ := WLog Stream_EnsureRemainingCapacity_failed in
           ret CHANNEL_RC_NO_MEMORY
      else
        let output := Stream_Write_UINT64 output lpTotalNumberOfClusters in
        let output := Stream_Write_UINT64 output lpNumberOfFreeClusters in
        let output := Stream_Write_UINT64 output lpNumberOfFreeClusters in
        let output := Stream_Write_UINT32 output lpSectorsPerCluster in
        let output := Stream_Write_UINT32 output lpBytesPerSector in
        Complete_irp (set_output output irp)
    else if FsInformationClass =? FileFsDeviceInformation then
      let output := Stream_Write_UINT32 output 8 in
      let* '(ok, output) := Stream_EnsureRemainingCapacity output 8 in
      if negb ok
      then let* _ := WLog Stream_EnsureRemainingCapacity_failed in
           ret CHANNEL_RC_NO_MEMORY
      else
        let output := Stream_Write_UINT32 output FILE_DEVICE_DISK in
        let output := Stream_Write_UINT32 output 0 in
        Complete_irp (set_output output irp)
    else
      let* _ := WLog (Unhandled_FSInformationClass FsInformationClass) in
      let irp := set_IoStatus STATUS_UNSUCCESSFUL irp in
      let output := Stream_Write_UINT32 output 0 in
      Complete_irp (set_output output irp).

Definition drive_process_irp_silent_ignore (drive : DRIVE_DEVICE) (irp : IRP) : M Z :=
  if negb (Stream_CheckAndLogRequiredLength (input irp) 4)
  then ret ERROR_INVALID_DATA
  else
    let '(FsInformationClass, s) := Stream_Get_UINT32 (input irp) in
    let irp := set_input s irp in
    let* _ := WLog (Silently_ignore_FSInformationClass FsInformationClass) in
    let out := Stream_Write_UINT32 (output irp) 0 in
    Complete_irp (set_output out irp).

Definition drive_process_irp_query_directory (drive : DRIVE_DEVICE) (irp : IRP) : M Z :=
  if negb (Stream_CheckAndLogRequiredLength (input irp) 32)
  then ret ERROR_INVALID_DATA
  else
    let '(FsInformationClass, s) := Stream_Get_UINT32 (input irp) in
    let '(InitialQuery, s) := Stream_Get_UINT8 s in
    let '(PathLength, s) := Stream_Get_UINT32 s in
    let s := Stream_Seek s 23 in
    let irp := set_input s irp in
    if negb (Stream_CheckAndLogRequiredLength s PathLength)
    then ret ERROR_INVALID_DATA
    else
      let* file := drive_get_file_by_id (FileId irp) in
      let* irp :=
        match file with
        | None =>
            let irp := set_IoStatus STATUS_UNSUCCESSFUL irp in
            ret (set_output (Stream_Write_UINT32 (output irp) 0) irp)
        | Some file =>
            let* '(ok, out) :=
              on_host call_drive_file_query_directory
                (drive_file_query_directory file FsInformationClass InitialQuery
                   s (PathLength / 2) (output irp)) in
            let irp := set_output out irp in
            if negb ok then set_IoStatus_from_last_error irp else ret irp
        end in
      Complete_irp irp.

Definition drive_process_irp_directory_control
    (drive : DRIVE_DEVICE) (irp : IRP) : M Z :=
  if MinorFunction irp =? IRP_MN_QUERY_DIRECTORY
  then drive_process_irp_query_directory drive irp
  else if MinorFunction irp =? IRP_MN_NOTIFY_CHANGE_DIRECTORY
  then Discard_irp irp
  else
    let irp := set_IoStatus STATUS_NOT_SUPPORTED irp in
    let out := Stream_Write_UINT32 (output irp) 0 in
    Complete_irp (set_output out irp).

Definition drive_process_irp_device_control (drive : DRIVE_DEVICE) (irp : IRP) : M Z :=
  let out := Stream_Write_UINT32 (output irp) 0 in
  Complete_irp (set_output out irp).

(** ** The dispatcher *)

Definition drive_process_irp (drive : DRIVE_DEVICE) (irp : IRP) : M Z :=
  let irp := set_IoStatus STATUS_SUCCESS irp in
  let major := MajorFunction irp in
  if major =? IRP_MJ_CREATE then drive_process_irp_create drive irp
  else if major =? IRP_MJ_CLOSE then drive_process_irp_close drive irp
  else if major =? IRP_MJ_READ then drive_process_irp_read drive irp
  else if major =? IRP_MJ_WRITE then drive_process_irp_write drive irp
  else if major =? IRP_MJ_QUERY_INFORMATION
  then drive_process_irp_query_information drive irp
  else if major =? IRP_MJ_SET_INFORMATION
  then drive_process_irp_set_information drive irp
  else if major =? IRP_MJ_QUERY_VOLUME_INFORMATION
  then drive_process_irp_query_volume_information drive irp
  else if major =? IRP_MJ_LOCK_CONTROL
  then drive_process_irp_silent_ignore drive irp
  else if major =? IRP_MJ_DIRECTORY_CONTROL
  then drive_process_irp_directory_control drive irp
  else if major =? IRP_MJ_DEVICE_CONTROL
  then drive_process_irp_device_control drive irp
  else Complete_irp (set_IoStatus STATUS_NOT_SUPPORTED irp).

(** ** The channel worker *)

(** [irp] may be [NULL] (a message without an IRP). *)
Definition drive_poll_run (drive : DRIVE_DEVICE) (irp : option IRP) : M bool :=
  match irp with
  | Some irp =>
      let* error := drive_process_irp drive irp in
      if negb (error =? 0)
      then let* _ := WLog (drive_process_irp_failed error) in ret false
      else ret true
  | None => ret true
  end.

(** What one turn of the worker loop finds in [drive->IrpQueue]; the queue
    is filled by the transport thread, so its answers are an input. *)
Inductive QueueStep :=
| Wait_fails                               (* MessageQueue_Wait returns FALSE *)
| Queue_empty                              (* MessageQueue_Size < 1 *)
| Peek_fails                               (* MessageQueue_Peek returns FALSE *)
| Message (id : Z) (wParam : option IRP).  (* the message taken from the queue *)

(** The [while (1)] loop of [drive_thread_func] on the answers of the
    queue: [Some error] when the loop is left with that value of [error],
    [None] when the answers run out and the thread is blocked in
    [MessageQueue_Wait]. *)
Fixpoint drive_thread_loop (drive : DRIVE_DEVICE) (queue : list QueueStep)
    : M (option Z) :=
  match queue with
  | [] => ret None
  | Wait_fails :: _ =>
      let* _ := WLog MessageQueue_Wait_failed in ret (Some ERROR_INTERNAL_ERROR)
  | Queue_empty :: queue' => drive_thread_loop drive queue'
  | Peek_fails :: queue' =>
      let* _ := WLog MessageQueue_Peek_failed in drive_thread_loop drive queue'
  | Message id wParam :: queue' =>
      if id =? WMQ_QUIT then ret (Some CHANNEL_RC_OK)
      else
        let* ok := drive_poll_run drive wParam in
        if negb ok then ret (Some CHANNEL_RC_OK)
        else drive_thread_loop drive queue'
  end.

(** [drive_thread_func]: the loop, then the report on the channel; the
    result is the thread's exit code. *)
Definition drive_thread_func (drive : DRIVE_DEVICE) (queue : list QueueStep)
    : M (option Z) :=
  let* r := drive_thread_loop drive queue in
  match r with
  | None => ret None
  | Some error =>
      let* _ :=
        if negb (error =? 0) && rdpcontext drive
        then setChannelError error
        else ret tt in
      ret (Some error)
  end.

(** ** Vocabulary of the properties *)

(** [irp'] is the request [irp], with whatever the handler has written to
    its status and streams. *)
Definition same_request (irp irp' : IRP) : Prop :=
  MajorFunction irp' = MajorFunction irp /\
  MinorFunction irp' = MinorFunction irp /\
  FileId irp' = FileId irp.

(** [m] invokes no callback, and its result satisfies [P]. *)
Definition quiet {A} (m : M A) (P : A -> Prop) : Prop :=
  forall w, calls (snd (m w)) = calls w /\ P (fst (m w)).

(** [m] either invokes exactly one callback, [Complete] or [Discard], on
    the request [irp] and returns what the callback returns, or invokes
    none and returns one of the three early error codes. *)
Definition one_callback_or_dropped (irp : IRP) (m : M Z) : Prop :=
  forall w,
    let rc := fst (m w) in
    let w' := snd (m w) in
    (exists irp' h, calls w' = calls w ++ [Complete irp'] /\
                    same_request irp irp' /\ rc = fst (irp_Complete irp' h)) \/
    (exists irp' h, calls w' = calls w ++ [Discard irp'] /\
                    same_request irp irp' /\ rc = fst (irp_Discard irp' h)) \/
    (calls w' = calls w /\
     (rc = ERROR_INVALID_DATA \/ rc = ERROR_INTERNAL_ERROR \/
      rc = CHANNEL_RC_NO_MEMORY)).

(** The dispatcher on a sequence of IRPs, in order. *)
Fixpoint drive_process_irps (drive : DRIVE_DEVICE) (irps : list IRP) : M (list Z) :=
  match irps with
  | [] => ret []
  | irp :: irps' =>
      let* rc := drive_process_irp drive irp in
      let* rcs := drive_process_irps drive irps' in
      ret (rc :: rcs)
  end.

(** What the transport was handed: status and response body of a completed
    IRP, nothing for a discarded one. *)
Definition responses (w : World) : list (option (Z * list byte)) :=
  map (fun c =>
         match c with
         | Complete irp => Some (IoStatus irp, buffer (output irp))
         | Discard _ => None
         end) (calls w).

(** [w'] is [w] up to the log. *)
Definition same_but_log (w w' : World) : Prop :=
  host w' = host w /\ hostcalls w' = hostcalls w /\ files w' = files w /\
  id_sequence w' = id_sequence w /\ calls w' = calls w /\
  channel_error w' = channel_error w.

(** The statuses [drive_map_windows_err] gives to errors. *)
Definition error_statuses : list Z :=
  [ STATUS_ACCESS_DENIED; STATUS_NO_SUCH_FILE; STATUS_DEVICE_BUSY;
    STATUS_NO_SUCH_DEVICE; STATUS_OBJECT_NAME_COLLISION;
    STATUS_INVALID_HANDLE; STATUS_NO_MORE_FILES; STATUS_NOT_A_DIRECTORY;
    STATUS_OBJECT_PATH_NOT_FOUND; STATUS_DIRECTORY_NOT_EMPTY;
    STATUS_UNSUCCESSFUL ].

(** The number of bytes a handler asks of the request body before it reads
    its fixed fields, by major (and minor) function, in the order of the
    routing switch: the argument of the first
    [Stream_CheckAndLogRequiredLength] of each handler. *)
Definition fixed_part (irp : IRP) : Z :=
  let major := MajorFunction irp in
  if major =? IRP_MJ_CREATE then 6 * 4 + 8
  else if major =? IRP_MJ_CLOSE then 0
  else if major =? IRP_MJ_READ then 12
  else if major =? IRP_MJ_WRITE then 32
  else if major =? IRP_MJ_QUERY_INFORMATION then 4
  else if major =? IRP_MJ_SET_INFORMATION then 32
  else if major =? IRP_MJ_QUERY_VOLUME_INFORMATION then 4
  else if major =? IRP_MJ_LOCK_CONTROL then 4
  else if major =? IRP_MJ_DIRECTORY_CONTROL then
    if MinorFunction irp =? IRP_MN_QUERY_DIRECTORY then 32 else 0
  else 0.



(** Every key of the table is the id of the file stored under it. *)
Definition table_keyed (t : gmap Z DRIVE_FILE) : Prop :=
  forall k f, t !! k = Some f -> file_id f = k.

(** ** The device: requests and registration

    [name] and [path] of [drive_register_drive_path] are C strings; a C
    string is the list of its bytes before the terminating NUL. *)

(** What the device code logs outside the IRP path. *)
Inductive DeviceLog :=
| MessageQueue_Post_failed
| calloc_failed
| Stream_New_failed
| ListDictionary_New_failed
| RegisterDevice_failed (error : Z)
| CreateThread_failed.

(** The device beside its [World]: the messages of [drive->IrpQueue],
    oldest first, each with its id and wParam, and the device log. *)
Record Channel := {
  world : World;
  IrpQueue : list (Z * option IRP);
  device_log : list DeviceLog
}.

(** [drive_irp_request].  [posted] is the answer of [MessageQueue_Post],
    which is asked in asynchronous mode only. *)
Definition drive_irp_request (drive : DRIVE_DEVICE) (irp : IRP) (posted : bool)
    (ch : Channel) : Z * Channel :=
  if async drive then
    if negb posted
    then (ERROR_INTERNAL_ERROR,
          {| world := world ch; IrpQueue := IrpQueue ch;
             device_log := device_log ch ++ [MessageQueue_Post_failed] |})
    else (CHANNEL_RC_OK,
          {| world := world ch; IrpQueue := IrpQueue ch ++ [(0, Some irp)];
             device_log := device_log ch |})
  else
    let (ok, w') := drive_poll_run drive (Some irp) (world ch) in
    if negb ok
    then (ERROR_INTERNAL_ERROR,
          {| world := w'; IrpQueue := IrpQueue ch; device_log := device_log ch |})
    else (CHANNEL_RC_OK,
          {| world := w'; IrpQueue := IrpQueue ch; device_log := device_log ch |}).

(** The transport handing requests over one after another, each
    [MessageQueue_Post] succeeding: the return codes and the device
    afterwards. *)
Fixpoint drive_irp_requests (drive : DRIVE_DEVICE) (irps : list IRP)
    (ch : Channel) : list Z * Channel :=
  match irps with
  | [] => ([], ch)
  | irp :: irps' =>
      let (rc, ch1) := drive_irp_request drive irp true ch in
      let (rcs, ch') := drive_irp_requests drive irps' ch1 in
      (rc :: rcs, ch')
  end.

(** What the worker finds when it takes the messages of the queue one by
    one. *)
Definition queue_steps (queue : list (Z * option IRP)) : list QueueStep :=
  map (fun m => Message (fst m) (snd m)) queue.

(** The symbols the Device Announce Header forbids in a device name: the
    case labels of the switch over [name[i]], which are the colon, the two
    angle brackets, the double quote, the slash, the backslash, the bar
    and the space. *)
Definition forbidden_symbol (c : byte) : bool :=
  match c with
  | x3a | x3c | x3e | x22 | x2f | x5c | x7c | x20 => true
  | _ => false
  end.

(** The bytes written to [drive->device.data]: the name with every
    forbidden symbol replaced by an underscore, then the NUL. *)
Definition announce_name (name : list byte) : list byte :=
  map (fun c => if forbidden_symbol c then x5f else c) name ++ [x00].

(** [s[0]] is not the NUL. *)
Definition nonempty (s : list byte) : bool :=
  match s with
  | [] => false
  | _ :: _ => true
  end.

Definition strnlen (s : list byte) (maxlen : Z) : Z :=
  Z.min (Z.of_nat (length s)) maxlen.

(** The number of bytes of [path] handed to [ConvertUtf8NToWCharAlloc]:
    [strnlen(path, MAX_PATH)], less one for a trailing slash unless the
    path is one byte long. *)
Definition root_path_length (path : list byte) : Z :=
  let pathLength := strnlen path MAX_PATH in
  if (pathLength >? 1)
     && match path !! Z.to_nat (pathLength - 1) with
        | Some c => Byte.eqb c x2f
        | None => false
        end
  then pathLength - 1
  else pathLength.

(** The answers of the platform to [drive_register_drive_path]: whether
    each allocation succeeds, the wide form of a path, the result of
    [pEntryPoints->RegisterDevice] for the announced name, the setting
    [FreeRDP_SynchronousStaticChannels]. *)
Record Platform := {
  calloc : bool;
  Stream_New : bool;
  Stream_BufferAs : bool;
  ConvertUtf8NToWCharAlloc : list byte -> option (list byte);
  ListDictionary_New : bool;
  MessageQueue_New : bool;
  RegisterDevice : list byte -> Z;
  SynchronousStaticChannels : bool;
  CreateThread : bool
}.

(** What registration does that can be seen from outside. *)
Inductive RegisterEvent :=
| logged (m : DeviceLog)
| call_RegisterDevice (name : list byte) (drive : DRIVE_DEVICE)
| call_CreateThread
| call_ResumeThread
| call_drive_free_int.

(** [drive_register_drive_path]: the return code, the events in order and
    the device left alive, if any.  [goto out_error] is [drive_free_int]
    and the return of [error]. *)
Definition drive_register_drive_path
    (P : Platform) (name path : list byte) (automount : bool)
    : Z * list RegisterEvent * option DRIVE_DEVICE :=
  let error := ERROR_INTERNAL_ERROR in
  if nonempty name && nonempty path then
    if negb (calloc P)
    then (CHANNEL_RC_NO_MEMORY, [logged calloc_failed], None)
    else if negb (Stream_New P)
    then (CHANNEL_RC_NO_MEMORY,
          [logged Stream_New_failed; call_drive_free_int], None)
    else
      let device_name := announce_name name in
      if negb (Stream_BufferAs P)
      then (error, [call_drive_free_int], None)
      else
        let pathLength := root_path_length path in
        match ConvertUtf8NToWCharAlloc P (take (Z.to_nat pathLength) path) with
        | None => (CHANNEL_RC_NO_MEMORY, [call_drive_free_int], None)
        | Some wpath =>
            if negb (ListDictionary_New P)
            then (CHANNEL_RC_NO_MEMORY,
                  [logged ListDictionary_New_failed; call_drive_free_int], None)
            else if negb (MessageQueue_New P)
            then (CHANNEL_RC_NO_MEMORY,
                  [logged ListDictionary_New_failed; call_drive_free_int], None)
            else
              (* the drive as RegisterDevice sees it: async is still the
                 zero of calloc *)
              let drive0 :=
                {| path := wpath; automount := automount; async := false;
                   rdpcontext := true |} in
              let error := RegisterDevice P device_name in
              if negb (error =? 0)
              then (error,
                    [call_RegisterDevice device_name drive0;
                     logged (RegisterDevice_failed error);
                     call_drive_free_int], None)
              else
                let drive :=
                  {| path := wpath; automount := automount;
                     async := negb (SynchronousStaticChannels P);
                     rdpcontext := true |} in
                if async drive
                then
                  if negb (CreateThread P)
                  then (error,
                        [call_RegisterDevice device_name drive0;
                         call_CreateThread; logged CreateThread_failed;
                         call_drive_free_int], None)
                  else (CHANNEL_RC_OK,
                        [call_RegisterDevice device_name drive0;
                         call_CreateThread; call_ResumeThread], Some drive)
                else (CHANNEL_RC_OK,
                      [call_RegisterDevice device_name drive0], Some drive)
        end
  else (CHANNEL_RC_OK, [], None).

End Drive.

(** ** Request bodies (spec section 4.3), for stating the properties *)

(** Create: DesiredAccess u32, AllocationSize u64, FileAttributes u32,
    SharedAccess u32, CreateDisposition u32, CreateOptions u32,
    PathLength u32, Path. *)
Definition create_request
    (DesiredAccess AllocationSize FileAttributes SharedAccess
     CreateDisposition CreateOptions : Z) (Path : list byte) : list byte :=
  le_bytes 4 DesiredAccess ++ le_bytes 8 AllocationSize ++
  le_bytes 4 FileAttributes ++ le_bytes 4 SharedAccess ++
  le_bytes 4 CreateDisposition ++ le_bytes 4 CreateOptions ++
  le_bytes 4 (Z.of_nat (length Path)) ++ Path.

(** Read: Length u32, Offset u64, then padding. *)
Definition read_request (Length Offset : Z) (padding : list byte) : list byte :=
  le_bytes 4 Length ++ le_bytes 8 Offset ++ padding.

(** QueryVolumeInformation: FsInformationClass u32, then the rest. *)
Definition query_volume_request (FsInformationClass : Z) (rest : list byte)
    : list byte :=
  le_bytes 4 FsInformationClass ++ rest.

(** Create with the PathLength field given apart from the path bytes that
    follow. *)
Definition create_request_declaring
    (DesiredAccess AllocationSize FileAttributes SharedAccess
     CreateDisposition CreateOptions PathLength : Z) (Path : list byte)
    : list byte :=
  le_bytes 4 DesiredAccess ++ le_bytes 8 AllocationSize ++
  le_bytes 4 FileAttributes ++ le_bytes 4 SharedAccess ++
  le_bytes 4 CreateDisposition ++ le_bytes 4 CreateOptions ++
  le_bytes 4 PathLength ++ Path.

(** Write: Length u32, Offset u64, 20 bytes of padding, the payload. *)
Definition write_request (Length Offset : Z) (padding payload : list byte)
    : list byte :=
  le_bytes 4 Length ++ le_bytes 8 Offset ++ padding ++ payload.

(** SetInformation: FsInformationClass u32, Length u32, 24 bytes of
    padding, the class body. *)
Definition set_information_request
    (FsInformationClass Length : Z) (padding body : list byte) : list byte :=
  le_bytes 4 FsInformationClass ++ le_bytes 4 Length ++ padding ++ body.

(** QueryDirectory: FsInformationClass u32, InitialQuery u8, PathLength
    u32, 23 bytes of padding, the path. *)
Definition query_directory_request
    (FsInformationClass InitialQuery PathLength : Z)
    (padding Path : list byte) : list byte :=
  le_bytes 4 FsInformationClass ++ le_bytes 1 InitialQuery ++
  le_bytes 4 PathLength ++ padding ++ Path.

Definition uint32 (z : Z) : Prop := 0 <= z < 2 ^ 32.
Definition uint64 (z : Z) : Prop := 0 <= z < 2 ^ 64.

(** ** A simulated host

    A host whose answers are fixed by a few switches; it instantiates
    [HostFS] so that the handlers can be run on concrete IRPs. *)
Record SimHost := {
  sim_error : Z;                    (* the thread's last error *)
  sim_open : bool;                  (* drive_file_new succeeds *)
  sim_seek : bool;
  sim_write : bool;
  sim_read : option (list byte);    (* the content drive_file_read finds *)
  sim_free : bool;
  sim_heap : bool
}.

Definition sim_host : HostFS := {|
  Host := SimHost;
  DRIVE_FILE := Z;
  file_id := fun f => f;
  GetLastError := sim_error;
  drive_file_new :=
    fun _ _ _ id _ _ _ _ _ h => (if sim_open h then Some id else None, h);
  drive_file_free := fun _ h => (sim_free h, h);
  drive_file_seek := fun _ _ h => (sim_seek h, h);
  drive_file_read :=
    fun _ Length h => (option_map (take (Z.to_nat Length)) (sim_read h), h);
  drive_file_write := fun _ _ _ h => (sim_write h, h);
  drive_file_query_information := fun _ _ out h => ((false, out), h);
  drive_file_set_information := fun _ _ _ _ h => (false, h);
  drive_file_query_directory := fun _ _ _ _ _ out h => ((false, out), h);
  GetDiskFreeSpaceW := fun _ h => ((8, 512, 1000, 4000), h);
  GetFileAttributesExW := fun _ h => ((0, 0), h);
  heap_grow := fun _ h => (sim_heap h, h);
  irp_Complete := fun _ h => (0, h);
  irp_Discard := fun _ h => (0, h)
|}.

(** A host on which every operation succeeds and reads find "hi". *)
Definition sim_good : SimHost := {|
  sim_error := 0; sim_open := true; sim_seek := true; sim_write := true;
  sim_read := Some [x68; x69]; sim_free := true; sim_heap := true
|}.

(** The same host with a failing seek that leaves ERROR_INVALID_HANDLE. *)
Definition sim_seek_fails : SimHost := {|
  sim_error := 6; sim_open := true; sim_seek := false; sim_write := true;
  sim_read := Some [x68; x69]; sim_free := true; sim_heap := true
|}.

(** The same host on which the open fails with ERROR_FILE_NOT_FOUND. *)
Definition sim_open_fails : SimHost := {|
  sim_error := 2; sim_open := false; sim_seek := true; sim_write := true;
  sim_read := Some [x68; x69]; sim_free := true; sim_heap := true
|}.

Definition sim_world (h : SimHost) (t : gmap Z Z) : @World sim_host :=
  @Build_World sim_host h [] t 1 [] [] None.

Definition sim_drive : DRIVE_DEVICE := {|
  path := []; automount := false; async := true; rdpcontext := true
|}.

(** An IRP as the transport hands it over: empty response body in a
    buffer with room for 240 bytes. *)
Definition sim_irp (major minor id : Z) (body : list byte) : IRP := {|
  MajorFunction := major; MinorFunction := minor; FileId := id;
  IoStatus := 0; input := body;
  output := {| buffer := []; capacity := 240 |}
|}.

(** A host on which reads find 300 bytes. *)
Definition sim_long_read : SimHost := {|
  sim_error := 0; sim_open := true; sim_seek := true; sim_write := true;
  sim_read := Some (repeat x41 300); sim_free := true; sim_heap := true
|}.

(** The same drive in synchronous mode. *)
Definition sim_sync_drive : DRIVE_DEVICE := {|
  path := []; automount := false; async := false; rdpcontext := true
|}.

(** The device before any request: an empty queue and an empty log. *)
Definition sim_channel (h : SimHost) (t : gmap Z Z) : @Channel sim_host := {|
  world := sim_world h t; IrpQueue := []; device_log := []
|}.

(** A platform on which everything succeeds but CreateThread, with
    asynchronous channels; a path is widened byte by byte. *)
Definition sim_platform_no_thread : Platform := {|
  calloc := true; Stream_New := true; Stream_BufferAs := true;
  ConvertUtf8NToWCharAlloc :=
    fun p => Some (flat_map (fun c => [c; x00]) p);
  ListDictionary_New := true; MessageQueue_New := true;
  RegisterDevice := fun _ => 0;
  SynchronousStaticChannels := false; CreateThread := false
|}.

(** * Properties *)

(** ** Little-endian fields *)

Lemma Z_of_byte_of_Z (z : Z) : Z_of_byte (byte_of_Z z) = z mod 256.
Proof.
  unfold Z_of_byte, byte_of_Z.
  assert (Hr : 0 <= z mod 256 < 256) by (apply Z.mod_pos_bound; lia).
  destruct (Byte.of_N (Z.to_N (z mod 256))) as [b|] eqn:E.
  - apply Byte.to_of_N in E. rewrite E. lia.
  - apply Byte.of_N_None_iff in E. lia.
Qed.

Lemma length_le_bytes (n : nat) (z : Z) : length (le_bytes n z) = n.
Proof.
  revert z. induction n as [|n IH]; intros z; simpl; [reflexivity|].
  now rewrite IH.
Qed.

Lemma le_value_le_bytes (n : nat) (z : Z) :
  le_value (le_bytes n z) = z mod 256 ^ Z.of_nat n.
Proof.
  revert z. induction n as [|n IH]; intros z.
  - simpl. now rewrite Z.mod_1_r.
  - cbn [le_bytes le_value]. rewrite Z_of_byte_of_Z, IH.
    rewrite Nat2Z.inj_succ, Z.pow_succ_r by lia.
    rewrite Z.rem_mul_r by lia. lia.
Qed.

Lemma le_value_le_bytes_4 (z : Z) : uint32 z -> le_value (le_bytes 4 z) = z.
Proof.
  intros Hz. rewrite le_value_le_bytes. apply Z.mod_small.
  unfold uint32 in Hz. change (256 ^ Z.of_nat 4) with (2 ^ 32). lia.
Qed.

Lemma le_value_le_bytes_8 (z : Z) : uint64 z -> le_value (le_bytes 8 z) = z.
Proof.
  intros Hz. rewrite le_value_le_bytes. apply Z.mod_small.
  unfold uint64 in Hz. change (256 ^ Z.of_nat 8) with (2 ^ 64). lia.
Qed.

Lemma Stream_Get_UINT32_le (z : Z) (rest : list byte) :
  uint32 z -> Stream_Get_UINT32 (le_bytes 4 z ++ rest) = (z, rest).
Proof.
  intros Hz. unfold Stream_Get_UINT32.
  rewrite (take_app_length' (le_bytes 4 z)) by now rewrite length_le_bytes.
  rewrite (drop_app_length' (le_bytes 4 z)) by now rewrite length_le_bytes.
  now rewrite le_value_le_bytes_4.
Qed.

Lemma Stream_Get_UINT64_le (z : Z) (rest : list byte) :
  uint64 z -> Stream_Get_UINT64 (le_bytes 8 z ++ rest) = (z, rest).
Proof.
  intros Hz. unfold Stream_Get_UINT64.
  rewrite (take_app_length' (le_bytes 8 z)) by now rewrite length_le_bytes.
  rewrite (drop_app_length' (le_bytes 8 z)) by now rewrite length_le_bytes.
  now rewrite le_value_le_bytes_8.
Qed.

(** ** Case labels *)

(** Turn [distinct labels = true] into the inequalities between the
    labels. *)
Ltac split_distinct H :=
  lazymatch type of H with
  | (_ && _) = true =>
      let H1 := fresh "D" in
      let H2 := fresh "D" in
      apply andb_prop in H; destruct H as [H1 H2];
      split_distinct H1; split_distinct H2
  | negb (_ =? _) = true => apply negb_true_iff, Z.eqb_neq in H
  | true = true => clear H
  | _ => idtac
  end.

(** Decide the tests of a label against the labels it is known to equal
    or to differ from. *)
Ltac decide_labels :=
  repeat match goal with
    | |- context [?a =? ?a] => rewrite (Z.eqb_refl a)
    | D : ?a <> ?b |- context [?a =? ?b] => rewrite (proj2 (Z.eqb_neq a b) D)
    | D : ?b <> ?a |- context [?a =? ?b] =>
        rewrite (proj2 (Z.eqb_neq a b) (not_eq_sym D))
    end.

Section Properties.
Context `{Headers} `{HostFS}.

(** *** The error mapper *)

Lemma drive_map_windows_err_other (fs_errno : Z) (w : World) :
  ~ In fs_errno host_error_labels ->
  drive_map_windows_err fs_errno w =
    (STATUS_UNSUCCESSFUL, snd (WLog (Error_code_not_found fs_errno) w)).
Proof.
  intros Hnot. unfold drive_map_windows_err.
  repeat match goal with
    | |- context [fs_errno =? ?c] =>
        destruct (Z.eqb_spec fs_errno c) as [E|E];
        [ exfalso; apply Hnot; rewrite E; cbn; tauto | clear E ]
    end.
  reflexivity.
Qed.

(** C3. The host-to-NT error mapper returns, for every input code, the
    status of the table: success gives STATUS_SUCCESS; access or sharing
    violation STATUS_ACCESS_DENIED; file not found or invalid name
    STATUS_NO_SUCH_FILE; path not found STATUS_OBJECT_PATH_NOT_FOUND;
    file exists or already exists STATUS_OBJECT_NAME_COLLISION; directory
    not empty STATUS_DIRECTORY_NOT_EMPTY; not a directory
    STATUS_NOT_A_DIRECTORY; no more files STATUS_NO_MORE_FILES; invalid
    handle STATUS_INVALID_HANDLE; busy drive STATUS_DEVICE_BUSY; invalid
    drive or not ready STATUS_NO_SUCH_DEVICE; every other code
    STATUS_UNSUCCESSFUL, and the raw code is logged.  The case labels are
    pairwise distinct, as the C switch requires. *)
Theorem drive_map_windows_err_table (fs_errno : Z) (w : World) :
  distinct host_error_labels = true ->
  let rc := fst (drive_map_windows_err fs_errno w) in
  let w' := snd (drive_map_windows_err fs_errno w) in
  (fs_errno = STATUS_SUCCESS -> rc = STATUS_SUCCESS) /\
  (fs_errno = ERROR_ACCESS_DENIED \/ fs_errno = ERROR_SHARING_VIOLATION ->
   rc = STATUS_ACCESS_DENIED) /\
  (fs_errno = ERROR_FILE_NOT_FOUND \/ fs_errno = ERROR_INVALID_NAME ->
   rc = STATUS_NO_SUCH_FILE) /\
  (fs_errno = ERROR_PATH_NOT_FOUND -> rc = STATUS_OBJECT_PATH_NOT_FOUND) /\
  (fs_errno = ERROR_FILE_EXISTS \/ fs_errno = ERROR_ALREADY_EXISTS ->
   rc = STATUS_OBJECT_NAME_COLLISION) /\
  (fs_errno = ERROR_DIR_NOT_EMPTY -> rc = STATUS_DIRECTORY_NOT_EMPTY) /\
  (fs_errno = ERROR_DIRECTORY -> rc = STATUS_NOT_A_DIRECTORY) /\
  (fs_errno = ERROR_NO_MORE_FILES -> rc = STATUS_NO_MORE_FILES) /\
  (fs_errno = ERROR_INVALID_HANDLE -> rc = STATUS_INVALID_HANDLE) /\
  (fs_errno = ERROR_BUSY_DRIVE -> rc = STATUS_DEVICE_BUSY) /\
  (fs_errno = ERROR_INVALID_DRIVE \/ fs_errno = ERROR_NOT_READY ->
   rc = STATUS_NO_SUCH_DEVICE) /\
  (~ In fs_errno host_error_labels ->
   rc = STATUS_UNSUCCESSFUL /\ log w' = log w ++ [Error_code_not_found fs_errno]).
Proof.
  intros Hd. cbn [distinct fresh host_error_labels] in Hd. split_distinct Hd.
  cbv zeta.
  repeat match goal with |- (_ -> _ = _) /\ _ => split end;
    [ intros E; unfold drive_map_windows_err;
      repeat match type of E with _ \/ _ => destruct E as [E|E] end;
      rewrite E; decide_labels; reflexivity .. | ].
  intros Hnot. rewrite drive_map_windows_err_other by exact Hnot.
  split; reflexivity.
Qed.

(** The status the mapper returns does not depend on the world it logs
    into, and the mapper touches nothing but the log. *)
Lemma drive_map_windows_err_fst (fs_errno : Z) (w1 w2 : World) :
  fst (drive_map_windows_err fs_errno w1) = fst (drive_map_windows_err fs_errno w2).
Proof.
  unfold drive_map_windows_err.
  repeat match goal with
    | |- context [fs_errno =? ?c] => destruct (fs_errno =? c)
    end; reflexivity.
Qed.

Lemma drive_map_windows_err_world (fs_errno : Z) (w : World) :
  same_but_log w (snd (drive_map_windows_err fs_errno w)).
Proof.
  unfold drive_map_windows_err, same_but_log.
  repeat match goal with
    | |- context [fs_errno =? ?c] => destruct (fs_errno =? c)
    end; cbn; repeat split.
Qed.

Lemma set_IoStatus_from_last_error_spec (irp : IRP) (w : World) :
  exists w',
    set_IoStatus_from_last_error irp w =
      (set_IoStatus (fst (drive_map_windows_err (GetLastError (host w)) w)) irp, w') /\
    same_but_log w w'.
Proof.
  unfold set_IoStatus_from_last_error, bind, last_error, ret.
  pose proof (drive_map_windows_err_world (GetLastError (host w)) w) as Hw.
  destruct (drive_map_windows_err (GetLastError (host w)) w) as [st w'].
  exists w'. split; [reflexivity | exact Hw].
Qed.

(** *** Routing *)

Lemma dispatch_create (drive : DRIVE_DEVICE) (irp : IRP) :
  MajorFunction irp = IRP_MJ_CREATE ->
  drive_process_irp drive irp =
    drive_process_irp_create drive (set_IoStatus STATUS_SUCCESS irp).
Proof.
  intros E. unfold drive_process_irp. cbn [MajorFunction set_IoStatus].
  rewrite E. now decide_labels.
Qed.

Lemma dispatch_close (drive : DRIVE_DEVICE) (irp : IRP) :
  distinct major_labels = true ->
  MajorFunction irp = IRP_MJ_CLOSE ->
  drive_process_irp drive irp =
    drive_process_irp_close drive (set_IoStatus STATUS_SUCCESS irp).
Proof.
  intros Hd E. cbn [distinct fresh major_labels] in Hd. split_distinct Hd.
  unfold drive_process_irp. cbn [MajorFunction set_IoStatus].
  rewrite E. now decide_labels.
Qed.

Lemma dispatch_read (drive : DRIVE_DEVICE) (irp : IRP) :
  distinct major_labels = true ->
  MajorFunction irp = IRP_MJ_READ ->
  drive_process_irp drive irp =
    drive_process_irp_read drive (set_IoStatus STATUS_SUCCESS irp).
Proof.
  intros Hd E. cbn [distinct fresh major_labels] in Hd. split_distinct Hd.
  unfold drive_process_irp. cbn [MajorFunction set_IoStatus].
  rewrite E. now decide_labels.
Qed.

Lemma dispatch_query_volume_information (drive : DRIVE_DEVICE) (irp : IRP) :
  distinct major_labels = true ->
  MajorFunction irp = IRP_MJ_QUERY_VOLUME_INFORMATION ->
  drive_process_irp drive irp =
    drive_process_irp_query_volume_information drive
      (set_IoStatus STATUS_SUCCESS irp).
Proof.
  intros Hd E. cbn [distinct fresh major_labels] in Hd. split_distinct Hd.
  unfold drive_process_irp. cbn [MajorFunction set_IoStatus].
  rewrite E. now decide_labels.
Qed.

Lemma dispatch_lock_control (drive : DRIVE_DEVICE) (irp : IRP) :
  distinct major_labels = true ->
  MajorFunction irp = IRP_MJ_LOCK_CONTROL ->
  drive_process_irp drive irp =
    drive_process_irp_silent_ignore drive (set_IoStatus STATUS_SUCCESS irp).
Proof.
  intros Hd E. cbn [distinct fresh major_labels] in Hd. split_distinct Hd.
  unfold drive_process_irp. cbn [MajorFunction set_IoStatus].
  rewrite E. now decide_labels.
Qed.

Lemma dispatch_other (drive : DRIVE_DEVICE) (irp : IRP) :
  ~ In (MajorFunction irp) major_labels ->
  drive_process_irp drive irp =
    Complete_irp (set_IoStatus STATUS_NOT_SUPPORTED (set_IoStatus STATUS_SUCCESS irp)).
Proof.
  intros Hnot. unfold drive_process_irp. cbn [MajorFunction set_IoStatus].
  repeat match goal with
    | |- context [MajorFunction irp =? ?c] =>
        destruct (Z.eqb_spec (MajorFunction irp) c) as [E|E];
        [ exfalso; apply Hnot; rewrite E; cbn; tauto | clear E ]
    end.
  reflexivity.
Qed.

(** Simplify projections of explicit worlds and IRPs. *)
Ltac world_simpl :=
  cbv beta; unfold set_files;
  cbn [host hostcalls files id_sequence calls log channel_error negb].

Ltac irp_simpl :=
  cbn [buffer capacity output input IoStatus MajorFunction MinorFunction FileId
       set_output set_input set_IoStatus
       Stream_Write_UINT8 Stream_Write_UINT32 Stream_Write_UINT64 Stream_Write
       Stream_Zero].

Ltac destruct_callback rc h :=
  match goal with
  | |- context [irp_Complete ?i ?h0] => destruct (irp_Complete i h0) as [rc h]
  | |- context [irp_Discard ?i ?h0] => destruct (irp_Discard i h0) as [rc h]
  end.

Lemma Stream_Check_ok (s : list byte) (n : Z) :
  n <= Z.of_nat (length s) -> Stream_CheckAndLogRequiredLength s n = true.
Proof.
  intros Hn. unfold Stream_CheckAndLogRequiredLength, Stream_GetRemainingLength.
  now apply Z.leb_le.
Qed.

Lemma length_create_request (a b c d e f : Z) (Path : list byte) :
  length (create_request a b c d e f Path) = (32 + length Path)%nat.
Proof.
  unfold create_request. rewrite !length_app, !length_le_bytes. lia.
Qed.

(** *** Create *)

(** C5. A Create IRP with a well-formed body whose open fails is still
    completed: the response body is FileId = 0 and Information = 0, and
    [IoStatus] is the NT status the mapper gives for the host's last
    error. *)
Theorem create_open_failure
    (drive : DRIVE_DEVICE) (irp : IRP) (w : World)
    (DesiredAccess AllocationSize FileAttributes SharedAccess
     CreateDisposition CreateOptions : Z) (Path : list byte) (h' : Host) :
  MajorFunction irp = IRP_MJ_CREATE ->
  uint32 DesiredAccess -> uint64 AllocationSize -> uint32 FileAttributes ->
  uint32 SharedAccess -> uint32 CreateDisposition -> uint32 CreateOptions ->
  uint32 (Z.of_nat (length Path)) ->
  input irp = create_request DesiredAccess AllocationSize FileAttributes
                SharedAccess CreateDisposition CreateOptions Path ->
  drive_file_new (path drive) Path (Z.of_nat (length Path) / 2) (id_sequence w)
    DesiredAccess CreateDisposition CreateOptions FileAttributes SharedAccess
    (host w) = (None, h') ->
  exists irp' w',
    drive_process_irp drive irp w = (fst (irp_Complete irp' h'), w') /\
    calls w' = calls w ++ [Complete irp'] /\
    buffer (output irp') = buffer (output irp) ++ le_bytes 4 0 ++ le_bytes 1 0 /\
    (forall w0, IoStatus irp' = fst (drive_map_windows_err (GetLastError h') w0)) /\
    files w' = files w.
Proof.
  intros Hmj HDA HAS HFA HSA HCD HCO HPL Hin Hnew.
  rewrite dispatch_create by exact Hmj.
  unfold drive_process_irp_create. cbn [input set_IoStatus]. rewrite Hin.
  rewrite Stream_Check_ok by (rewrite length_create_request; lia).
  unfold create_request. cbn [negb].
  rewrite Stream_Get_UINT32_le by assumption.
  rewrite Stream_Get_UINT64_le by assumption.
  rewrite !Stream_Get_UINT32_le by assumption.
  rewrite Stream_Check_ok by lia. cbn [negb].
  cbv [bind next_id_sequence on_host]. cbn [host id_sequence].
  rewrite Hnew.
  match goal with
  | |- context [set_IoStatus_from_last_error ?i ?w1] =>
      destruct (set_IoStatus_from_last_error_spec i w1) as (w2 & -> & Hw2)
  end.
  destruct Hw2 as (Hh & Hhc & Hf & Hi & Hc & He). cbn in Hh, Hhc, Hf, Hi, Hc, He.
  unfold Complete_irp. cbv [bind called on_host transport]. cbn [host calls files].
  rewrite Hh.
  match goal with |- context [irp_Complete ?i h'] => exists i end.
  destruct (irp_Complete _ h') as [rc h3]. eexists. split; [reflexivity|].
  cbn. split; [now rewrite Hc|]. split; [now rewrite <- app_assoc|].
  split; [intros w0; apply drive_map_windows_err_fst | exact Hf].
Qed.



(** *** Close *)

(** What the dispatcher does with a Close IRP. *)
Lemma close_outcome (drive : DRIVE_DEVICE) (irp : IRP) (w : World) :
  distinct major_labels = true ->
  MajorFunction irp = IRP_MJ_CLOSE ->
  exists irp' rc w',
    drive_process_irp drive irp w = (rc, w') /\
    calls w' = calls w ++ [Complete irp'] /\
    buffer (output irp') = buffer (output irp) ++ [x00; x00; x00; x00; x00] /\
    (files w !! FileId irp = None -> IoStatus irp' = STATUS_UNSUCCESSFUL) /\
    files w' !! FileId irp = None.
Proof.
  intros Hd Hmj. rewrite dispatch_close by assumption.
  unfold drive_process_irp_close, drive_get_file_by_id,
    ListDictionary_GetItemValue, ListDictionary_Take, Complete_irp.
  cbv [bind called on_host transport ret]. irp_simpl. world_simpl.
  destruct (files w !! FileId irp) as [file|] eqn:Efile; world_simpl.
  - destruct (drive_file_free file (host w)) as [[|] h1]; world_simpl.
    + destruct_callback rc h2. eexists _, _, _.
      split; [reflexivity|]. world_simpl. irp_simpl.
      repeat split; [discriminate | apply lookup_delete_eq].
    + match goal with
      | |- context [set_IoStatus_from_last_error ?i ?w1] =>
          destruct (set_IoStatus_from_last_error_spec i w1) as (w2 & -> & Hw2)
      end.
      destruct Hw2 as (Hh & Hhc & Hf & Hi & Hc & He).
      cbn in Hh, Hhc, Hf, Hi, Hc, He.
      destruct_callback rc h2. eexists _, _, _.
      split; [reflexivity|]. world_simpl. irp_simpl.
      rewrite Hc, Hf. repeat split; [discriminate | apply lookup_delete_eq].
  - destruct_callback rc h2. eexists _, _, _.
    split; [reflexivity|]. world_simpl. irp_simpl.
    repeat split. exact Efile.
Qed.

(** C6. Every Close IRP is completed with a response body of exactly five
    zero bytes, whatever happens to the file; a Close whose FileId is not
    in the table sets [IoStatus] to STATUS_UNSUCCESSFUL and still writes
    the five bytes. *)
Theorem close_response (drive : DRIVE_DEVICE) (irp : IRP) (w : World) :
  distinct major_labels = true ->
  MajorFunction irp = IRP_MJ_CLOSE ->
  exists irp' rc w',
    drive_process_irp drive irp w = (rc, w') /\
    calls w' = calls w ++ [Complete irp'] /\
    buffer (output irp') = buffer (output irp) ++ [x00; x00; x00; x00; x00] /\
    (files w !! FileId irp = None -> IoStatus irp' = STATUS_UNSUCCESSFUL).
Proof.
  intros Hd Hmj.
  destruct (close_outcome drive irp w Hd Hmj)
    as (irp' & rc & w' & Hrun & Hcalls & Hbuf & Hst & _).
  exists irp', rc, w'. auto.
Qed.
(** *** Read *)

Lemma length_read_request (Length Offset : Z) (padding : list byte) :
  length (read_request Length Offset padding) = (12 + length padding)%nat.
Proof. unfold read_request. rewrite !length_app, !length_le_bytes. lia. Qed.

(** Route a well-formed Read to its handler and read the two fields. *)
Ltac read_parse Hd Hmj HL HO Hin :=
  rewrite dispatch_read by assumption;
  unfold drive_process_irp_read; cbn [input set_IoStatus]; rewrite Hin;
  rewrite Stream_Check_ok by (rewrite length_read_request; lia);
  unfold read_request; cbn [negb];
  rewrite Stream_Get_UINT32_le by exact HL;
  rewrite Stream_Get_UINT64_le by exact HO;
  unfold drive_get_file_by_id, ListDictionary_GetItemValue;
  cbv [bind]; irp_simpl.

(** The Read of a FileId that is not in the table. *)
Lemma read_unknown_file
    (drive : DRIVE_DEVICE) (irp : IRP) (w : World)
    (Length Offset : Z) (padding : list byte) :
  distinct major_labels = true ->
  MajorFunction irp = IRP_MJ_READ ->
  uint32 Length -> uint64 Offset ->
  input irp = read_request Length Offset padding ->
  Stream_HasRemainingCapacity (output irp) 4 = true ->
  files w !! FileId irp = None ->
  exists irp' rc w',
    drive_process_irp drive irp w = (rc, w') /\
    calls w' = calls w ++ [Complete irp'] /\
    buffer (output irp') = buffer (output irp) ++ le_bytes 4 0 /\
    IoStatus irp' = STATUS_UNSUCCESSFUL /\
    hostcalls w' = hostcalls w.
Proof.
  intros Hd Hmj HL HO Hin Hcap Hnone.
  read_parse Hd Hmj HL HO Hin. rewrite Hnone.
  cbv [ret]. irp_simpl.
  change ((0 + 4) mod 2 ^ 32) with 4.
  unfold Stream_EnsureRemainingCapacity. rewrite Hcap.
  cbv [ret]. cbn [negb Z.eqb]. unfold Complete_irp.
  cbv [bind called transport]. world_simpl.
  destruct_callback rc h2. eexists _, _, _.
  split; [reflexivity|]. world_simpl. irp_simpl. repeat split.
Qed.

(** The Read whose seek fails. *)
Lemma read_seek_fails
    (drive : DRIVE_DEVICE) (irp : IRP) (w : World)
    (Length Offset : Z) (padding : list byte) (file : DRIVE_FILE) (h1 : Host) :
  distinct major_labels = true ->
  MajorFunction irp = IRP_MJ_READ ->
  uint32 Length -> uint64 Offset ->
  input irp = read_request Length Offset padding ->
  Stream_HasRemainingCapacity (output irp) 4 = true ->
  files w !! FileId irp = Some file ->
  drive_file_seek file Offset (host w) = (false, h1) ->
  exists irp' rc w',
    drive_process_irp drive irp w = (rc, w') /\
    calls w' = calls w ++ [Complete irp'] /\
    buffer (output irp') = buffer (output irp) ++ le_bytes 4 0 /\
    (forall w0, IoStatus irp' = fst (drive_map_windows_err (GetLastError h1) w0)) /\
    hostcalls w' = hostcalls w ++ [call_drive_file_seek].
Proof.
  intros Hd Hmj HL HO Hin Hcap Hfile Hseek.
  read_parse Hd Hmj HL HO Hin. rewrite Hfile.
  cbv [bind on_host ret]. rewrite Hseek. world_simpl.
  match goal with
  | |- context [set_IoStatus_from_last_error ?i ?w1] =>
      destruct (set_IoStatus_from_last_error_spec i w1) as (w2 & -> & Hw2)
  end.
  destruct Hw2 as (Hh & Hhc & Hf & Hi & Hc & He).
  cbn in Hh, Hhc, Hf, Hi, Hc, He.
  irp_simpl. change ((0 + 4) mod 2 ^ 32) with 4.
  unfold Stream_EnsureRemainingCapacity. rewrite Hcap.
  cbv [ret]. cbn [negb Z.eqb]. unfold Complete_irp.
  cbv [bind called transport]. world_simpl.
  destruct_callback rc h2. eexists _, _, _.
  split; [reflexivity|]. world_simpl. irp_simpl.
  rewrite Hc, Hhc. repeat split. intros w0. apply drive_map_windows_err_fst.
Qed.

(** The Read of no bytes from a file whose seek succeeds. *)
Lemma read_nothing
    (drive : DRIVE_DEVICE) (irp : IRP) (w : World)
    (Offset : Z) (padding : list byte) (file : DRIVE_FILE) (h1 : Host) :
  distinct major_labels = true ->
  MajorFunction irp = IRP_MJ_READ ->
  uint64 Offset ->
  input irp = read_request 0 Offset padding ->
  Stream_HasRemainingCapacity (output irp) 4 = true ->
  files w !! FileId irp = Some file ->
  drive_file_seek file Offset (host w) = (true, h1) ->
  exists irp' rc w',
    drive_process_irp drive irp w = (rc, w') /\
    calls w' = calls w ++ [Complete irp'] /\
    buffer (output irp') = buffer (output irp) ++ le_bytes 4 0 /\
    IoStatus irp' = STATUS_SUCCESS /\
    hostcalls w' = hostcalls w ++ [call_drive_file_seek].
Proof.
  intros Hd Hmj HO Hin Hcap Hfile Hseek.
  assert (HL : uint32 0) by (unfold uint32; lia).
  read_parse Hd Hmj HL HO Hin. rewrite Hfile.
  cbv [bind on_host ret]. rewrite Hseek. world_simpl.
  irp_simpl. change ((0 + 4) mod 2 ^ 32) with 4.
  unfold Stream_EnsureRemainingCapacity. rewrite Hcap.
  cbv [ret]. cbn [negb Z.eqb]. unfold Complete_irp.
  cbv [bind called transport]. world_simpl.
  destruct_callback rc h2. eexists _, _, _.
  split; [reflexivity|]. world_simpl. irp_simpl. repeat split.
Qed.

(** The Read whose host read fails, after a successful seek; the response
    buffer has room for the requested bytes or the heap grows it. *)
Lemma read_fails
    (drive : DRIVE_DEVICE) (irp : IRP) (w : World)
    (Length Offset : Z) (padding : list byte) (file : DRIVE_FILE)
    (h1 h2 h3 : Host) :
  distinct major_labels = true ->
  MajorFunction irp = IRP_MJ_READ ->
  uint32 Length -> uint64 Offset ->
  input irp = read_request Length Offset padding ->
  Length <> 0 ->
  files w !! FileId irp = Some file ->
  drive_file_seek file Offset (host w) = (true, h1) ->
  (Stream_HasRemainingCapacity (output irp) ((Length + 4) mod 2 ^ 32) = true /\
   h2 = h1) \/
  (Stream_HasRemainingCapacity (output irp) ((Length + 4) mod 2 ^ 32) = false /\
   heap_grow ((Length + 4) mod 2 ^ 32) h1 = (true, h2)) ->
  drive_file_read file Length h2 = (None, h3) ->
  exists irp' rc w',
    drive_process_irp drive irp w = (rc, w') /\
    calls w' = calls w ++ [Complete irp'] /\
    buffer (output irp') = buffer (output irp) ++ le_bytes 4 0 /\
    (forall w0, IoStatus irp' = fst (drive_map_windows_err (GetLastError h3) w0)).
Proof.
  intros Hd Hmj HL HO Hin Hnz Hfile Hseek Hroom Hread.
  read_parse Hd Hmj HL HO Hin. rewrite Hfile.
  cbv [bind on_host ret]. rewrite Hseek. world_simpl. irp_simpl.
  unfold Stream_EnsureRemainingCapacity.
  apply Z.eqb_neq in Hnz.
  destruct Hroom as [[Hcap ->] | [Hcap Hgrow]]; rewrite Hcap.
  - cbv [ret]. cbn [negb]. rewrite Hnz.
    world_simpl. rewrite Hread.
    match goal with
    | |- context [set_IoStatus_from_last_error ?i ?w1] =>
        destruct (set_IoStatus_from_last_error_spec i w1) as (w2 & -> & Hw2)
    end.
    destruct Hw2 as (Hh & Hhc & Hf & Hi & Hc & He).
    cbn in Hh, Hhc, Hf, Hi, Hc, He.
    unfold Complete_irp. cbv [bind called transport]. world_simpl.
    destruct_callback rc h4. eexists _, _, _.
    split; [reflexivity|]. world_simpl. irp_simpl.
    rewrite Hc. repeat split. intros w0. apply drive_map_windows_err_fst.
  - cbv [bind on_host ret]. world_simpl. rewrite Hgrow. cbn [negb]. rewrite Hnz.
    world_simpl. rewrite Hread.
    match goal with
    | |- context [set_IoStatus_from_last_error ?i ?w1] =>
        destruct (set_IoStatus_from_last_error_spec i w1) as (w2 & -> & Hw2)
    end.
    destruct Hw2 as (Hh & Hhc & Hf & Hi & Hc & He).
    cbn in Hh, Hhc, Hf, Hi, Hc, He.
    unfold Complete_irp. cbv [bind called transport]. world_simpl.
    destruct_callback rc h4. eexists _, _, _.
    split; [reflexivity|]. world_simpl. irp_simpl.
    rewrite Hc. repeat split. intros w0. apply drive_map_windows_err_fst.
Qed.

(** C10. A Read IRP with a well-formed body and room for four bytes in its
    response buffer.  If Length is 0, the FileId is in the table and the
    seek to Offset succeeds, the only host operation is that seek (the host
    read is not invoked), the body is one 32-bit zero, [IoStatus] stays
    STATUS_SUCCESS and the IRP is completed.  Every error branch, the
    unknown FileId, the failed seek (whatever Length is) and the failed
    read, completes the IRP with a body of exactly one 32-bit zero. *)
Theorem read_zero_length_and_error_bodies
    (drive : DRIVE_DEVICE) (irp : IRP) (w : World)
    (Length Offset : Z) (padding : list byte) :
  distinct major_labels = true ->
  MajorFunction irp = IRP_MJ_READ ->
  uint32 Length -> uint64 Offset ->
  input irp = read_request Length Offset padding ->
  Stream_HasRemainingCapacity (output irp) 4 = true ->
  exists rc w',
    drive_process_irp drive irp w = (rc, w') /\
    (* no bytes requested, the file is open and the seek succeeds *)
    (forall file h1,
       Length = 0 ->
       files w !! FileId irp = Some file ->
       drive_file_seek file Offset (host w) = (true, h1) ->
       exists irp',
         calls w' = calls w ++ [Complete irp'] /\
         buffer (output irp') = buffer (output irp) ++ le_bytes 4 0 /\
         IoStatus irp' = STATUS_SUCCESS /\
         hostcalls w' = hostcalls w ++ [call_drive_file_seek]) /\
    (* unknown FileId *)
    (files w !! FileId irp = None ->
     exists irp',
       calls w' = calls w ++ [Complete irp'] /\
       buffer (output irp') = buffer (output irp) ++ le_bytes 4 0 /\
       IoStatus irp' = STATUS_UNSUCCESSFUL) /\
    (* failed seek *)
    (forall file h1,
       files w !! FileId irp = Some file ->
       drive_file_seek file Offset (host w) = (false, h1) ->
       exists irp',
         calls w' = calls w ++ [Complete irp'] /\
         buffer (output irp') = buffer (output irp) ++ le_bytes 4 0 /\
         (forall w0,
            IoStatus irp' = fst (drive_map_windows_err (GetLastError h1) w0)) /\
         hostcalls w' = hostcalls w ++ [call_drive_file_seek]) /\
    (* failed read *)
    (forall file h1 h2 h3,
       Length <> 0 ->
       files w !! FileId irp = Some file ->
       drive_file_seek file Offset (host w) = (true, h1) ->
       (Stream_HasRemainingCapacity (output irp) ((Length + 4) mod 2 ^ 32) = true /\
        h2 = h1) \/
       (Stream_HasRemainingCapacity (output irp) ((Length + 4) mod 2 ^ 32) = false /\
        heap_grow ((Length + 4) mod 2 ^ 32) h1 = (true, h2)) ->
       drive_file_read file Length h2 = (None, h3) ->
       exists irp',
         calls w' = calls w ++ [Complete irp'] /\
         buffer (output irp') = buffer (output irp) ++ le_bytes 4 0 /\
         (forall w0,
            IoStatus irp' = fst (drive_map_windows_err (GetLastError h3) w0))).
Proof.
  intros Hd Hmj HL HO Hin Hcap.
  destruct (drive_process_irp drive irp w) as [rc w'] eqn:Erun.
  exists rc, w'. split; [reflexivity|].
  split; [|split; [|split]].
  - intros file h1 -> Hfile Hseek.
    destruct (read_nothing drive irp w Offset padding file h1)
      as (irp' & rc0 & w0 & Hrun & Hres); try assumption.
    rewrite Erun in Hrun. injection Hrun as <- <-. exists irp'. exact Hres.
  - intros Hnone.
    destruct (read_unknown_file drive irp w Length Offset padding)
      as (irp' & rc0 & w0 & Hrun & Hc & Hb & Hs & _); try assumption.
    rewrite Erun in Hrun. injection Hrun as <- <-. exists irp'. auto.
  - intros file h1 Hfile Hseek.
    destruct (read_seek_fails drive irp w Length Offset padding file h1)
      as (irp' & rc0 & w0 & Hrun & Hres); try assumption.
    rewrite Erun in Hrun. injection Hrun as <- <-. exists irp'. exact Hres.
  - intros file h1 h2 h3 Hnz Hfile Hseek Hroom Hread.
    destruct (read_fails drive irp w Length Offset padding file h1 h2 h3)
      as (irp' & rc0 & w0 & Hrun & Hres); try assumption.
    rewrite Erun in Hrun. injection Hrun as <- <-. exists irp'. exact Hres.
Qed.

(** C7. After a Close IRP has been processed for a FileId, a Read IRP with
    the same FileId (well-formed body, room for four bytes in the response
    buffer) finds no file in the table: it is completed with
    [IoStatus] = STATUS_UNSUCCESSFUL and ActualLength = 0.  The table entry
    is gone whether or not freeing the handle succeeded. *)
Theorem read_after_close
    (drive : DRIVE_DEVICE) (close read : IRP) (w : World)
    (Length Offset : Z) (padding : list byte) :
  distinct major_labels = true ->
  MajorFunction close = IRP_MJ_CLOSE ->
  MajorFunction read = IRP_MJ_READ ->
  FileId read = FileId close ->
  uint32 Length -> uint64 Offset ->
  input read = read_request Length Offset padding ->
  Stream_HasRemainingCapacity (output read) 4 = true ->
  exists rc1 w1 rc2 w2 irp',
    drive_process_irp drive close w = (rc1, w1) /\
    files w1 !! FileId close = None /\
    drive_process_irp drive read w1 = (rc2, w2) /\
    calls w2 = calls w1 ++ [Complete irp'] /\
    IoStatus irp' = STATUS_UNSUCCESSFUL /\
    buffer (output irp') = buffer (output read) ++ le_bytes 4 0.
Proof.
  intros Hd Hcl Hrd Hid HL HO Hin Hcap.
  destruct (close_outcome drive close w Hd Hcl)
    as (irp1 & rc1 & w1 & Hrun1 & _ & _ & _ & Hgone).
  destruct (read_unknown_file drive read w1 Length Offset padding)
    as (irp' & rc2 & w2 & Hrun2 & Hc & Hb & Hs & _); try assumption.
  { now rewrite Hid. }
  exists rc1, w1, rc2, w2, irp'. auto 10.
Qed.

(** *** QueryVolumeInformation *)

(** C9. A QueryVolumeInformation IRP whose FsInformationClass is none of
    the five supported classes is completed with a body of exactly one
    32-bit Length field equal to 0 and [IoStatus] = STATUS_UNSUCCESSFUL. *)
Theorem query_volume_unknown_class
    (drive : DRIVE_DEVICE) (irp : IRP) (w : World)
    (FsInformationClass : Z) (rest : list byte) :
  distinct major_labels = true ->
  MajorFunction irp = IRP_MJ_QUERY_VOLUME_INFORMATION ->
  uint32 FsInformationClass ->
  input irp = query_volume_request FsInformationClass rest ->
  ~ In FsInformationClass volume_class_labels ->
  exists irp' rc w',
    drive_process_irp drive irp w = (rc, w') /\
    calls w' = calls w ++ [Complete irp'] /\
    buffer (output irp') = buffer (output irp) ++ le_bytes 4 0 /\
    IoStatus irp' = STATUS_UNSUCCESSFUL.
Proof.
  intros Hd Hmj Hcls Hin Hnot.
  rewrite dispatch_query_volume_information by assumption.
  unfold drive_process_irp_query_volume_information.
  cbn [input output set_IoStatus]. rewrite Hin.
  unfold query_volume_request.
  rewrite Stream_Check_ok by (rewrite length_app, length_le_bytes; lia).
  rewrite Stream_Get_UINT32_le by exact Hcls. cbn [negb].
  cbv [bind on_host]. world_simpl.
  destruct (GetDiskFreeSpaceW (path drive) (host w)) as [[[[spc bps] nfc] tnc] h1].
  repeat match goal with
    | |- context [FsInformationClass =? ?c] =>
        destruct (Z.eqb_spec FsInformationClass c) as [E|E];
        [ exfalso; apply Hnot; rewrite E; cbn; tauto | clear E ]
    end.
  unfold Complete_irp. cbv [bind WLog called transport]. world_simpl.
  destruct_callback rc h2. eexists _, _, _.
  split; [reflexivity|]. world_simpl. irp_simpl. repeat split.
Qed.

(** *** Lock control and unrouted major functions *)

(** C8. An IRP_MJ_LOCK_CONTROL IRP whose body has at least four bytes is
    completed with [IoStatus] = STATUS_SUCCESS and a response body of one
    32-bit zero; an IRP whose major function is no case of the routing
    switch is completed with [IoStatus] = STATUS_NOT_SUPPORTED and nothing
    written to the response body. *)
Theorem lock_control_and_unrouted (drive : DRIVE_DEVICE) (irp : IRP) (w : World) :
  distinct major_labels = true ->
  (MajorFunction irp = IRP_MJ_LOCK_CONTROL ->
   4 <= Z.of_nat (length (input irp)) ->
   exists irp' rc w',
     drive_process_irp drive irp w = (rc, w') /\
     calls w' = calls w ++ [Complete irp'] /\
     IoStatus irp' = STATUS_SUCCESS /\
     buffer (output irp') = buffer (output irp) ++ le_bytes 4 0) /\
  (~ In (MajorFunction irp) major_labels ->
   exists irp' rc w',
     drive_process_irp drive irp w = (rc, w') /\
     calls w' = calls w ++ [Complete irp'] /\
     IoStatus irp' = STATUS_NOT_SUPPORTED /\
     buffer (output irp') = buffer (output irp)).
Proof.
  intros Hd. split.
  - intros Hmj Hlen. rewrite dispatch_lock_control by assumption.
    unfold drive_process_irp_silent_ignore. cbn [input set_IoStatus].
    rewrite Stream_Check_ok by exact Hlen. cbn [negb].
    unfold Stream_Get_UINT32, Complete_irp.
    cbv [bind WLog called transport]. world_simpl.
    destruct_callback rc h2. eexists _, _, _.
    split; [reflexivity|]. world_simpl. irp_simpl. repeat split.
  - intros Hnot. rewrite dispatch_other by exact Hnot.
    unfold Complete_irp. cbv [bind called transport]. world_simpl.
    destruct_callback rc h2. eexists _, _, _.
    split; [reflexivity|]. world_simpl. irp_simpl. repeat split.
Qed.

(** *** Callback discipline *)

Ltac same_req :=
  unfold same_request in *;
  cbn [MajorFunction MinorFunction FileId set_IoStatus set_input set_output fst] in *;
  intuition congruence.

Lemma quiet_ret {A} (a : A) (P : A -> Prop) : P a -> quiet (ret a) P.
Proof. intros Hp w. split; [reflexivity | exact Hp]. Qed.

Lemma quiet_bind {A B} (m : M A) (k : A -> M B) (P : A -> Prop) (Q : B -> Prop) :
  quiet m P -> (forall a, P a -> quiet (k a) Q) -> quiet (bind m k) Q.
Proof.
  intros Hm Hk w. unfold bind. destruct (Hm w) as [Hc Hp].
  destruct (m w) as [a w1]. cbn [fst snd] in *.
  destruct (Hk a Hp w1) as [Hc' Hq]. split; [congruence | exact Hq].
Qed.

Lemma quiet_on_host {A} (c : HostCall) (op : Host -> A * Host) :
  quiet (on_host c op) (fun _ => True).
Proof.
  intros w. unfold on_host. destruct (op (host w)).
  split; [reflexivity | exact I].
Qed.

Lemma quiet_WLog (m : LogMsg) : quiet (WLog m) (fun _ => True).
Proof. intros w. split; [reflexivity | exact I]. Qed.

Lemma quiet_past_buffer (fits : bool) :
  quiet (if fits then ret tt else past_buffer) (fun _ => True).
Proof. intros w. destruct fits; split; try reflexivity; exact I. Qed.

Lemma quiet_next_id_sequence : quiet next_id_sequence (fun _ => True).
Proof. intros w. split; [reflexivity | exact I]. Qed.

Lemma quiet_ListDictionary_Add (key : Z) (value : DRIVE_FILE) :
  quiet (ListDictionary_Add key value) (fun _ => True).
Proof.
  intros w. unfold ListDictionary_Add.
  destruct (files w !! key); split; try reflexivity; exact I.
Qed.

Lemma quiet_drive_get_file_by_id (id : Z) :
  quiet (drive_get_file_by_id id) (fun _ => True).
Proof. intros w. split; [reflexivity | exact I]. Qed.

Lemma quiet_ListDictionary_Take (key : Z) :
  quiet (ListDictionary_Take key) (fun _ => True).
Proof. intros w. split; [reflexivity | exact I]. Qed.

Lemma quiet_Stream_EnsureRemainingCapacity (s : wStream) (size : Z) :
  quiet (Stream_EnsureRemainingCapacity s size) (fun _ => True).
Proof.
  intros w. unfold Stream_EnsureRemainingCapacity.
  destruct (Stream_HasRemainingCapacity s size); [split; [reflexivity | exact I]|].
  cbv [bind on_host]. destruct (heap_grow size (host w)) as [[|] h];
    split; try reflexivity; exact I.
Qed.

Lemma quiet_set_IoStatus_from_last_error (irp : IRP) :
  quiet (set_IoStatus_from_last_error irp) (same_request irp).
Proof.
  intros w.
  destruct (set_IoStatus_from_last_error_spec irp w) as (w' & -> & Hw).
  destruct Hw as (_ & _ & _ & _ & Hc & _). split; [exact Hc | same_req].
Qed.

Lemma quiet_set_IoStatus_from_last_error_of (irp0 irp : IRP) :
  same_request irp0 irp ->
  quiet (set_IoStatus_from_last_error irp) (same_request irp0).
Proof.
  intros Hsame w.
  destruct (quiet_set_IoStatus_from_last_error irp w) as [Hc Hs].
  split; [exact Hc | same_req].
Qed.

Lemma dropped_ret (irp : IRP) (rc : Z) :
  rc = ERROR_INVALID_DATA \/ rc = ERROR_INTERNAL_ERROR \/ rc = CHANNEL_RC_NO_MEMORY ->
  one_callback_or_dropped irp (ret rc).
Proof. intros Hrc w. right; right. split; [reflexivity | exact Hrc]. Qed.

Lemma Complete_irp_once (irp irp' : IRP) :
  same_request irp irp' -> one_callback_or_dropped irp (Complete_irp irp').
Proof.
  intros Hsame w. left. exists irp', (host w). unfold Complete_irp.
  cbv [bind called transport]. world_simpl.
  destruct (irp_Complete irp' (host w)) as [rc h]. repeat split; same_req.
Qed.

Lemma Discard_irp_once (irp irp' : IRP) :
  same_request irp irp' -> one_callback_or_dropped irp (Discard_irp irp').
Proof.
  intros Hsame w. right; left. exists irp', (host w). unfold Discard_irp.
  cbv [bind called transport]. world_simpl.
  destruct (irp_Discard irp' (host w)) as [rc h]. repeat split; same_req.
Qed.

Lemma bind_once {A} (irp : IRP) (m : M A) (k : A -> M Z) (P : A -> Prop) :
  quiet m P ->
  (forall a, P a -> one_callback_or_dropped irp (k a)) ->
  one_callback_or_dropped irp (bind m k).
Proof.
  intros Hm Hk w. unfold bind. destruct (Hm w) as [Hc Hp].
  destruct (m w) as [a w1]. cbn [fst snd] in Hc, Hp.
  specialize (Hk a Hp w1). cbv zeta in *. rewrite Hc in Hk. exact Hk.
Qed.

Lemma once_same_request (irp irp1 : IRP) (m : M Z) :
  same_request irp irp1 ->
  one_callback_or_dropped irp1 m -> one_callback_or_dropped irp m.
Proof.
  intros Hsame Hm w. specialize (Hm w). cbv zeta in *.
  destruct Hm as [(irp' & h & Hc & Hs & Hr) | [(irp' & h & Hc & Hs & Hr) | Hd]].
  - left. exists irp', h. repeat split; try assumption; same_req.
  - right; left. exists irp', h. repeat split; try assumption; same_req.
  - right; right. exact Hd.
Qed.

(** Discharge [quiet] goals along the structure of the code. *)
Ltac quiet_steps :=
  repeat first
    [ apply quiet_set_IoStatus_from_last_error
    | apply quiet_set_IoStatus_from_last_error_of; same_req
    | apply quiet_on_host
    | apply quiet_past_buffer
    | apply quiet_WLog
    | apply quiet_next_id_sequence
    | apply quiet_ListDictionary_Add
    | apply quiet_ListDictionary_Take
    | apply quiet_drive_get_file_by_id
    | apply quiet_Stream_EnsureRemainingCapacity
    | apply quiet_ret; first [ exact I | same_req ]
    | match goal with
      | |- quiet (if ?b then _ else _) _ => destruct b
      | |- quiet (match ?x with _ => _ end) _ => destruct x
      end
    | eapply quiet_bind; [ | intros ? ? ] ].

(** Discharge [one_callback_or_dropped] goals along the structure of a
    handler; [P] is what is known of the IRP a composite step returns. *)
Ltac once_steps :=
  repeat first
    [ apply Complete_irp_once; same_req
    | apply Discard_irp_once; same_req
    | apply dropped_ret; tauto
    | match goal with
      | |- one_callback_or_dropped _ (if ?b then _ else _) => destruct b
      | |- one_callback_or_dropped ?i (bind (A := IRP) _ _) =>
          apply (bind_once (A := IRP) i _ _ (same_request i));
          [ quiet_steps | intros ? ? ]
      | |- one_callback_or_dropped ?i (bind (A := (IRP * Z)%type) _ _) =>
          apply (bind_once (A := (IRP * Z)%type) i _ _
                   (fun p => same_request i (fst p)));
          [ quiet_steps | intros [? ?] ? ]
      | |- one_callback_or_dropped _ (bind _ _) =>
          eapply bind_once; [ quiet_steps | intros ? ? ]
      | |- one_callback_or_dropped _ (match ?x with _ => _ end) => destruct x
      end ].

Lemma drive_process_irp_create_once (drive : DRIVE_DEVICE) (irp : IRP) :
  one_callback_or_dropped irp (drive_process_irp_create drive irp).
Proof. unfold drive_process_irp_create. once_steps. Qed.

Lemma drive_process_irp_close_once (drive : DRIVE_DEVICE) (irp : IRP) :
  one_callback_or_dropped irp (drive_process_irp_close drive irp).
Proof. unfold drive_process_irp_close. once_steps. Qed.

Lemma drive_process_irp_read_once (drive : DRIVE_DEVICE) (irp : IRP) :
  one_callback_or_dropped irp (drive_process_irp_read drive irp).
Proof. unfold drive_process_irp_read. once_steps. Qed.

Lemma drive_process_irp_write_once (drive : DRIVE_DEVICE) (irp : IRP) :
  one_callback_or_dropped irp (drive_process_irp_write drive irp).
Proof. unfold drive_process_irp_write. once_steps. Qed.

Lemma drive_process_irp_query_information_once (drive : DRIVE_DEVICE) (irp : IRP) :
  one_callback_or_dropped irp (drive_process_irp_query_information drive irp).
Proof. unfold drive_process_irp_query_information. once_steps. Qed.

Lemma drive_process_irp_set_information_once (drive : DRIVE_DEVICE) (irp : IRP) :
  one_callback_or_dropped irp (drive_process_irp_set_information drive irp).
Proof. unfold drive_process_irp_set_information. once_steps. Qed.

(** The lengths of the two volume strings fit a UINT32, so that
    CHANNEL_RC_NO_BUFFER is never returned. *)
Lemma volume_label_fits :
  (17 + (_wcslen (InitializeConstWCharFromUtf8 ascii_FREERDP) + 1) * 2 >? UINT32_MAX)
  || ((_wcslen (InitializeConstWCharFromUtf8 ascii_FREERDP) + 1) * 2 >? UINT32_MAX)
  = false.
Proof. reflexivity. Qed.

Lemma disk_type_fits :
  (12 + (_wcslen (InitializeConstWCharFromUtf8 ascii_FAT32) + 1) * 2 >? UINT32_MAX)
  || ((_wcslen (InitializeConstWCharFromUtf8 ascii_FAT32) + 1) * 2 >? UINT32_MAX)
  = false.
Proof. reflexivity. Qed.

Lemma drive_process_irp_query_volume_information_once
    (drive : DRIVE_DEVICE) (irp : IRP) :
  one_callback_or_dropped irp (drive_process_irp_query_volume_information drive irp).
Proof.
  unfold drive_process_irp_query_volume_information. cbv zeta.
  rewrite volume_label_fits, disk_type_fits. once_steps.
Qed.

Lemma drive_process_irp_silent_ignore_once (drive : DRIVE_DEVICE) (irp : IRP) :
  one_callback_or_dropped irp (drive_process_irp_silent_ignore drive irp).
Proof. unfold drive_process_irp_silent_ignore. once_steps. Qed.

Lemma drive_process_irp_query_directory_once (drive : DRIVE_DEVICE) (irp : IRP) :
  one_callback_or_dropped irp (drive_process_irp_query_directory drive irp).
Proof. unfold drive_process_irp_query_directory. once_steps. Qed.

Lemma drive_process_irp_directory_control_once (drive : DRIVE_DEVICE) (irp : IRP) :
  one_callback_or_dropped irp (drive_process_irp_directory_control drive irp).
Proof.
  unfold drive_process_irp_directory_control.
  destruct (MinorFunction irp =? IRP_MN_QUERY_DIRECTORY);
    [apply drive_process_irp_query_directory_once|].
  once_steps.
Qed.

Lemma drive_process_irp_device_control_once (drive : DRIVE_DEVICE) (irp : IRP) :
  one_callback_or_dropped irp (drive_process_irp_device_control drive irp).
Proof. unfold drive_process_irp_device_control. once_steps. Qed.

(** *** The worker *)

(** C2. One turn of the worker loop in asynchronous mode.  An IRP whose
    dispatch returns a non-zero error code is logged and ends the loop:
    the thread exits with CHANNEL_RC_OK, records no channel error and
    dispatches nothing of the rest of the queue.  An IRP whose dispatch
    returns 0 lets the loop go on with the rest of the queue.  A failure
    of MessageQueue_Wait is logged and ends the loop with
    ERROR_INTERNAL_ERROR, which is recorded on the channel; a failure of
    MessageQueue_Peek is logged and the loop goes on; a WMQ_QUIT message
    ends the loop. *)
Theorem drive_thread_func_turn
    (drive : DRIVE_DEVICE) (rest : list QueueStep) (w : World) :
  CHANNEL_RC_OK = 0 ->
  (forall id irp rc w1,
     id <> WMQ_QUIT ->
     drive_process_irp drive irp w = (rc, w1) ->
     rc <> 0 ->
     exists w',
       drive_thread_func drive (Message id (Some irp) :: rest) w
         = (Some CHANNEL_RC_OK, w') /\
       log w' = log w1 ++ [drive_process_irp_failed rc] /\
       calls w' = calls w1 /\
       hostcalls w' = hostcalls w1 /\
       files w' = files w1 /\
       channel_error w' = channel_error w1) /\
  (forall id irp w1,
     id <> WMQ_QUIT ->
     drive_process_irp drive irp w = (0, w1) ->
     drive_thread_func drive (Message id (Some irp) :: rest) w
       = drive_thread_func drive rest w1) /\
  (exists w',
     drive_thread_func drive (Wait_fails :: rest) w
       = (Some ERROR_INTERNAL_ERROR, w') /\
     log w' = log w ++ [MessageQueue_Wait_failed] /\
     calls w' = calls w /\
     (ERROR_INTERNAL_ERROR <> 0 -> rdpcontext drive = true ->
      channel_error w' = Some ERROR_INTERNAL_ERROR)) /\
  (exists w1,
     log w1 = log w ++ [MessageQueue_Peek_failed] /\
     calls w1 = calls w /\
     drive_thread_func drive (Peek_fails :: rest) w
       = drive_thread_func drive rest w1) /\
  (forall wParam,
     drive_thread_func drive (Message WMQ_QUIT wParam :: rest) w
       = (Some CHANNEL_RC_OK, w)).
Proof.
  intros Hok. repeat match goal with |- _ /\ _ => split end.
  - intros id irp rc w1 Hid Hrun Hrc.
    unfold drive_thread_func. cbn [drive_thread_loop].
    apply Z.eqb_neq in Hid, Hrc. rewrite Hid.
    unfold drive_poll_run. cbv [bind]. rewrite Hrun, Hrc. cbn [negb].
    cbv [WLog ret]. rewrite Hok. cbn [Z.eqb negb andb].
    eexists. split; [reflexivity|]. world_simpl. repeat split.
  - intros id irp w1 Hid Hrun.
    unfold drive_thread_func. cbn [drive_thread_loop].
    apply Z.eqb_neq in Hid. rewrite Hid.
    unfold drive_poll_run. cbv [bind]. rewrite Hrun. cbn [Z.eqb negb].
    cbv [ret]. cbn [negb]. reflexivity.
  - unfold drive_thread_func. cbn [drive_thread_loop].
    cbv [bind WLog ret setChannelError].
    destruct (Z.eqb_spec ERROR_INTERNAL_ERROR 0) as [E|E]; cbn [negb andb].
    + eexists. split; [reflexivity|]. world_simpl. repeat split. intros; contradiction.
    + destruct (rdpcontext drive); eexists; (split; [reflexivity|]);
        world_simpl; repeat split; intros; discriminate.
  - eexists (snd (WLog MessageQueue_Peek_failed w)).
    cbn [WLog snd]. world_simpl. repeat split.
  - intros wParam. unfold drive_thread_func. cbn [drive_thread_loop].
    rewrite Z.eqb_refl. cbv [bind ret]. rewrite Hok. reflexivity.
Qed.

(** ** Symbolic execution of the handlers *)

(** Rewrite the fields of a world with what is known of them. *)
Ltac use_world_eqs :=
  repeat match goal with
    | E : host ?v = _ |- context [host ?v] => is_var v; rewrite E
    | E : hostcalls ?v = _ |- context [hostcalls ?v] => is_var v; rewrite E
    | E : files ?v = _ |- context [files ?v] => is_var v; rewrite E
    | E : id_sequence ?v = _ |- context [id_sequence ?v] => is_var v; rewrite E
    | E : calls ?v = _ |- context [calls ?v] => is_var v; rewrite E
    | E : channel_error ?v = _ |- context [channel_error ?v] =>
        is_var v; rewrite E
    end.

Ltac world_norm :=
  cbv beta iota; unfold set_files;
  cbn [host hostcalls files id_sequence calls log channel_error negb fst snd
       output input IoStatus MajorFunction MinorFunction FileId
       set_output set_input set_IoStatus];
  use_world_eqs.

(** One step: name the world the error mapper leaves, or split on the
    innermost test or host answer the code branches on. *)
Ltac exec_step :=
  first
    [ match goal with
      | |- context [set_IoStatus_from_last_error ?i ?w1] =>
          let w2 := fresh "w" in
          let Hw := fresh "Hw" in
          destruct (set_IoStatus_from_last_error_spec i w1) as (w2 & -> & Hw);
          destruct Hw as (? & ? & ? & ? & ? & ?);
          cbn [host hostcalls files id_sequence calls log channel_error] in *
      end
    | match goal with
      | |- context [match ?x with _ => _ end] =>
          lazymatch x with
          | context [match _ with _ => _ end] => fail
          | negb ?b => destruct b eqn:?
          | _ => destruct x eqn:?
          end
      end ].

Ltac exec := repeat (world_norm; exec_step); world_norm.

(** Unfold the monad and the stream reads of a handler body. *)
Ltac open_handler :=
  cbv [bind ret on_host past_buffer transport called WLog next_id_sequence
       last_error
       ListDictionary_Add ListDictionary_Take ListDictionary_GetItemValue
       drive_get_file_by_id Complete_irp Discard_irp
       Stream_EnsureRemainingCapacity
       Stream_Get_UINT32 Stream_Get_UINT64 Stream_Get_UINT8].

(** *** Callback discipline, in full *)

Lemma drive_process_irp_once (drive : DRIVE_DEVICE) (irp : IRP) :
  one_callback_or_dropped irp (drive_process_irp drive irp).
Proof.
  unfold drive_process_irp. cbv zeta.
  assert (Hs : same_request irp (set_IoStatus STATUS_SUCCESS irp)) by same_req.
  repeat match goal with
    | |- one_callback_or_dropped _ (if ?b then _ else _) => destruct b
    end;
    try (apply (once_same_request irp _ _ Hs);
         first [ apply drive_process_irp_create_once
               | apply drive_process_irp_close_once
               | apply drive_process_irp_read_once
               | apply drive_process_irp_write_once
               | apply drive_process_irp_query_information_once
               | apply drive_process_irp_set_information_once
               | apply drive_process_irp_query_volume_information_once
               | apply drive_process_irp_silent_ignore_once
               | apply drive_process_irp_directory_control_once
               | apply drive_process_irp_device_control_once ]).
  apply Complete_irp_once. same_req.
Qed.





(** *** The error mapper, again *)

(** X1. The mapper returns STATUS_SUCCESS or one of the eleven error
    statuses; when no error status has the value of STATUS_SUCCESS, it
    returns STATUS_SUCCESS for the code STATUS_SUCCESS only: a host error
    is never reported as success. *)
Theorem drive_map_windows_err_success (fs_errno : Z) (w : World) :
  fresh STATUS_SUCCESS error_statuses = true ->
  let rc := fst (drive_map_windows_err fs_errno w) in
  (rc = STATUS_SUCCESS \/ In rc error_statuses) /\
  (rc = STATUS_SUCCESS <-> fs_errno = STATUS_SUCCESS).
Proof.
  intros Hf. cbn [fresh error_statuses] in Hf. split_distinct Hf.
  cbv zeta. unfold drive_map_windows_err.
  destruct (Z.eqb_spec fs_errno STATUS_SUCCESS) as [E|E];
    [cbn; tauto|].
  repeat match goal with
    | |- context [fs_errno =? ?c] => destruct (fs_errno =? c)
    end;
    cbn [orb fst bind WLog ret error_statuses In];
    (split; [tauto | split; [intros Hs; congruence | tauto]]).
Qed.

(** *** Read and Write, in full *)

Lemma le_value_nonneg (bs : list byte) : 0 <= le_value bs.
Proof.
  induction bs as [|b bs IH]; cbn [le_value]; [lia|].
  unfold Z_of_byte. lia.
Qed.

(** X2. A Read IRP whose response buffer has room for the length field is
    either not answered, with ERROR_INVALID_DATA or ERROR_INTERNAL_ERROR
    returned, or completed with a body made of the 32-bit count of the data
    bytes and then just those bytes; data are only ever sent with
    [IoStatus] = STATUS_SUCCESS.  The body lies within the response buffer
    unless [drive_file_read] has stored past the end of it, which is the
    last event of the trace then and happens only when the Length field is
    0xFFFFFFFC or more, so that Length + 4 wraps and less room than Length
    is secured, or when the host returns more bytes than were asked for. *)
Theorem read_body_length_prefixed (drive : DRIVE_DEVICE) (irp : IRP) (w : World) :
  distinct major_labels = true ->
  MajorFunction irp = IRP_MJ_READ ->
  Stream_GetPosition (output irp) + 4 <= capacity (output irp) ->
  let Length := fst (Stream_Get_UINT32 (input irp)) in
  exists rc w' trace,
    drive_process_irp drive irp w = (rc, w') /\
    hostcalls w' = hostcalls w ++ trace /\
    ((calls w' = calls w /\
      (rc = ERROR_INVALID_DATA \/ rc = ERROR_INTERNAL_ERROR) /\
      ~ In write_past_buffer trace) \/
     (exists irp' data,
        calls w' = calls w ++ [Complete irp'] /\
        buffer (output irp') =
          buffer (output irp) ++ le_bytes 4 (Z.of_nat (length data)) ++ data /\
        (data <> [] -> IoStatus irp' = STATUS_SUCCESS) /\
        ((~ In write_past_buffer trace /\
          Stream_GetPosition (output irp') <= capacity (output irp')) \/
         (exists before,
            trace = before ++ [call_drive_file_read; write_past_buffer] /\
            ~ In write_past_buffer before /\
            (2 ^ 32 - 4 <= Length \/ Length < Z.of_nat (length data)))))).
Proof.
  intros Hd Hmj Hroom. cbv zeta. rewrite dispatch_read by assumption.
  match goal with
  | |- exists rc w' trace, ?m = (rc, w') /\ _ =>
      exists (fst m), (snd m)
  end.
  pose proof (le_value_nonneg (take 4 (input irp))) as Hnn.
  pose proof (Z.mod_pos_bound (le_value (take 4 (input irp)) + 4) (2 ^ 32)
                ltac:(lia)) as Hmod.
  unfold drive_process_irp_read. open_handler. exec.
  all: unfold Stream_HasRemainingCapacity, Stream_GetPosition in *.
  all: cbn [buffer capacity] in *.
  all: repeat match goal with
         | E : _ || _ = true |- _ => apply orb_true_iff in E
         | E : _ || _ = false |- _ => apply orb_false_iff in E as [? ?]
         | E : (_ <=? _) = true |- _ => apply Z.leb_le in E
         | E : (_ <=? _) = false |- _ => apply Z.leb_gt in E
         | E : (_ =? _) = true |- _ => apply Z.eqb_eq in E
         | E : (_ =? _) = false |- _ => apply Z.eqb_neq in E
         end.
  all: rewrite <- ?app_assoc; cbn [app].
  all: first
         [ eexists; split; [reflexivity|]; split; [reflexivity|]
         | exists []; split; [reflexivity|]; split; [now rewrite app_nil_r|] ].
  all: try (exfalso; congruence).
  all: try (left; split; [reflexivity|]; split; [tauto|];
            cbn [In]; intuition discriminate).
  all: right.
  all: try (eexists _, []; split; [reflexivity|]; irp_simpl;
            split; [reflexivity|]; split; [congruence|]; left;
            split; [cbn [In]; intuition discriminate|];
            rewrite length_app, length_le_bytes; lia).
  all: match goal with
       | d : list byte |- _ =>
           eexists _, d; split; [reflexivity|]; irp_simpl;
           split; [now rewrite <- !app_assoc|]; split; [reflexivity|]
       end.
  all: try (left; split; [cbn [In]; intuition discriminate|];
            rewrite !length_app, length_le_bytes;
            match goal with
            | E : _ \/ _ |- _ =>
                destruct E as [E|E];
                [apply Z.eqb_eq in E | apply Z.leb_le in E]; lia
            end).
  all: right.
  all: match goal with
       | |- exists before, ?l = _ /\ _ =>
           exists (removelast (removelast l)); cbn [removelast];
           split; [reflexivity|]; split; [cbn [In]; intuition discriminate|]
       end.
  all: destruct (Z_lt_le_dec (le_value (take 4 (input irp))) (2 ^ 32 - 4))
         as [Hsmall|Hbig]; [|now left].
  all: rewrite Z.mod_small in * by lia; right; lia.
Qed.

Lemma dispatch_write (drive : DRIVE_DEVICE) (irp : IRP) :
  distinct major_labels = true ->
  MajorFunction irp = IRP_MJ_WRITE ->
  drive_process_irp drive irp =
    drive_process_irp_write drive (set_IoStatus STATUS_SUCCESS irp).
Proof.
  intros Hd E. cbn [distinct fresh major_labels] in Hd. split_distinct Hd.
  unfold drive_process_irp. cbn [MajorFunction set_IoStatus].
  rewrite E. now decide_labels.
Qed.

Lemma length_write_request (Length Offset : Z) (padding payload : list byte) :
  length (write_request Length Offset padding payload)
  = (12 + length padding + length payload)%nat.
Proof. unfold write_request. rewrite !length_app, !length_le_bytes. lia. Qed.

(** Route a Write with a well-formed fixed part to its handler and read
    its fields; the payload is what is left of the stream. *)
Ltac write_parse HL HO Hpad Hin :=
  rewrite dispatch_write by assumption;
  unfold drive_process_irp_write; cbn [input set_IoStatus]; rewrite Hin;
  rewrite Stream_Check_ok by (rewrite length_write_request; lia);
  unfold write_request; cbn [negb];
  rewrite Stream_Get_UINT32_le by exact HL;
  rewrite Stream_Get_UINT64_le by exact HO;
  unfold Stream_Seek;
  rewrite (drop_app_length' _ _ (Z.to_nat 20)) by (rewrite Hpad; reflexivity);
  unfold Stream_SafeSeek, Stream_GetRemainingLength.

(** X3. A Write IRP whose Length field announces more bytes than the body
    holds after the 32-byte fixed part is refused with ERROR_INVALID_DATA
    before anything happens: no lookup result is used, no host operation
    runs, no callback is invoked, the world is unchanged. *)
Theorem write_payload_bound
    (drive : DRIVE_DEVICE) (irp : IRP) (w : World)
    (Length Offset : Z) (padding payload : list byte) :
  distinct major_labels = true ->
  MajorFunction irp = IRP_MJ_WRITE ->
  uint32 Length -> uint64 Offset ->
  length padding = 20%nat ->
  input irp = write_request Length Offset padding payload ->
  Z.of_nat (length payload) < Length ->
  drive_process_irp drive irp w = (ERROR_INVALID_DATA, w).
Proof.
  intros Hd Hmj HL HO Hpad Hin Hshort.
  write_parse HL HO Hpad Hin.
  apply Z.ltb_lt in Hshort. rewrite Hshort. reflexivity.
Qed.

(** Close the goal from contradictory or matching host answers. *)
Ltac agree :=
  repeat match goal with
    | E1 : ?x = Some _, E2 : ?x = None |- _ => congruence
    | E1 : ?x = (true, _), E2 : ?x = (false, _) |- _ => congruence
    | E1 : ?x = Some ?a, E2 : ?x = Some ?b |- _ =>
        assert (a = b) by congruence; subst b; clear E2
    | E1 : ?x = (?a, ?h), E2 : ?x = (?b, ?k) |- _ =>
        assert (a = b /\ h = k) as [? ?] by (split; congruence);
        subst; clear E2
    end.

(** X4. A Write IRP with a well-formed body is always completed, with a
    body of the 32-bit count of bytes written and one zero byte.  The
    count is the requested Length only when the seek and the write both
    succeed, and then [IoStatus] is STATUS_SUCCESS; it is 0 when the FileId
    is unknown (STATUS_UNSUCCESSFUL, the host is not touched), when the
    seek fails (the write is not attempted) and when the write fails (the
    mapped last error in both cases). *)
Theorem write_response
    (drive : DRIVE_DEVICE) (irp : IRP) (w : World)
    (Length Offset : Z) (padding payload : list byte) :
  distinct major_labels = true ->
  MajorFunction irp = IRP_MJ_WRITE ->
  uint32 Length -> uint64 Offset ->
  length padding = 20%nat ->
  input irp = write_request Length Offset padding payload ->
  Length <= Z.of_nat (length payload) ->
  exists rc w',
    drive_process_irp drive irp w = (rc, w') /\
    exists irp' n,
      calls w' = calls w ++ [Complete irp'] /\
      buffer (output irp') = buffer (output irp) ++ le_bytes 4 n ++ le_bytes 1 0 /\
      (files w !! FileId irp = None ->
       n = 0 /\ IoStatus irp' = STATUS_UNSUCCESSFUL /\
       hostcalls w' = hostcalls w) /\
      (forall file h1,
         files w !! FileId irp = Some file ->
         drive_file_seek file Offset (host w) = (false, h1) ->
         n = 0 /\
         (forall w0,
            IoStatus irp' = fst (drive_map_windows_err (GetLastError h1) w0)) /\
         hostcalls w' = hostcalls w ++ [call_drive_file_seek]) /\
      (forall file h1 h2,
         files w !! FileId irp = Some file ->
         drive_file_seek file Offset (host w) = (true, h1) ->
         drive_file_write file payload Length h1 = (true, h2) ->
         n = Length /\ IoStatus irp' = STATUS_SUCCESS /\
         hostcalls w' =
           hostcalls w ++ [call_drive_file_seek; call_drive_file_write]) /\
      (forall file h1 h2,
         files w !! FileId irp = Some file ->
         drive_file_seek file Offset (host w) = (true, h1) ->
         drive_file_write file payload Length h1 = (false, h2) ->
         n = 0 /\
         (forall w0,
            IoStatus irp' = fst (drive_map_windows_err (GetLastError h2) w0)) /\
         hostcalls w' =
           hostcalls w ++ [call_drive_file_seek; call_drive_file_write]).
Proof.
  intros Hd Hmj HL HO Hpad Hin Hfits.
  match goal with
  | |- exists rc w', ?m = (rc, w') /\ _ =>
      exists (fst m), (snd m); split; [destruct m; reflexivity|]
  end.
  write_parse HL HO Hpad Hin.
  apply Z.ltb_ge in Hfits. rewrite Hfits.
  open_handler. exec.
  all: eexists _, _; split; [reflexivity|]; irp_simpl;
    split; [rewrite <- !app_assoc; reflexivity|].
  all: repeat split; intros; simplify_eq; agree; simplify_eq; try reflexivity;
    try (rewrite <- !app_assoc; reflexivity);
    try apply drive_map_windows_err_fst.
Qed.

(** *** QueryVolumeInformation, in full *)

Lemma length_prefixed (buf payload out : list byte) (n : Z) :
  out = buf ++ le_bytes 4 n ++ payload ->
  n = Z.of_nat (length payload) ->
  out = buf ++ le_bytes 4 (Z.of_nat (length payload)) ++ payload.
Proof. intros -> ->. reflexivity. Qed.

(** X5. Whatever its input and whatever the host answers, a
    QueryVolumeInformation IRP is either not answered, with
    ERROR_INVALID_DATA or CHANNEL_RC_NO_MEMORY returned, or completed with
    a body whose 32-bit Length field is exactly the number of bytes that
    follow it, for each of the five classes and for an unknown class. *)
Theorem query_volume_body_length_prefixed
    (drive : DRIVE_DEVICE) (irp : IRP) (w : World) :
  distinct major_labels = true ->
  MajorFunction irp = IRP_MJ_QUERY_VOLUME_INFORMATION ->
  exists rc w',
    drive_process_irp drive irp w = (rc, w') /\
    ((calls w' = calls w /\
      (rc = ERROR_INVALID_DATA \/ rc = CHANNEL_RC_NO_MEMORY)) \/
     (exists irp' payload,
        calls w' = calls w ++ [Complete irp'] /\
        buffer (output irp') =
          buffer (output irp) ++ le_bytes 4 (Z.of_nat (length payload)) ++ payload)).
Proof.
  intros Hd Hmj. rewrite dispatch_query_volume_information by assumption.
  match goal with
  | |- exists rc w', ?m = (rc, w') /\ _ =>
      exists (fst m), (snd m); split; [destruct m; reflexivity|]
  end.
  unfold drive_process_irp_query_volume_information. cbv zeta.
  rewrite volume_label_fits, disk_type_fits.
  open_handler. exec;
    first
      [ left; split; [reflexivity | tauto]
      | right; eexists _, []; split; [reflexivity|];
        irp_simpl; now rewrite app_nil_r
      | right; eexists _, _; split; [reflexivity|];
        irp_simpl; eapply length_prefixed;
        [ rewrite <- !app_assoc; reflexivity
        | rewrite !length_app, !length_le_bytes; reflexivity ] ].
Qed.

(** *** Requests that are too short *)

Lemma Stream_Check_short (s : list byte) (n : Z) :
  Z.of_nat (length s) < n -> Stream_CheckAndLogRequiredLength s n = false.
Proof.
  intros Hn. unfold Stream_CheckAndLogRequiredLength, Stream_GetRemainingLength.
  now apply Z.leb_gt.
Qed.

(** X6. An IRP whose body is shorter than the fixed part its handler reads
    (32 bytes for Create, Write, SetInformation and QueryDirectory, 12 for
    Read, 4 for QueryInformation, QueryVolumeInformation and LockControl)
    is refused with ERROR_INVALID_DATA and has no effect at all: no host
    operation, no callback, no table change, no FileId consumed, nothing
    logged by this file. *)
Theorem truncated_request_has_no_effect
    (drive : DRIVE_DEVICE) (irp : IRP) (w : World) :
  Z.of_nat (length (input irp)) < fixed_part irp ->
  drive_process_irp drive irp w = (ERROR_INVALID_DATA, w).
Proof.
  unfold fixed_part, drive_process_irp. cbv zeta.
  cbn [MajorFunction set_IoStatus].
  repeat match goal with
    | |- context [MajorFunction irp =? ?c] =>
        destruct (MajorFunction irp =? c)
    end;
    try (intros Hlt; exfalso; lia).
  all: intros Hlt.
  - unfold drive_process_irp_create. cbn [input set_IoStatus].
    now rewrite Stream_Check_short.
  - unfold drive_process_irp_read. cbn [input set_IoStatus].
    now rewrite Stream_Check_short.
  - unfold drive_process_irp_write. cbn [input set_IoStatus].
    now rewrite Stream_Check_short.
  - unfold drive_process_irp_query_information. cbn [input set_IoStatus].
    now rewrite Stream_Check_short.
  - unfold drive_process_irp_set_information. cbn [input set_IoStatus].
    now rewrite Stream_Check_short.
  - unfold drive_process_irp_query_volume_information. cbn [input set_IoStatus].
    now rewrite Stream_Check_short.
  - unfold drive_process_irp_silent_ignore. cbn [input set_IoStatus].
    now rewrite Stream_Check_short.
  - unfold drive_process_irp_directory_control.
    cbn [MinorFunction set_IoStatus].
    destruct (MinorFunction irp =? IRP_MN_QUERY_DIRECTORY); [|exfalso; lia].
    unfold drive_process_irp_query_directory. cbn [input set_IoStatus].
    now rewrite Stream_Check_short.
Qed.

(** X7. A Create IRP whose PathLength field announces more bytes than
    follow it is refused with ERROR_INVALID_DATA before the id sequence is
    touched: the world is unchanged, no FileId is consumed and the host is
    not asked to open anything. *)
Theorem create_path_bound
    (drive : DRIVE_DEVICE) (irp : IRP) (w : World)
    (DesiredAccess AllocationSize FileAttributes SharedAccess
     CreateDisposition CreateOptions PathLength : Z) (Path : list byte) :
  MajorFunction irp = IRP_MJ_CREATE ->
  uint32 DesiredAccess -> uint64 AllocationSize -> uint32 FileAttributes ->
  uint32 SharedAccess -> uint32 CreateDisposition -> uint32 CreateOptions ->
  uint32 PathLength ->
  input irp = create_request_declaring DesiredAccess AllocationSize
                FileAttributes SharedAccess CreateDisposition CreateOptions
                PathLength Path ->
  Z.of_nat (length Path) < PathLength ->
  drive_process_irp drive irp w = (ERROR_INVALID_DATA, w).
Proof.
  intros Hmj HDA HAS HFA HSA HCD HCO HPL Hin Hshort.
  rewrite dispatch_create by exact Hmj.
  unfold drive_process_irp_create. cbn [input set_IoStatus]. rewrite Hin.
  unfold create_request_declaring.
  rewrite Stream_Check_ok by (rewrite !length_app, !length_le_bytes; lia).
  cbn [negb].
  rewrite Stream_Get_UINT32_le by assumption.
  rewrite Stream_Get_UINT64_le by assumption.
  rewrite !Stream_Get_UINT32_le by assumption.
  now rewrite Stream_Check_short.
Qed.

(** *** Unknown FileIds *)

(** A branch taken on a test that cannot fail. *)
Ltac impossible :=
  match goal with
  | E : (?a =? ?a) = false |- _ => rewrite Z.eqb_refl in E; discriminate E
  end.

(** X8. An IRP that names a FileId absent from the table (Read, Write,
    QueryInformation, SetInformation, QueryDirectory or Close), whatever
    its input, never reaches the host file system: no [drive_file_*]
    operation runs (at most the response buffer is grown), the table and
    the id sequence are unchanged, and if the IRP is answered it is
    completed with [IoStatus] = STATUS_UNSUCCESSFUL. *)
Theorem unknown_file_never_reaches_host
    (drive : DRIVE_DEVICE) (irp : IRP) (w : World) :
  distinct major_labels = true ->
  MajorFunction irp = IRP_MJ_READ \/ MajorFunction irp = IRP_MJ_WRITE \/
  MajorFunction irp = IRP_MJ_QUERY_INFORMATION \/
  MajorFunction irp = IRP_MJ_SET_INFORMATION \/
  MajorFunction irp = IRP_MJ_CLOSE \/
  (MajorFunction irp = IRP_MJ_DIRECTORY_CONTROL /\
   MinorFunction irp = IRP_MN_QUERY_DIRECTORY) ->
  files w !! FileId irp = None ->
  exists rc w',
    drive_process_irp drive irp w = (rc, w') /\
    files w' = files w /\
    id_sequence w' = id_sequence w /\
    (hostcalls w' = hostcalls w \/
     hostcalls w' = hostcalls w ++ [call_heap_grow]) /\
    (calls w' = calls w \/
     exists irp',
       calls w' = calls w ++ [Complete irp'] /\
       IoStatus irp' = STATUS_UNSUCCESSFUL).
Proof.
  intros Hd Hmj Hnone.
  match goal with
  | |- exists rc w', ?m = (rc, w') /\ _ =>
      exists (fst m), (snd m); split; [destruct m; reflexivity|]
  end.
  cbn [distinct fresh major_labels] in Hd. split_distinct Hd.
  unfold drive_process_irp. cbv zeta. cbn [MajorFunction set_IoStatus].
  destruct Hmj as [E|[E|[E|[E|[E|[E Emn]]]]]]; rewrite E; decide_labels;
    [ unfold drive_process_irp_read
    | unfold drive_process_irp_write, Stream_SafeSeek
    | unfold drive_process_irp_query_information
    | unfold drive_process_irp_set_information
    | unfold drive_process_irp_close
    | unfold drive_process_irp_directory_control;
      cbn [MinorFunction set_IoStatus]; rewrite Emn, Z.eqb_refl;
      unfold drive_process_irp_query_directory ].
  all: open_handler; cbn [FileId set_IoStatus set_input]; rewrite ?Hnone.
  all: exec; try congruence; try impossible.
  all: repeat split; auto;
    right; eexists; split; reflexivity.
Qed.

(** *** The table and the id sequence *)

(** What one IRP does to the table and to the id sequence. *)
Lemma table_step (drive : DRIVE_DEVICE) (irp : IRP) (w : World) :
  IRP_MJ_CREATE <> IRP_MJ_CLOSE ->
  let w' := snd (drive_process_irp drive irp w) in
  (MajorFunction irp <> IRP_MJ_CREATE -> id_sequence w' = id_sequence w) /\
  (MajorFunction irp <> IRP_MJ_CREATE -> MajorFunction irp <> IRP_MJ_CLOSE ->
   files w' = files w) /\
  (MajorFunction irp = IRP_MJ_CLOSE ->
   files w' = delete (FileId irp) (files w)) /\
  (MajorFunction irp = IRP_MJ_CREATE ->
   (files w' = files w \/
    exists f, files w !! file_id f = None /\
              files w' = <[file_id f := f]> (files w)) /\
   (id_sequence w' = id_sequence w \/
    id_sequence w' = (id_sequence w + 1) mod 2 ^ 32)).
Proof.
  intros Hcc. cbv zeta.
  unfold drive_process_irp. cbv zeta. cbn [MajorFunction set_IoStatus].
  repeat match goal with
    | |- context [MajorFunction irp =? ?c] =>
        destruct (Z.eqb_spec (MajorFunction irp) c)
    end.
  - unfold drive_process_irp_create. open_handler. exec.
    all: repeat split; intros; try congruence; auto.
    all: try (right; eexists; split; [eassumption | reflexivity]).
  - unfold drive_process_irp_close. open_handler. exec.
    all: repeat split; intros; try congruence; auto.
    all: symmetry; apply delete_id; assumption.
  - unfold drive_process_irp_read. open_handler. exec.
    all: repeat split; intros; congruence.
  - unfold drive_process_irp_write, Stream_SafeSeek. open_handler. exec.
    all: repeat split; intros; congruence.
  - unfold drive_process_irp_query_information. open_handler. exec.
    all: repeat split; intros; congruence.
  - unfold drive_process_irp_set_information. open_handler. exec.
    all: repeat split; intros; congruence.
  - unfold drive_process_irp_query_volume_information. cbv zeta.
    rewrite volume_label_fits, disk_type_fits. open_handler. exec.
    all: repeat split; intros; congruence.
  - unfold drive_process_irp_silent_ignore. open_handler. exec.
    all: repeat split; intros; congruence.
  - unfold drive_process_irp_directory_control,
      drive_process_irp_query_directory. open_handler. exec.
    all: repeat split; intros; congruence.
  - unfold drive_process_irp_device_control. open_handler. exec.
    all: repeat split; intros; congruence.
  - open_handler. exec.
    all: repeat split; intros; congruence.
Qed.

(** X9. The table and the id sequence change only through Create and
    Close.  An IRP of any other major function leaves both as they are; a
    Close removes the entry of its FileId and nothing else; a Create
    inserts at most one file, under the file's own id and only if that id
    is free, and advances the id sequence by at most one (modulo 2^32). *)
Theorem table_changes_only_by_create_and_close
    (drive : DRIVE_DEVICE) (irp : IRP) (w : World) :
  IRP_MJ_CREATE <> IRP_MJ_CLOSE ->
  exists rc w',
    drive_process_irp drive irp w = (rc, w') /\
    (MajorFunction irp <> IRP_MJ_CREATE -> id_sequence w' = id_sequence w) /\
    (MajorFunction irp <> IRP_MJ_CREATE -> MajorFunction irp <> IRP_MJ_CLOSE ->
     files w' = files w) /\
    (MajorFunction irp = IRP_MJ_CLOSE ->
     files w' = delete (FileId irp) (files w)) /\
    (MajorFunction irp = IRP_MJ_CREATE ->
     (files w' = files w \/
      exists f, files w !! file_id f = None /\
                files w' = <[file_id f := f]> (files w)) /\
     (id_sequence w' = id_sequence w \/
      id_sequence w' = (id_sequence w + 1) mod 2 ^ 32)).
Proof.
  intros Hcc. pose proof (table_step drive irp w Hcc) as Hstep.
  cbv zeta in Hstep.
  destruct (drive_process_irp drive irp w) as [rc w'].
  exists rc, w'. split; [reflexivity | exact Hstep].
Qed.

Lemma table_keyed_step (drive : DRIVE_DEVICE) (irp : IRP) (w : World) :
  IRP_MJ_CREATE <> IRP_MJ_CLOSE ->
  table_keyed (files w) ->
  table_keyed (files (snd (drive_process_irp drive irp w))).
Proof.
  intros Hcc Hkeyed.
  destruct (table_step drive irp w Hcc) as (_ & Hother & Hclose & Hcreate).
  destruct (Z.eq_dec (MajorFunction irp) IRP_MJ_CREATE) as [Ecr|Ncr].
  - destruct (Hcreate Ecr) as [[-> | (f & Hfree & ->)] _]; [exact Hkeyed|].
    intros k g Hk. apply lookup_insert_Some in Hk as [[<- <-] | [_ Hk]];
      [reflexivity | exact (Hkeyed k g Hk)].
  - destruct (Z.eq_dec (MajorFunction irp) IRP_MJ_CLOSE) as [Ecl|Ncl].
    + rewrite (Hclose Ecl). intros k g Hk.
      apply lookup_delete_Some in Hk as [_ Hk]. exact (Hkeyed k g Hk).
    + rewrite (Hother Ncr Ncl). exact Hkeyed.
Qed.

(** X10. If every key of the table is the id of the file stored under it,
    this is still so after any sequence of IRPs; it holds in particular
    from the empty table on. *)
Theorem table_keys_are_file_ids
    (drive : DRIVE_DEVICE) (irps : list IRP) (w : World) :
  IRP_MJ_CREATE <> IRP_MJ_CLOSE ->
  table_keyed (files w) ->
  table_keyed (files (snd (drive_process_irps drive irps w))).
Proof.
  intros Hcc. revert w. induction irps as [|irp irps IH]; intros w Hkeyed.
  - exact Hkeyed.
  - cbn [drive_process_irps]. unfold bind at 1.
    pose proof (table_keyed_step drive irp w Hcc Hkeyed) as Hstep.
    destruct (drive_process_irp drive irp w) as [rc w1]. cbn [snd] in Hstep.
    unfold bind. specialize (IH w1 Hstep).
    destruct (drive_process_irps drive irps w1) as [rcs w2].
    exact IH.
Qed.

(** *** Discarded IRPs *)

(** A trace that grew by a completion, or not at all, did not grow by a
    discard. *)
Ltac not_discarded E :=
  first
    [ apply app_inv_head in E; discriminate E
    | apply (f_equal length) in E; rewrite length_app in E; cbn in E; lia ].

Lemma dispatch_directory_control (drive : DRIVE_DEVICE) (irp : IRP) :
  distinct major_labels = true ->
  MajorFunction irp = IRP_MJ_DIRECTORY_CONTROL ->
  drive_process_irp drive irp =
    drive_process_irp_directory_control drive (set_IoStatus STATUS_SUCCESS irp).
Proof.
  intros Hd E. cbn [distinct fresh major_labels] in Hd. split_distinct Hd.
  unfold drive_process_irp. cbn [MajorFunction set_IoStatus].
  rewrite E. now decide_labels.
Qed.

(** X11. The dispatcher discards an IRP exactly when it is an
    IRP_MJ_DIRECTORY_CONTROL with minor function
    IRP_MN_NOTIFY_CHANGE_DIRECTORY; no other IRP, whatever its input and
    whatever the host answers, is ever discarded.  The discarded IRP has
    nothing written to its response and costs no host operation, no table
    change and no log entry. *)
Theorem discard_only_for_notify_change
    (drive : DRIVE_DEVICE) (irp : IRP) (w : World) :
  distinct major_labels = true ->
  IRP_MN_QUERY_DIRECTORY <> IRP_MN_NOTIFY_CHANGE_DIRECTORY ->
  exists rc w',
    drive_process_irp drive irp w = (rc, w') /\
    ((exists irp', calls w' = calls w ++ [Discard irp']) <->
     (MajorFunction irp = IRP_MJ_DIRECTORY_CONTROL /\
      MinorFunction irp = IRP_MN_NOTIFY_CHANGE_DIRECTORY)) /\
    (MajorFunction irp = IRP_MJ_DIRECTORY_CONTROL ->
     MinorFunction irp = IRP_MN_NOTIFY_CHANGE_DIRECTORY ->
     calls w' = calls w ++ [Discard (set_IoStatus STATUS_SUCCESS irp)] /\
     hostcalls w' = hostcalls w /\ files w' = files w /\ log w' = log w).
Proof.
  intros Hd Hmn.
  match goal with
  | |- exists rc w', ?m = (rc, w') /\ _ =>
      exists (fst m), (snd m); split; [destruct m; reflexivity|]
  end.
  assert (Hnotify :
    MajorFunction irp = IRP_MJ_DIRECTORY_CONTROL ->
    MinorFunction irp = IRP_MN_NOTIFY_CHANGE_DIRECTORY ->
    let w' := snd (drive_process_irp drive irp w) in
    calls w' = calls w ++ [Discard (set_IoStatus STATUS_SUCCESS irp)] /\
    hostcalls w' = hostcalls w /\ files w' = files w /\ log w' = log w).
  { intros Emj Emn. rewrite dispatch_directory_control by assumption.
    unfold drive_process_irp_directory_control.
    cbn [MinorFunction set_IoStatus]. rewrite Emn.
    rewrite (proj2 (Z.eqb_neq _ _) (not_eq_sym Hmn)), Z.eqb_refl.
    open_handler. exec. repeat split. }
  split; [split|exact Hnotify].
  2:{ intros [Emj Emn]. eexists. apply (Hnotify Emj Emn). }
  clear Hnotify. intros [irp' Hdisc]. revert Hdisc.
  unfold drive_process_irp. cbv zeta. cbn [MajorFunction set_IoStatus].
  repeat match goal with
    | |- context [MajorFunction irp =? ?c] =>
        destruct (Z.eqb_spec (MajorFunction irp) c)
    end.
  - unfold drive_process_irp_create. open_handler. exec.
    all: intros Hdisc; not_discarded Hdisc.
  - unfold drive_process_irp_close. open_handler. exec.
    all: intros Hdisc; not_discarded Hdisc.
  - unfold drive_process_irp_read. open_handler. exec.
    all: intros Hdisc; not_discarded Hdisc.
  - unfold drive_process_irp_write, Stream_SafeSeek. open_handler. exec.
    all: intros Hdisc; not_discarded Hdisc.
  - unfold drive_process_irp_query_information. open_handler. exec.
    all: intros Hdisc; not_discarded Hdisc.
  - unfold drive_process_irp_set_information. open_handler. exec.
    all: intros Hdisc; not_discarded Hdisc.
  - unfold drive_process_irp_query_volume_information. cbv zeta.
    rewrite volume_label_fits, disk_type_fits. open_handler. exec.
    all: intros Hdisc; not_discarded Hdisc.
  - unfold drive_process_irp_silent_ignore. open_handler. exec.
    all: intros Hdisc; not_discarded Hdisc.
  - unfold drive_process_irp_directory_control.
    cbn [MinorFunction set_IoStatus].
    destruct (Z.eqb_spec (MinorFunction irp) IRP_MN_QUERY_DIRECTORY).
    + unfold drive_process_irp_query_directory. open_handler. exec.
      all: intros Hdisc; not_discarded Hdisc.
    + destruct (Z.eqb_spec (MinorFunction irp) IRP_MN_NOTIFY_CHANGE_DIRECTORY);
        [intros _; split; assumption|].
      open_handler. exec. all: intros Hdisc; not_discarded Hdisc.
  - unfold drive_process_irp_device_control. open_handler. exec.
    all: intros Hdisc; not_discarded Hdisc.
  - open_handler. exec. all: intros Hdisc; not_discarded Hdisc.
Qed.

(** *** SetInformation and the answers for unknown FileIds *)

Lemma dispatch_set_information (drive : DRIVE_DEVICE) (irp : IRP) :
  distinct major_labels = true ->
  MajorFunction irp = IRP_MJ_SET_INFORMATION ->
  drive_process_irp drive irp =
    drive_process_irp_set_information drive (set_IoStatus STATUS_SUCCESS irp).
Proof.
  intros Hd E. cbn [distinct fresh major_labels] in Hd. split_distinct Hd.
  unfold drive_process_irp. cbn [MajorFunction set_IoStatus].
  rewrite E. now decide_labels.
Qed.

(** X12. A SetInformation IRP with a well-formed fixed part is always
    completed, and its body is the Length field of the request echoed
    back, whether the file is unknown (STATUS_UNSUCCESSFUL, the host is
    not touched), the host operation fails (the mapped last error) or
    succeeds (STATUS_SUCCESS).  The host operation gets the class, the
    Length and the bytes after the 24 bytes of padding. *)
Theorem set_information_echoes_length
    (drive : DRIVE_DEVICE) (irp : IRP) (w : World)
    (FsInformationClass Length : Z) (padding body : list byte) :
  distinct major_labels = true ->
  MajorFunction irp = IRP_MJ_SET_INFORMATION ->
  uint32 FsInformationClass -> uint32 Length ->
  length padding = 24%nat ->
  input irp = set_information_request FsInformationClass Length padding body ->
  exists rc w',
    drive_process_irp drive irp w = (rc, w') /\
    exists irp',
      calls w' = calls w ++ [Complete irp'] /\
      buffer (output irp') = buffer (output irp) ++ le_bytes 4 Length /\
      (files w !! FileId irp = None ->
       IoStatus irp' = STATUS_UNSUCCESSFUL /\ hostcalls w' = hostcalls w) /\
      (forall file h1,
         files w !! FileId irp = Some file ->
         drive_file_set_information file FsInformationClass Length body (host w)
           = (true, h1) ->
         IoStatus irp' = STATUS_SUCCESS /\
         hostcalls w' = hostcalls w ++ [call_drive_file_set_information]) /\
      (forall file h1,
         files w !! FileId irp = Some file ->
         drive_file_set_information file FsInformationClass Length body (host w)
           = (false, h1) ->
         (forall w0,
            IoStatus irp' = fst (drive_map_windows_err (GetLastError h1) w0)) /\
         hostcalls w' = hostcalls w ++ [call_drive_file_set_information]).
Proof.
  intros Hd Hmj HC HL Hpad Hin.
  match goal with
  | |- exists rc w', ?m = (rc, w') /\ _ =>
      exists (fst m), (snd m); split; [destruct m; reflexivity|]
  end.
  rewrite dispatch_set_information by assumption.
  unfold drive_process_irp_set_information. cbn [input set_IoStatus].
  rewrite Hin. unfold set_information_request.
  rewrite Stream_Check_ok by (rewrite !length_app, !length_le_bytes; lia).
  cbn [negb]. rewrite !Stream_Get_UINT32_le by assumption.
  unfold Stream_Seek.
  rewrite (drop_app_length' _ _ (Z.to_nat 24)) by (rewrite Hpad; reflexivity).
  open_handler. exec.
  all: eexists; split; [reflexivity|]; irp_simpl; split; [reflexivity|].
  all: repeat split; intros; simplify_eq; agree; simplify_eq; try reflexivity;
    try apply drive_map_windows_err_fst.
Qed.

(** X13. What an IRP naming a FileId absent from the table is answered
    with, whenever it is answered, whatever its input: a Read with one
    32-bit zero, a Write with a 32-bit zero and a zero byte, a
    QueryDirectory with one 32-bit zero, a Close with five zero bytes, and
    a QueryInformation with nothing at all. *)
Theorem unknown_file_bodies (drive : DRIVE_DEVICE) (irp : IRP) (w : World) :
  distinct major_labels = true ->
  files w !! FileId irp = None ->
  exists rc w',
    drive_process_irp drive irp w = (rc, w') /\
    forall irp',
      calls w' = calls w ++ [Complete irp'] ->
      let body := buffer (output irp') in
      (MajorFunction irp = IRP_MJ_READ ->
       body = buffer (output irp) ++ le_bytes 4 0) /\
      (MajorFunction irp = IRP_MJ_WRITE ->
       body = buffer (output irp) ++ le_bytes 4 0 ++ le_bytes 1 0) /\
      (MajorFunction irp = IRP_MJ_QUERY_INFORMATION ->
       body = buffer (output irp)) /\
      (MajorFunction irp = IRP_MJ_DIRECTORY_CONTROL ->
       MinorFunction irp = IRP_MN_QUERY_DIRECTORY ->
       body = buffer (output irp) ++ le_bytes 4 0) /\
      (MajorFunction irp = IRP_MJ_CLOSE ->
       body = buffer (output irp) ++ [x00; x00; x00; x00; x00]).
Proof.
  intros Hd Hnone.
  match goal with
  | |- exists rc w', ?m = (rc, w') /\ _ =>
      exists (fst m), (snd m); split; [destruct m; reflexivity|]
  end.
  cbn [distinct fresh major_labels] in Hd. split_distinct Hd.
  intros irp' Hdone. cbv zeta.
  repeat match goal with |- _ /\ _ => split end.
  all: intros E; revert Hdone;
    unfold drive_process_irp; cbv zeta; cbn [MajorFunction set_IoStatus];
    rewrite E; decide_labels.
  - unfold drive_process_irp_read. open_handler.
    cbn [FileId set_IoStatus set_input]. rewrite ?Hnone.
    exec; try congruence; try impossible; intros Hdone;
      first [ apply app_inv_head in Hdone; injection Hdone as <-; reflexivity
            | apply (f_equal length) in Hdone; rewrite length_app in Hdone;
              cbn in Hdone; lia ].
  - unfold drive_process_irp_write, Stream_SafeSeek. open_handler.
    cbn [FileId set_IoStatus set_input]. rewrite ?Hnone.
    exec; try congruence; try impossible; intros Hdone;
      first [ apply app_inv_head in Hdone; injection Hdone as <-;
              irp_simpl; now rewrite <- !app_assoc
            | apply (f_equal length) in Hdone; rewrite length_app in Hdone;
              cbn in Hdone; lia ].
  - unfold drive_process_irp_query_information. open_handler.
    cbn [FileId set_IoStatus set_input]. rewrite ?Hnone.
    exec; try congruence; try impossible; intros Hdone;
      first [ apply app_inv_head in Hdone; injection Hdone as <-; reflexivity
            | apply (f_equal length) in Hdone; rewrite length_app in Hdone;
              cbn in Hdone; lia ].
  - intros Hdone Emn. revert Hdone.
    unfold drive_process_irp_directory_control.
    cbn [MinorFunction set_IoStatus]. rewrite Emn, Z.eqb_refl.
    unfold drive_process_irp_query_directory. open_handler.
    cbn [FileId set_IoStatus set_input]. rewrite ?Hnone.
    exec; try congruence; try impossible; intros Hdone;
      first [ apply app_inv_head in Hdone; injection Hdone as <-; reflexivity
            | apply (f_equal length) in Hdone; rewrite length_app in Hdone;
              cbn in Hdone; lia ].
  - unfold drive_process_irp_close. open_handler.
    cbn [FileId set_IoStatus set_input]. rewrite ?Hnone.
    exec; try congruence; try impossible; intros Hdone;
      first [ apply app_inv_head in Hdone; injection Hdone as <-; reflexivity
            | apply (f_equal length) in Hdone; rewrite length_app in Hdone;
              cbn in Hdone; lia ].
Qed.

(** *** The worker and the queue *)

Lemma drive_process_irps_cons (drive : DRIVE_DEVICE) (irp : IRP)
    (irps : list IRP) (w : World) :
  drive_process_irps drive (irp :: irps) w =
    (fst (drive_process_irp drive irp w)
       :: fst (drive_process_irps drive irps (snd (drive_process_irp drive irp w))),
     snd (drive_process_irps drive irps (snd (drive_process_irp drive irp w)))).
Proof.
  cbn [drive_process_irps]. unfold bind, ret.
  destruct (drive_process_irp drive irp w) as [rc w1]. cbn [fst snd].
  destruct (drive_process_irps drive irps w1) as [rcs w2]. reflexivity.
Qed.

Lemma drive_thread_loop_message (drive : DRIVE_DEVICE) (irp : IRP)
    (queue : list QueueStep) (w : World) :
  WMQ_QUIT <> 0 ->
  drive_thread_loop drive (Message 0 (Some irp) :: queue) w =
    let rc := fst (drive_process_irp drive irp w) in
    let w1 := snd (drive_process_irp drive irp w) in
    if rc =? 0 then drive_thread_loop drive queue w1
    else (Some CHANNEL_RC_OK, snd (WLog (drive_process_irp_failed rc) w1)).
Proof.
  intros Hq. cbn [drive_thread_loop].
  rewrite (proj2 (Z.eqb_neq 0 WMQ_QUIT) (not_eq_sym Hq)).
  unfold drive_poll_run. cbv [bind ret].
  destruct (drive_process_irp drive irp w) as [rc w1]. cbn [fst snd].
  destruct (rc =? 0); reflexivity.
Qed.

(** The worker on a queue of IRP messages whose dispatches all return 0. *)
Lemma drive_thread_loop_all_dispatched
    (drive : DRIVE_DEVICE) (irps : list IRP) (w : World) :
  WMQ_QUIT <> 0 ->
  Forall (fun rc => rc = 0) (fst (drive_process_irps drive irps w)) ->
  drive_thread_loop drive (map (fun irp => Message 0 (Some irp)) irps) w
    = (None, snd (drive_process_irps drive irps w)).
Proof.
  intros Hq. revert w. induction irps as [|irp irps IH]; intros w.
  - reflexivity.
  - rewrite drive_process_irps_cons. cbn [fst snd map].
    intros Hall. apply Forall_cons_1 in Hall as [Hrc Hall].
    rewrite drive_thread_loop_message by exact Hq. cbv zeta.
    rewrite Hrc. cbn [Z.eqb]. now apply IH.
Qed.

(** X14. The worker dispatches the queued IRPs in queue order.  On a queue
    of IRP messages (id 0) whose dispatches all return 0, the worker leaves
    the world exactly as dispatching the IRPs one after the other does,
    and then waits for more.  If the dispatch of one IRP returns a
    non-zero code, the worker has dispatched the IRPs before it and that
    one, logs the code and leaves the loop; whatever is queued behind is
    not touched. *)
Theorem worker_dispatches_in_order
    (drive : DRIVE_DEVICE) (irps : list IRP) (w : World) :
  WMQ_QUIT <> 0 ->
  (Forall (fun rc => rc = 0) (fst (drive_process_irps drive irps w)) ->
   drive_thread_loop drive (map (fun irp => Message 0 (Some irp)) irps) w
     = (None, snd (drive_process_irps drive irps w))) /\
  (forall bad behind,
     Forall (fun rc => rc = 0) (fst (drive_process_irps drive irps w)) ->
     let w1 := snd (drive_process_irps drive irps w) in
     let rc := fst (drive_process_irp drive bad w1) in
     let w2 := snd (drive_process_irp drive bad w1) in
     rc <> 0 ->
     drive_thread_loop drive
       (map (fun irp => Message 0 (Some irp)) irps
          ++ Message 0 (Some bad) :: behind) w
       = (Some CHANNEL_RC_OK, snd (WLog (drive_process_irp_failed rc) w2))).
Proof.
  intros Hq. revert w. induction irps as [|irp irps IH]; intros w.
  - split; [reflexivity|].
    intros bad behind _. cbn [drive_process_irps]. unfold ret. cbn [fst snd].
    cbv zeta. intros Hrc. cbn [map app].
    rewrite drive_thread_loop_message by exact Hq. cbv zeta.
    apply Z.eqb_neq in Hrc. now rewrite Hrc.
  - rewrite drive_process_irps_cons. cbn [fst snd map app].
    split.
    + intros Hall. apply Forall_cons_1 in Hall as [Hrc Hall].
      rewrite drive_thread_loop_message by exact Hq. cbv zeta.
      rewrite Hrc. cbn [Z.eqb]. now apply IH.
    + intros bad behind Hall. apply Forall_cons_1 in Hall as [Hrc Hall].
      cbv zeta. intros Hbad.
      rewrite drive_thread_loop_message by exact Hq. cbv zeta.
      rewrite Hrc. cbn [Z.eqb]. now apply IH.
Qed.

(** *** The device: requests *)

(** The dispatcher reads the path and the automount flag of the drive,
    never its mode. *)
Lemma drive_process_irp_mode_free (d1 d2 : DRIVE_DEVICE) (irp : IRP) :
  path d1 = path d2 -> automount d1 = automount d2 ->
  rdpcontext d1 = rdpcontext d2 ->
  drive_process_irp d1 irp = drive_process_irp d2 irp.
Proof.
  destruct d1, d2. cbn [path automount rdpcontext]. intros -> -> ->.
  reflexivity.
Qed.

Lemma drive_process_irps_mode_free (d1 d2 : DRIVE_DEVICE) (irps : list IRP) :
  path d1 = path d2 -> automount d1 = automount d2 ->
  rdpcontext d1 = rdpcontext d2 ->
  drive_process_irps d1 irps = drive_process_irps d2 irps.
Proof.
  intros Hp Ha Hr. induction irps as [|irp irps IH]; [reflexivity|].
  cbn [drive_process_irps].
  now rewrite IH, (drive_process_irp_mode_free d1 d2 irp Hp Ha Hr).
Qed.

(** Synchronous requests whose dispatches all return 0. *)
Lemma drive_irp_requests_synchronous
    (drive : DRIVE_DEVICE) (irps : list IRP) (ch : Channel) :
  async drive = false ->
  Forall (fun rc => rc = 0) (fst (drive_process_irps drive irps (world ch))) ->
  drive_irp_requests drive irps ch
    = (map (fun _ => CHANNEL_RC_OK) irps,
       {| world := snd (drive_process_irps drive irps (world ch));
          IrpQueue := IrpQueue ch; device_log := device_log ch |}).
Proof.
  intros Hs. revert ch. induction irps as [|irp irps IH]; intros ch.
  - intros _. now destruct ch.
  - rewrite drive_process_irps_cons. cbn [fst snd map].
    intros Hall. apply Forall_cons_1 in Hall as [Hrc Hall].
    cbn [drive_irp_requests]. unfold drive_irp_request at 1.
    rewrite Hs. unfold drive_poll_run, bind.
    destruct (drive_process_irp drive irp (world ch)) as [rc w1] eqn:E.
    cbn [fst snd] in Hrc, Hall. subst rc. cbn [Z.eqb negb]. unfold ret.
    cbn [negb].
    rewrite (IH {| world := w1; IrpQueue := IrpQueue ch;
                   device_log := device_log ch |}) by exact Hall.
    reflexivity.
Qed.

(** Asynchronous requests are only queued. *)
Lemma drive_irp_requests_asynchronous
    (drive : DRIVE_DEVICE) (irps : list IRP) (ch : Channel) :
  async drive = true ->
  drive_irp_requests drive irps ch
    = (map (fun _ => CHANNEL_RC_OK) irps,
       {| world := world ch;
          IrpQueue := IrpQueue ch ++ map (fun irp => (0, Some irp)) irps;
          device_log := device_log ch |}).
Proof.
  intros Ha. revert ch. induction irps as [|irp irps IH]; intros ch.
  - cbn [drive_irp_requests map]. rewrite app_nil_r. now destruct ch.
  - cbn [drive_irp_requests]. unfold drive_irp_request at 1.
    rewrite Ha. cbn [negb]. rewrite IH.
    cbn [world IrpQueue device_log map].
    now rewrite <- app_assoc.
Qed.

(** X15. A request in synchronous mode.  The request is dispatched on the
    caller's thread, the queue and the device log are not touched and the
    answer of MessageQueue_Post plays no part.  The return code is
    CHANNEL_RC_OK exactly when the dispatcher returned 0, and then the
    world is the dispatcher's; otherwise it is ERROR_INTERNAL_ERROR
    whatever the dispatcher's code was, that code is logged and is not
    returned.  In both cases at most one callback of the IRP has been
    invoked. *)
Theorem synchronous_request
    (drive : DRIVE_DEVICE) (irp : IRP) (posted : bool) (ch : Channel) :
  async drive = false ->
  CHANNEL_RC_OK <> ERROR_INTERNAL_ERROR ->
  exists rc ch' e w1,
    drive_irp_request drive irp posted ch = (rc, ch') /\
    drive_process_irp drive irp (world ch) = (e, w1) /\
    IrpQueue ch' = IrpQueue ch /\ device_log ch' = device_log ch /\
    (rc = CHANNEL_RC_OK <-> e = 0) /\
    (e = 0 -> world ch' = w1) /\
    (e <> 0 ->
       rc = ERROR_INTERNAL_ERROR /\ same_but_log w1 (world ch') /\
       log (world ch') = log w1 ++ [drive_process_irp_failed e]) /\
    (calls (world ch') = calls (world ch) \/
     exists c, calls (world ch') = calls (world ch) ++ [c]).
Proof.
  intros Hs Hne.
  pose proof (drive_process_irp_once drive irp (world ch)) as Hone.
  cbv zeta in Hone.
  unfold drive_irp_request. rewrite Hs. unfold drive_poll_run, bind.
  destruct (drive_process_irp drive irp (world ch)) as [e w1] eqn:E.
  cbn [fst snd] in Hone.
  assert (Hcalls : calls w1 = calls (world ch) \/
                   exists c, calls w1 = calls (world ch) ++ [c]).
  { destruct Hone as [(i & h & Hc & _) | [(i & h & Hc & _) | (Hc & _)]];
      [right; now exists (Complete i) | right; now exists (Discard i)
      | now left]. }
  destruct (e =? 0) eqn:Ee; cbn [negb]; unfold WLog, ret; cbn [fst snd].
  - apply Z.eqb_eq in Ee.
    eexists _, _, e, w1. split; [reflexivity|].
    cbn [world IrpQueue device_log].
    split; [reflexivity|]. split; [reflexivity|]. split; [reflexivity|].
    split; [tauto|]. split; [reflexivity|]. split; [tauto | exact Hcalls].
  - apply Z.eqb_neq in Ee.
    eexists _, _, e, w1. split; [reflexivity|].
    cbn [world IrpQueue device_log host hostcalls files id_sequence calls
         log channel_error].
    split; [reflexivity|]. split; [reflexivity|]. split; [reflexivity|].
    split; [split; [intros Hrc; now destruct Hne | tauto]|].
    split; [tauto|]. split; [|exact Hcalls].
    intros _. split; [reflexivity|]. split; [|reflexivity].
    unfold same_but_log.
    cbn [host hostcalls files id_sequence calls channel_error]. tauto.
Qed.

(** X16. Posting and the worker compose to sequential dispatch.  In
    asynchronous mode every request whose post succeeds returns
    CHANNEL_RC_OK, leaves the world alone and is appended to the queue
    with message id 0.  When the worker then takes the messages of a queue
    that was empty before, and every dispatch returns 0, it ends in the
    world of the sequential dispatch of the same requests in the order
    they were handed over, and waits for more. *)
Theorem asynchronous_requests_then_worker
    (drive : DRIVE_DEVICE) (irps : list IRP) (ch : Channel) :
  async drive = true ->
  WMQ_QUIT <> 0 ->
  exists ch',
    drive_irp_requests drive irps ch
      = (map (fun _ => CHANNEL_RC_OK) irps, ch') /\
    world ch' = world ch /\
    device_log ch' = device_log ch /\
    IrpQueue ch' = IrpQueue ch ++ map (fun irp => (0, Some irp)) irps /\
    (IrpQueue ch = [] ->
     Forall (fun rc => rc = 0)
       (fst (drive_process_irps drive irps (world ch))) ->
     drive_thread_loop drive (queue_steps (IrpQueue ch')) (world ch')
       = (None, snd (drive_process_irps drive irps (world ch)))).
Proof.
  intros Ha Hq. eexists. split.
  - apply drive_irp_requests_asynchronous. exact Ha.
  - cbn [world IrpQueue device_log]. repeat split.
    intros -> Hall. cbn [app]. unfold queue_steps. rewrite map_map.
    cbn [fst snd].
    now apply drive_thread_loop_all_dispatched.
Qed.

(** X17. The two modes agree.  For two drives that differ in the mode
    only, and requests whose dispatches all return 0, handing the requests
    to the synchronous drive leaves the world the worker of the
    asynchronous drive ends in after the same requests were posted to its
    empty queue; both return CHANNEL_RC_OK for every request. *)
Theorem modes_agree
    (d_sync d_async : DRIVE_DEVICE) (irps : list IRP) (ch : Channel) :
  async d_sync = false -> async d_async = true ->
  path d_sync = path d_async -> automount d_sync = automount d_async ->
  rdpcontext d_sync = rdpcontext d_async ->
  WMQ_QUIT <> 0 ->
  IrpQueue ch = [] ->
  Forall (fun rc => rc = 0) (fst (drive_process_irps d_sync irps (world ch))) ->
  let (rcs_sync, ch_sync) := drive_irp_requests d_sync irps ch in
  let (rcs_async, ch_async) := drive_irp_requests d_async irps ch in
  rcs_sync = rcs_async /\
  Forall (fun rc => rc = CHANNEL_RC_OK) rcs_sync /\
  drive_thread_loop d_async (queue_steps (IrpQueue ch_async)) (world ch_async)
    = (None, world ch_sync).
Proof.
  intros Hs Ha Hp Hm Hr Hq Hempty Hall.
  rewrite (drive_irp_requests_synchronous d_sync irps ch Hs Hall).
  rewrite (drive_irp_requests_asynchronous d_async irps ch Ha).
  cbn [world IrpQueue]. rewrite Hempty. cbn [app].
  split; [reflexivity|]. split.
  - clear. induction irps; cbn [map]; constructor; auto.
  - unfold queue_steps. rewrite map_map. cbn [fst snd].
    rewrite (drive_process_irps_mode_free d_sync d_async irps Hp Hm Hr) in Hall |- *.
    now apply drive_thread_loop_all_dispatched.
Qed.

(** *** The device: registration *)



(** X19. The length of the root path.  For a path that is not empty the
    number of bytes converted is at least 1 and at most the length of the
    path and MAX_PATH; it is the length up to MAX_PATH or one less, and one
    less exactly when more than one byte is counted and the last byte
    counted is a slash.  So a lone slash is kept, and of several trailing
    slashes one is removed. *)
Theorem root_path_length_bounds (path : list byte) :
  nonempty path = true ->
  1 <= MAX_PATH ->
  let n := root_path_length path in
  let counted := Z.min (Z.of_nat (length path)) MAX_PATH in
  1 <= n <= counted /\
  (n = counted \/ n = counted - 1) /\
  (n = counted - 1 <->
   1 < counted /\ path !! Z.to_nat (counted - 1) = Some x2f) /\
  (Z.of_nat (length path) <= MAX_PATH -> last path = Some x2f ->
   1 < Z.of_nat (length path) ->
   take (Z.to_nat n) path ++ [x2f] = path).
Proof.
  intros Hne Hmax. cbv zeta. unfold root_path_length, strnlen.
  set (counted := Z.min (Z.of_nat (length path)) MAX_PATH).
  assert (Hlen : 1 <= Z.of_nat (length path)).
  { destruct path; [discriminate Hne | cbn; lia]. }
  assert (Hc : 1 <= counted) by (unfold counted; lia).
  assert (Hslash : forall c, Byte.eqb c x2f = true -> c = x2f)
    by (intros c; apply Byte.byte_dec_bl).
  destruct (counted >? 1) eqn:Egt; cbn [andb].
  - apply Z.gtb_lt in Egt.
    destruct (path !! Z.to_nat (counted - 1)) as [c|] eqn:El.
    + destruct (Byte.eqb c x2f) eqn:Ec.
      * apply Hslash in Ec. subst c.
        split; [lia|]. split; [now right|]. split; [tauto|].
        intros Hfit Hlast Hlong.
        assert (Ecounted : counted = Z.of_nat (length path))
          by (unfold counted; lia).
        rewrite Ecounted.
        replace (Z.to_nat (Z.of_nat (length path) - 1))
          with (length path - 1)%nat by lia.
        destruct (exists_last (l := path)) as (l' & a & ->).
        { destruct path; [discriminate Hne | discriminate]. }
        rewrite last_snoc in Hlast. injection Hlast as ->.
        rewrite length_app. cbn [length].
        replace (length l' + 1 - 1)%nat with (length l') by lia.
        now rewrite take_app_length.
      * split; [lia|]. split; [now left|]. split.
        -- split; [lia|]. intros [_ E]. injection E as ->.
           discriminate Ec.
        -- intros Hfit Hlast Hlong.
           assert (Ecounted : counted = Z.of_nat (length path))
             by (unfold counted; lia).
           rewrite Ecounted in El.
           replace (Z.to_nat (Z.of_nat (length path) - 1))
             with (length path - 1)%nat in El by lia.
           rewrite last_lookup in Hlast.
           replace (Init.Nat.pred (length path)) with (length path - 1)%nat
             in Hlast by lia.
           rewrite El in Hlast. injection Hlast as ->. discriminate Ec.
    + split; [lia|]. split; [now left|]. split.
      * split; [lia|]. intros [_ E]. discriminate E.
      * intros Hfit Hlast Hlong.
        apply lookup_ge_None in El. unfold counted in *. lia.
  - assert (Egt' : counted <= 1)
      by (destruct (Z.gtb_spec counted 1); [discriminate | lia]).
    split; [lia|]. split; [now left|]. split.
    + split; [lia|]. intros [? _]. lia.
    + intros Hfit Hlast Hlong. unfold counted in *. lia.
Qed.

(** Take [drive_register_drive_path] apart along its tests. *)
Ltac register_cases P name path :=
  unfold drive_register_drive_path; cbv zeta;
  destruct (nonempty name && nonempty path) eqn:Enp;
  [ destruct (calloc P) eqn:Ecalloc; cbn [negb];
    [ destruct (Stream_New P) eqn:Estream; cbn [negb];
      [ destruct (Stream_BufferAs P) eqn:Ebuf; cbn [negb];
        [ destruct (ConvertUtf8NToWCharAlloc P
                      (take (Z.to_nat (root_path_length path)) path))
            as [wpath|] eqn:Econv;
          [ destruct (ListDictionary_New P) eqn:Edict; cbn [negb];
            [ destruct (MessageQueue_New P) eqn:Equeue; cbn [negb];
              [ destruct (RegisterDevice P (announce_name name) =? 0) eqn:Ereg;
                cbn [negb async];
                [ destruct (SynchronousStaticChannels P) eqn:Esync;
                  cbn [negb];
                  [ | destruct (CreateThread P) eqn:Ethread; cbn [negb] ]
                | ]
              | ]
            | ]
          | ]
        | ]
      | ]
    | ]
  | ].

(** X20. What registration leaves behind.  When a device is left alive
    the return code is CHANNEL_RC_OK, nothing was logged and nothing was
    freed; the device was registered once, under the filtered name, before
    its mode was set; its path is the conversion of the root path, its
    mode is the negation of the SynchronousStaticChannels setting, and the
    worker thread was created and resumed exactly in asynchronous mode.
    When no device is left alive, either nothing was allocated (an empty
    name or path, or calloc failed) or the last thing done was
    drive_free_int, once. *)
Theorem register_outcome
    (P : Platform) (name path_ : list byte) (automount_ : bool) :
  let '(rc, events, device) :=
    drive_register_drive_path P name path_ automount_ in
  match device with
  | Some drive =>
      rc = CHANNEL_RC_OK /\
      RegisterDevice P (announce_name name) = 0 /\
      ConvertUtf8NToWCharAlloc P
        (take (Z.to_nat (root_path_length path_)) path_) = Some (path drive) /\
      automount drive = automount_ /\
      async drive = negb (SynchronousStaticChannels P) /\
      events =
        call_RegisterDevice (announce_name name)
          {| path := path drive; automount := automount_;
             async := false; rdpcontext := rdpcontext drive |}
        :: (if async drive then [call_CreateThread; call_ResumeThread]
            else [])
  | None =>
      (events = [] /\ rc = CHANNEL_RC_OK /\
       nonempty name && nonempty path_ = false) \/
      (events = [logged calloc_failed] /\ rc = CHANNEL_RC_NO_MEMORY) \/
      (exists before,
         events = before ++ [call_drive_free_int] /\
         ~ In call_drive_free_int before /\
         ~ In call_ResumeThread before /\
         (rc = CHANNEL_RC_NO_MEMORY \/ rc = ERROR_INTERNAL_ERROR \/
          rc = RegisterDevice P (announce_name name)))
  end.
Proof.
  register_cases P name path_;
    try match goal with
        | E : (_ =? _) = true |- _ => apply Z.eqb_eq in E
        end;
    cbn [path automount async rdpcontext negb];
    try (repeat split; auto; fail);
    try (left; repeat split; auto; fail);
    try (right; left; repeat split; auto; fail);
    right; right;
    match goal with
    | |- exists before, ?l = _ /\ _ =>
        exists (removelast l); cbn [removelast];
        split; [reflexivity|];
        split; [cbn [In]; intuition discriminate|];
        split; [cbn [In]; intuition discriminate|]; auto
    end.
Qed.

(** X21. A return of 0 without a device.  With CHANNEL_RC_OK being 0 and
    the two error codes not, registration returns 0 and leaves no device
    alive in two cases only: the name or the path is empty and nothing was
    done; or every allocation and RegisterDevice succeeded, the mode is
    asynchronous and CreateThread failed, so that the device was
    registered and then freed and the 0 returned is the result of
    RegisterDevice. *)
Theorem register_zero_without_device
    (P : Platform) (name path_ : list byte) (automount_ : bool) :
  CHANNEL_RC_OK = 0 -> CHANNEL_RC_NO_MEMORY <> 0 -> ERROR_INTERNAL_ERROR <> 0 ->
  let '(rc, events, device) :=
    drive_register_drive_path P name path_ automount_ in
  (rc = 0 /\ device = None) <->
  (events = [] /\ nonempty name && nonempty path_ = false) \/
  (exists drive0,
     events = [call_RegisterDevice (announce_name name) drive0;
               call_CreateThread; logged CreateThread_failed;
               call_drive_free_int] /\
     async drive0 = false /\
     rc = RegisterDevice P (announce_name name) /\
     SynchronousStaticChannels P = false /\ CreateThread P = false).
Proof.
  intros Hok Hmem Hint.
  register_cases P name path_;
    try match goal with
        | E : (_ =? _) = true |- _ => apply Z.eqb_eq in E
        | E : (_ =? _) = false |- _ => apply Z.eqb_neq in E
        end;
    (split;
     [ intros [Hrc Hdev]; try discriminate Hdev; try congruence;
       first [ left; split; reflexivity
             | right; eexists; repeat split; auto; fail ]
     | intros [[Hev Hn] | (d & Hev & Hd & Hrc & Hs & Ht)];
       try discriminate Hev; try discriminate Hs; try discriminate Ht;
       try congruence; split; congruence ]).
Qed.

(** X22. Opening and closing is a round trip on the table of open files.
    When a Create IRP is followed by a Close IRP that names a file that is
    open after the Create and was not open before it, the table after the
    Close is the table before the Create: the Close has removed exactly
    the file the Create had added. *)
Theorem create_then_close_restores_table
    (drive : DRIVE_DEVICE) (irp1 irp2 : IRP) (w : World) :
  IRP_MJ_CREATE <> IRP_MJ_CLOSE ->
  MajorFunction irp1 = IRP_MJ_CREATE ->
  MajorFunction irp2 = IRP_MJ_CLOSE ->
  let w1 := snd (drive_process_irp drive irp1 w) in
  let w2 := snd (drive_process_irp drive irp2 w1) in
  files w !! FileId irp2 = None ->
  files w1 !! FileId irp2 <> None ->
  files w2 = files w.
Proof.
  intros Hcc Hm1 Hm2 w1 w2 Hbefore Hafter.
  destruct (table_step drive irp1 w Hcc) as (_ & _ & _ & Hcreate).
  destruct (table_step drive irp2 w1 Hcc) as (_ & _ & Hclose & _).
  fold w1 in Hcreate. fold w2 in Hclose.
  rewrite (Hclose Hm2).
  destruct (Hcreate Hm1) as [[Hsame | (f & Hfresh & Hins)] _].
  - rewrite Hsame in Hafter. contradiction.
  - rewrite Hins in Hafter |- *.
    destruct (decide (file_id f = FileId irp2)) as [E|E].
    + rewrite <- E. now apply delete_insert_id.
    + rewrite lookup_insert_ne in Hafter by exact E. contradiction.
Qed.

End Properties.

(** The table on the Windows values: ERROR_SHARING_VIOLATION (32) maps to
    STATUS_ACCESS_DENIED. *)
Lemma drive_map_windows_err_table_witness :
  distinct (@host_error_labels winpr_headers) = true /\
  fst (@drive_map_windows_err winpr_headers sim_host 32 (sim_world sim_good ∅))
    = 0xC0000022.
Proof.
  split; [reflexivity|].
  apply (@drive_map_windows_err_table winpr_headers sim_host 32
           (sim_world sim_good ∅) eq_refl).
  right; reflexivity.
Defined.

Lemma create_open_failure_witness :
  exists irp' w',
    @drive_process_irp winpr_headers sim_host sim_drive
      (sim_irp 0 0 0 (create_request 0 0 0 0 1 0 [x5c; x00]))
      (sim_world sim_open_fails ∅)
      = (fst (@irp_Complete sim_host irp' sim_open_fails), w') /\
    calls w' = [Complete irp'] /\
    buffer (output irp') = [x00; x00; x00; x00; x00] /\
    IoStatus irp' = 0xC000000F.
Proof.
  destruct (@create_open_failure winpr_headers sim_host sim_drive
              (sim_irp 0 0 0 (create_request 0 0 0 0 1 0 [x5c; x00]))
              (sim_world sim_open_fails ∅) 0 0 0 0 1 0 [x5c; x00] sim_open_fails)
    as (irp' & w' & Hrun & Hcalls & Hbuf & Hst & _);
    try reflexivity; try (unfold uint32, uint64; cbn; lia).
  exists irp', w'. repeat split; [exact Hrun | exact Hcalls | exact Hbuf |].
  rewrite (Hst (sim_world sim_open_fails ∅)). reflexivity.
Defined.


(** Close of FileId 9999 on an empty table. *)
Lemma close_response_witness :
  exists irp' rc w',
    @drive_process_irp winpr_headers sim_host sim_drive
      (sim_irp 2 0 9999 []) (sim_world sim_good ∅) = (rc, w') /\
    calls w' = [Complete irp'] /\
    buffer (output irp') = [x00; x00; x00; x00; x00] /\
    IoStatus irp' = 0xC0000001.
Proof.
  destruct (@close_response winpr_headers sim_host sim_drive
              (sim_irp 2 0 9999 []) (sim_world sim_good ∅) eq_refl eq_refl)
    as (irp' & rc & w' & Hrun & Hcalls & Hbuf & Hst).
  exists irp', rc, w'. repeat split; [exact Hrun | exact Hcalls | exact Hbuf |].
  apply Hst. reflexivity.
Defined.

(** Close of the open FileId 7, then a Read of 16 bytes from it. *)
Lemma read_after_close_witness :
  exists rc1 w1 rc2 w2 irp',
    @drive_process_irp winpr_headers sim_host sim_drive
      (sim_irp 2 0 7 []) (sim_world sim_good {[ 7 := 7 ]}) = (rc1, w1) /\
    @drive_process_irp winpr_headers sim_host sim_drive
      (sim_irp 3 0 7 (read_request 16 0 [])) w1 = (rc2, w2) /\
    calls w2 = calls w1 ++ [Complete irp'] /\
    IoStatus irp' = 0xC0000001 /\
    buffer (output irp') = [x00; x00; x00; x00].
Proof.
  destruct (@read_after_close winpr_headers sim_host sim_drive
              (sim_irp 2 0 7 []) (sim_irp 3 0 7 (read_request 16 0 []))
              (sim_world sim_good {[ 7 := 7 ]}) 16 0 [])
    as (rc1 & w1 & rc2 & w2 & irp' & H1 & _ & H2 & H3 & H4 & H5);
    try reflexivity; try (unfold uint32, uint64; lia).
  exists rc1, w1, rc2, w2, irp'. auto 10.
Defined.

(** A Read of no bytes from the open FileId 7 on a host whose seek fails
    with ERROR_INVALID_HANDLE: the IRP is completed with
    STATUS_INVALID_HANDLE, not STATUS_SUCCESS. *)
Lemma read_zero_length_counterexample :
  exists irp' w',
    files (sim_world sim_seek_fails {[ 7 := 7 ]}) !! 7 = Some 7 /\
    input (sim_irp 3 0 7 (read_request 0 0 [])) = read_request 0 0 [] /\
    @drive_process_irp winpr_headers sim_host sim_drive
      (sim_irp 3 0 7 (read_request 0 0 []))
      (sim_world sim_seek_fails {[ 7 := 7 ]}) = (0, w') /\
    calls w' = [Complete irp'] /\
    IoStatus irp' = 0xC0000008 /\
    IoStatus irp' <> @STATUS_SUCCESS winpr_headers.
Proof.
  eexists _, _. split; [reflexivity|]. split; [reflexivity|].
  split; [vm_compute; reflexivity|].
  split; [reflexivity|]. split; [reflexivity|]. discriminate.
Defined.

(** A Read of no bytes from the open FileId 7 on a host whose seek
    succeeds. *)
Lemma read_zero_length_and_error_bodies_witness :
  exists irp' rc w',
    @drive_process_irp winpr_headers sim_host sim_drive
      (sim_irp 3 0 7 (read_request 0 0 []))
      (sim_world sim_good {[ 7 := 7 ]}) = (rc, w') /\
    calls w' = [Complete irp'] /\
    buffer (output irp') = [x00; x00; x00; x00] /\
    IoStatus irp' = 0 /\
    hostcalls w' = [call_drive_file_seek].
Proof.
  destruct (@read_zero_length_and_error_bodies winpr_headers sim_host sim_drive
              (sim_irp 3 0 7 (read_request 0 0 []))
              (sim_world sim_good {[ 7 := 7 ]}) 0 0 [])
    as (rc & w' & Hrun & Hzero & _);
    try reflexivity; try (unfold uint32, uint64; lia).
  destruct (Hzero 7 sim_good eq_refl eq_refl eq_refl)
    as (irp' & Hcalls & Hbuf & Hst & Hhc).
  exists irp', rc, w'. auto 10.
Defined.

(** QueryVolumeInformation with FsInformationClass 0xDEAD. *)
Lemma query_volume_unknown_class_witness :
  exists irp' rc w',
    @drive_process_irp winpr_headers sim_host sim_drive
      (sim_irp 0xA 0 0 (query_volume_request 0xDEAD []))
      (sim_world sim_good ∅) = (rc, w') /\
    calls w' = [Complete irp'] /\
    buffer (output irp') = [x00; x00; x00; x00] /\
    IoStatus irp' = 0xC0000001.
Proof.
  apply (@query_volume_unknown_class winpr_headers sim_host sim_drive
           (sim_irp 0xA 0 0 (query_volume_request 0xDEAD []))
           (sim_world sim_good ∅) 0xDEAD []);
    try reflexivity; [unfold uint32; lia | cbn; lia].
Defined.

(** An IRP_MJ_LOCK_CONTROL IRP with a four-byte body is completed with a
    response body of four bytes, not an empty one. *)
Lemma lock_control_counterexample :
  exists irp' w',
    @drive_process_irp winpr_headers sim_host sim_drive
      (sim_irp 0x11 0 0 [x00; x00; x00; x00])
      (sim_world sim_good ∅) = (0, w') /\
    calls w' = [Complete irp'] /\
    buffer (output irp') = [x00; x00; x00; x00] /\
    buffer (output irp') <> buffer (output (sim_irp 0x11 0 0 [x00; x00; x00; x00])).
Proof.
  eexists _, _. split; [vm_compute; reflexivity|].
  split; [reflexivity|]. split; [reflexivity|]. discriminate.
Defined.

(** The same IRP, and an IRP with the unrouted major function 0x10. *)
Lemma lock_control_and_unrouted_witness :
  (exists irp' rc w',
     @drive_process_irp winpr_headers sim_host sim_drive
       (sim_irp 0x11 0 0 [x00; x00; x00; x00])
       (sim_world sim_good ∅) = (rc, w') /\
     calls w' = [Complete irp'] /\
     IoStatus irp' = 0 /\
     buffer (output irp') = [x00; x00; x00; x00]) /\
  (exists irp' rc w',
     @drive_process_irp winpr_headers sim_host sim_drive
       (sim_irp 0x10 0 0 []) (sim_world sim_good ∅) = (rc, w') /\
     calls w' = [Complete irp'] /\
     IoStatus irp' = 0xC00000BB /\
     buffer (output irp') = []).
Proof.
  split.
  - apply (@lock_control_and_unrouted winpr_headers sim_host sim_drive
             (sim_irp 0x11 0 0 [x00; x00; x00; x00])
             (sim_world sim_good ∅) eq_refl); [reflexivity | cbn; lia].
  - apply (@lock_control_and_unrouted winpr_headers sim_host sim_drive
             (sim_irp 0x10 0 0 []) (sim_world sim_good ∅) eq_refl).
    cbn; lia.
Defined.


(** A queue holding a Read IRP with an empty body and then a Close IRP.
    The Read fails with ERROR_INVALID_DATA, which is no failure of the
    queue; the worker logs it and exits with code 0 and the Close is never
    dispatched, although on its own it is completed. *)
Lemma drive_thread_func_counterexample :
  exists w' w'' irp',
    @drive_process_irp winpr_headers sim_host sim_drive
      (sim_irp 3 0 7 []) (sim_world sim_good ∅) = (13, sim_world sim_good ∅) /\
    @drive_thread_func winpr_headers sim_host sim_drive
      [Message 0 (Some (sim_irp 3 0 7 [])); Message 0 (Some (sim_irp 2 0 9999 []))]
      (sim_world sim_good ∅) = (Some 0, w') /\
    log w' = [drive_process_irp_failed 13] /\
    calls w' = [] /\
    @drive_thread_func winpr_headers sim_host sim_drive
      [Message 0 (Some (sim_irp 2 0 9999 []))]
      (sim_world sim_good ∅) = (None, w'') /\
    calls w'' = [Complete irp'].
Proof.
  eexists _, _, _. split; [vm_compute; reflexivity|].
  split; [vm_compute; reflexivity|]. split; [reflexivity|].
  split; [reflexivity|]. split; [vm_compute; reflexivity|]. reflexivity.
Defined.

(** The same queue, by the theorem. *)
Lemma drive_thread_func_turn_witness :
  exists w',
    @drive_thread_func winpr_headers sim_host sim_drive
      [Message 0 (Some (sim_irp 3 0 7 [])); Message 0 (Some (sim_irp 2 0 9999 []))]
      (sim_world sim_good ∅) = (Some 0, w') /\
    log w' = [drive_process_irp_failed 13] /\
    calls w' = [].
Proof.
  destruct (@drive_thread_func_turn winpr_headers sim_host sim_drive
              [Message 0 (Some (sim_irp 2 0 9999 []))]
              (sim_world sim_good ∅) eq_refl) as (Hfail & _).
  destruct (Hfail 0 (sim_irp 3 0 7 []) 13 (sim_world sim_good ∅))
    as (w' & Hrun & Hlog & Hcalls & _);
    [discriminate | vm_compute; reflexivity | discriminate |].
  exists w'. auto.
Defined.

(** ** The boundary scenarios of the specification, run on the simulated host *)

(** Create of [\\h] with FILE_OPEN, Read of 16 bytes at offset 0, Close:
    FileId 1 with Information FILE_SUPERSEDED, then the two bytes "hi",
    then five zero bytes, all with STATUS_SUCCESS; the table is empty
    again. *)
Example scenario_create_read_close :
  let w :=
    snd (@drive_process_irps winpr_headers sim_host sim_drive
           [ sim_irp 0 0 0 (create_request 0 0 0 0 1 0 [x5c; x00; x68; x00]);
             sim_irp 3 0 1 (read_request 16 0 []);
             sim_irp 2 0 1 [] ]
           (sim_world sim_good ∅)) in
  responses w =
    [ Some (0, [x01; x00; x00; x00; x00]);
      Some (0, [x02; x00; x00; x00; x68; x69]);
      Some (0, [x00; x00; x00; x00; x00]) ] /\
  hostcalls w =
    [ call_drive_file_new; call_drive_file_seek; call_drive_file_read;
      call_drive_file_free ] /\
  files w = ∅.
Proof. vm_compute. repeat split. Qed.

(** Create with FILE_OVERWRITE_IF answers FILE_OVERWRITTEN. *)
Example scenario_overwrite_if :
  responses
    (snd (@drive_process_irp winpr_headers sim_host sim_drive
            (sim_irp 0 0 0 (create_request 0 0 0 0 5 0 [x5c; x00; x68; x00]))
            (sim_world sim_good ∅)))
  = [ Some (0, [x01; x00; x00; x00; x03]) ].
Proof. reflexivity. Qed.

(** QueryVolumeInformation of FileFsDeviceInformation, then a
    NOTIFY_CHANGE_DIRECTORY, which is discarded. *)
Example scenario_device_information_and_notify :
  responses
    (snd (@drive_process_irps winpr_headers sim_host sim_drive
            [ sim_irp 0xA 0 0 (query_volume_request 4 []);
              sim_irp 0xC 2 0 [] ]
            (sim_world sim_good ∅)))
  = [ Some (0, [x08; x00; x00; x00; x07; x00; x00; x00; x00; x00; x00; x00]);
      None ].
Proof. reflexivity. Qed.

(** ** The further properties on the Windows values and the simulated host *)

(** ERROR_ACCESS_DENIED (5) is not mapped to STATUS_SUCCESS. *)
Lemma drive_map_windows_err_success_witness :
  fst (@drive_map_windows_err winpr_headers sim_host 5 (sim_world sim_good ∅)) = 0
  <-> 5 = 0.
Proof.
  destruct (@drive_map_windows_err_success winpr_headers sim_host 5
              (sim_world sim_good ∅) eq_refl) as [_ Hiff].
  exact Hiff.
Defined.

(** A Read of 16 bytes from the open FileId 7. *)
Lemma read_body_length_prefixed_witness :
  exists rc w' trace,
    @drive_process_irp winpr_headers sim_host sim_drive
      (sim_irp 3 0 7 (read_request 16 0 []))
      (sim_world sim_good {[ 7 := 7 ]}) = (rc, w') /\
    hostcalls w' = trace /\
    ((calls w' = [] /\ (rc = 13 \/ rc = 1359) /\
      ~ In write_past_buffer trace) \/
     (exists irp' data,
        calls w' = [Complete irp'] /\
        buffer (output irp') = le_bytes 4 (Z.of_nat (length data)) ++ data /\
        (data <> [] -> IoStatus irp' = 0) /\
        ((~ In write_past_buffer trace /\
          Stream_GetPosition (output irp') <= capacity (output irp')) \/
         (exists before,
            trace = before ++ [call_drive_file_read; write_past_buffer] /\
            ~ In write_past_buffer before /\
            (2 ^ 32 - 4 <= 16 \/ 16 < Z.of_nat (length data)))))).
Proof.
  assert (Hroom : Stream_GetPosition
                    (output (sim_irp 3 0 7 (read_request 16 0 []))) + 4
                  <= capacity (output (sim_irp 3 0 7 (read_request 16 0 []))))
    by (unfold Stream_GetPosition; simpl; lia).
  exact (@read_body_length_prefixed winpr_headers sim_host sim_drive
           (sim_irp 3 0 7 (read_request 16 0 []))
           (sim_world sim_good {[ 7 := 7 ]}) eq_refl eq_refl Hroom).
Defined.

(** A Write that announces five bytes and carries one. *)
Lemma write_payload_bound_witness :
  @drive_process_irp winpr_headers sim_host sim_drive
    (sim_irp 4 0 7 (write_request 5 0 (repeat x00 20) [x61]))
    (sim_world sim_good {[ 7 := 7 ]})
  = (13, sim_world sim_good {[ 7 := 7 ]}).
Proof.
  apply (@write_payload_bound winpr_headers sim_host sim_drive
           (sim_irp 4 0 7 (write_request 5 0 (repeat x00 20) [x61]))
           (sim_world sim_good {[ 7 := 7 ]}) 5 0 (repeat x00 20) [x61]);
    try reflexivity; try (unfold uint32, uint64; lia); cbn; lia.
Defined.

(** A Write of one byte to the open FileId 7. *)
Lemma write_response_witness :
  exists rc w' irp',
    @drive_process_irp winpr_headers sim_host sim_drive
      (sim_irp 4 0 7 (write_request 1 0 (repeat x00 20) [x61]))
      (sim_world sim_good {[ 7 := 7 ]}) = (rc, w') /\
    calls w' = [Complete irp'] /\
    buffer (output irp') = [x01; x00; x00; x00; x00] /\
    IoStatus irp' = 0 /\
    hostcalls w' = [call_drive_file_seek; call_drive_file_write].
Proof.
  destruct (@write_response winpr_headers sim_host sim_drive
              (sim_irp 4 0 7 (write_request 1 0 (repeat x00 20) [x61]))
              (sim_world sim_good {[ 7 := 7 ]}) 1 0 (repeat x00 20) [x61])
    as (rc & w' & Hrun & irp' & n & Hc & Hb & _ & _ & Hok & _);
    try reflexivity; try (unfold uint32, uint64; cbn; lia).
  destruct (Hok 7 sim_good sim_good eq_refl eq_refl eq_refl)
    as (Hn & Hs & Hh).
  exists rc, w', irp'. rewrite Hb, Hn. auto 10.
Defined.

(** QueryVolumeInformation of FileFsVolumeInformation. *)
Lemma query_volume_body_length_prefixed_witness :
  exists rc w',
    @drive_process_irp winpr_headers sim_host sim_drive
      (sim_irp 0xA 0 0 (query_volume_request 1 []))
      (sim_world sim_good ∅) = (rc, w') /\
    ((calls w' = [] /\ (rc = 13 \/ rc = 12)) \/
     (exists irp' payload,
        calls w' = [Complete irp'] /\
        buffer (output irp') =
          le_bytes 4 (Z.of_nat (length payload)) ++ payload)).
Proof.
  exact (@query_volume_body_length_prefixed winpr_headers sim_host sim_drive
           (sim_irp 0xA 0 0 (query_volume_request 1 []))
           (sim_world sim_good ∅) eq_refl eq_refl).
Defined.

(** A Read IRP without a body. *)
Lemma truncated_request_has_no_effect_witness :
  @drive_process_irp winpr_headers sim_host sim_drive
    (sim_irp 3 0 7 []) (sim_world sim_good {[ 7 := 7 ]})
  = (13, sim_world sim_good {[ 7 := 7 ]}).
Proof.
  apply (@truncated_request_has_no_effect winpr_headers sim_host sim_drive
           (sim_irp 3 0 7 []) (sim_world sim_good {[ 7 := 7 ]})).
  reflexivity.
Defined.

(** A Create that announces a path of ten bytes and carries two. *)
Lemma create_path_bound_witness :
  @drive_process_irp winpr_headers sim_host sim_drive
    (sim_irp 0 0 0 (create_request_declaring 0 0 0 0 1 0 10 [x5c; x00]))
    (sim_world sim_good ∅)
  = (13, sim_world sim_good ∅).
Proof.
  apply (@create_path_bound winpr_headers sim_host sim_drive
           (sim_irp 0 0 0 (create_request_declaring 0 0 0 0 1 0 10 [x5c; x00]))
           (sim_world sim_good ∅) 0 0 0 0 1 0 10 [x5c; x00]);
    try reflexivity; try (unfold uint32, uint64; lia).
Defined.

(** A Close of FileId 9999 on an empty table. *)
Lemma unknown_file_never_reaches_host_witness :
  exists rc w',
    @drive_process_irp winpr_headers sim_host sim_drive
      (sim_irp 2 0 9999 []) (sim_world sim_good ∅) = (rc, w') /\
    files w' = ∅ /\
    id_sequence w' = 1 /\
    (hostcalls w' = [] \/ hostcalls w' = [call_heap_grow]) /\
    (calls w' = [] \/
     exists irp', calls w' = [Complete irp'] /\ IoStatus irp' = 0xC0000001).
Proof.
  apply (@unknown_file_never_reaches_host winpr_headers sim_host sim_drive
           (sim_irp 2 0 9999 []) (sim_world sim_good ∅) eq_refl);
    [right; right; right; right; left; reflexivity | reflexivity].
Defined.

(** A Read leaves the table and the id sequence alone. *)
Lemma table_changes_only_by_create_and_close_witness :
  exists rc w',
    @drive_process_irp winpr_headers sim_host sim_drive
      (sim_irp 3 0 7 (read_request 16 0 []))
      (sim_world sim_good {[ 7 := 7 ]}) = (rc, w') /\
    id_sequence w' = 1 /\ files w' = {[ 7 := 7 ]}.
Proof.
  destruct (@table_changes_only_by_create_and_close winpr_headers sim_host
              sim_drive (sim_irp 3 0 7 (read_request 16 0 []))
              (sim_world sim_good {[ 7 := 7 ]}))
    as (rc & w' & Hrun & Hid & Hfiles & _); [discriminate|].
  exists rc, w'. split; [exact Hrun|]. split.
  - apply Hid. discriminate.
  - apply Hfiles; discriminate.
Defined.

(** A Create, a Read and a Close on a table that holds FileId 7. *)
Lemma table_keys_are_file_ids_witness :
  @table_keyed sim_host
    (files
       (snd (@drive_process_irps winpr_headers sim_host sim_drive
               [ sim_irp 0 0 0 (create_request 0 0 0 0 1 0 [x5c; x00]);
                 sim_irp 3 0 1 (read_request 16 0 []);
                 sim_irp 2 0 7 [] ]
               (sim_world sim_good {[ 7 := 7 ]})))).
Proof.
  apply (@table_keys_are_file_ids winpr_headers sim_host sim_drive).
  - discriminate.
  - intros k f Hk. cbn [files sim_world] in Hk.
    apply lookup_singleton_Some in Hk as [<- <-]. reflexivity.
Defined.

(** A NOTIFY_CHANGE_DIRECTORY request is discarded. *)
Lemma discard_only_for_notify_change_witness :
  exists rc w',
    @drive_process_irp winpr_headers sim_host sim_drive
      (sim_irp 0xC 2 0 []) (sim_world sim_good ∅) = (rc, w') /\
    calls w' = [Discard (set_IoStatus 0 (sim_irp 0xC 2 0 []))] /\
    hostcalls w' = [].
Proof.
  destruct (@discard_only_for_notify_change winpr_headers sim_host sim_drive
              (sim_irp 0xC 2 0 []) (sim_world sim_good ∅) eq_refl)
    as (rc & w' & Hrun & _ & Hnotify); [discriminate|].
  destruct (Hnotify eq_refl eq_refl) as (Hc & Hh & _).
  exists rc, w'. auto.
Defined.

(** A SetInformation for FileId 7 on an empty table. *)
Lemma set_information_echoes_length_witness :
  exists rc w' irp',
    @drive_process_irp winpr_headers sim_host sim_drive
      (sim_irp 6 0 7 (set_information_request 4 40 (repeat x00 24) []))
      (sim_world sim_good ∅) = (rc, w') /\
    calls w' = [Complete irp'] /\
    buffer (output irp') = [x28; x00; x00; x00] /\
    IoStatus irp' = 0xC0000001.
Proof.
  destruct (@set_information_echoes_length winpr_headers sim_host sim_drive
              (sim_irp 6 0 7 (set_information_request 4 40 (repeat x00 24) []))
              (sim_world sim_good ∅) 4 40 (repeat x00 24) [])
    as (rc & w' & Hrun & irp' & Hc & Hb & Hnone & _);
    try reflexivity; try (unfold uint32; lia).
  destruct Hnone as (Hs & _); [reflexivity|].
  exists rc, w', irp'. auto.
Defined.

(** A Read of 16 bytes from FileId 7 on an empty table. *)
Lemma unknown_file_bodies_witness :
  exists rc w',
    @drive_process_irp winpr_headers sim_host sim_drive
      (sim_irp 3 0 7 (read_request 16 0 [])) (sim_world sim_good ∅)
      = (rc, w') /\
    forall irp',
      calls w' = [Complete irp'] ->
      buffer (output irp') = [x00; x00; x00; x00].
Proof.
  destruct (@unknown_file_bodies winpr_headers sim_host sim_drive
              (sim_irp 3 0 7 (read_request 16 0 [])) (sim_world sim_good ∅)
              eq_refl) as (rc & w' & Hrun & Hbody); [reflexivity|].
  exists rc, w'. split; [exact Hrun|].
  intros irp' Hc. destruct (Hbody irp' Hc) as (Hread & _).
  exact (Hread eq_refl).
Defined.

(** The worker on a queue of two Close requests. *)
Lemma worker_dispatches_in_order_witness :
  @drive_thread_loop winpr_headers sim_host sim_drive
    [ Message 0 (Some (sim_irp 2 0 9999 []));
      Message 0 (Some (sim_irp 2 0 7 [])) ]
    (sim_world sim_good {[ 7 := 7 ]})
  = (None,
     snd (@drive_process_irps winpr_headers sim_host sim_drive
            [ sim_irp 2 0 9999 []; sim_irp 2 0 7 [] ]
            (sim_world sim_good {[ 7 := 7 ]}))).
Proof.
  destruct (@worker_dispatches_in_order winpr_headers sim_host sim_drive
              [ sim_irp 2 0 9999 []; sim_irp 2 0 7 [] ]
              (sim_world sim_good {[ 7 := 7 ]})) as [Hall _];
    [discriminate|].
  apply Hall. vm_compute. repeat constructor.
Defined.

(** A Close handed to the synchronous drive. *)
Lemma synchronous_request_witness :
  exists rc ch',
    @drive_irp_request winpr_headers sim_host sim_sync_drive
      (sim_irp 2 0 9999 []) false (sim_channel sim_good ∅) = (rc, ch') /\
    IrpQueue ch' = [] /\ device_log ch' = [] /\
    (calls (world ch') = [] \/ exists c, calls (world ch') = [c]).
Proof.
  destruct (@synchronous_request winpr_headers sim_host sim_sync_drive
              (sim_irp 2 0 9999 []) false (sim_channel sim_good ∅) eq_refl)
    as (rc & ch' & e & w1 & Hrun & _ & Hq & Hl & _ & _ & _ & Hc);
    [discriminate|].
  exists rc, ch'. auto.
Defined.

(** Two Close requests posted to the asynchronous drive. *)
Lemma asynchronous_requests_then_worker_witness :
  exists ch',
    @drive_irp_requests winpr_headers sim_host sim_drive
      [ sim_irp 2 0 9999 []; sim_irp 2 0 7 [] ]
      (sim_channel sim_good {[ 7 := 7 ]}) = ([0; 0], ch') /\
    world ch' = sim_world sim_good {[ 7 := 7 ]} /\
    IrpQueue ch' = [ (0, Some (sim_irp 2 0 9999 []));
                    (0, Some (sim_irp 2 0 7 [])) ].
Proof.
  destruct (@asynchronous_requests_then_worker winpr_headers sim_host sim_drive
              [ sim_irp 2 0 9999 []; sim_irp 2 0 7 [] ]
              (sim_channel sim_good {[ 7 := 7 ]}) eq_refl)
    as (ch' & Hrun & Hw & _ & Hq & _); [discriminate|].
  exists ch'. auto.
Defined.

(** The same two Close requests in both modes. *)
Lemma modes_agree_witness :
  let (rcs_sync, ch_sync) :=
    @drive_irp_requests winpr_headers sim_host sim_sync_drive
      [ sim_irp 2 0 9999 []; sim_irp 2 0 7 [] ]
      (sim_channel sim_good {[ 7 := 7 ]}) in
  let (rcs_async, ch_async) :=
    @drive_irp_requests winpr_headers sim_host sim_drive
      [ sim_irp 2 0 9999 []; sim_irp 2 0 7 [] ]
      (sim_channel sim_good {[ 7 := 7 ]}) in
  rcs_sync = rcs_async /\
  Forall (fun rc => rc = 0) rcs_sync /\
  @drive_thread_loop winpr_headers sim_host sim_drive
    (queue_steps (IrpQueue ch_async)) (world ch_async)
  = (None, world ch_sync).
Proof.
  apply (@modes_agree winpr_headers sim_host sim_sync_drive sim_drive
           [ sim_irp 2 0 9999 []; sim_irp 2 0 7 [] ]
           (sim_channel sim_good {[ 7 := 7 ]}));
    try reflexivity; [discriminate | vm_compute; repeat constructor].
Defined.

(** The root path [/a/] is converted without its last slash. *)
Lemma root_path_length_bounds_witness :
  1 <= @root_path_length winpr_headers [x2f; x61; x2f] <= 3 /\
  take (Z.to_nat (@root_path_length winpr_headers [x2f; x61; x2f]))
    [x2f; x61; x2f] ++ [x2f] = [x2f; x61; x2f].
Proof.
  destruct (@root_path_length_bounds winpr_headers [x2f; x61; x2f] eq_refl)
    as (Hbounds & _ & _ & Htake); [cbn; lia|].
  split; [exact Hbounds|].
  apply Htake; [cbn; lia | reflexivity | cbn; lia].
Defined.

(** Registration of the drive [a b] at [/a/] when CreateThread fails:
    0 is returned, the device was registered as [a_b] and freed. *)
Lemma register_zero_without_device_witness :
  exists drive0,
    @drive_register_drive_path winpr_headers sim_platform_no_thread
      [x61; x20; x62] [x2f; x61; x2f] false
    = (0,
       [call_RegisterDevice [x61; x5f; x62; x00] drive0;
        call_CreateThread; logged CreateThread_failed; call_drive_free_int],
       None) /\
    async drive0 = false.
Proof.
  assert (Hok : @CHANNEL_RC_OK winpr_headers = 0) by reflexivity.
  assert (Hmem : @CHANNEL_RC_NO_MEMORY winpr_headers <> 0) by discriminate.
  assert (Hint : @ERROR_INTERNAL_ERROR winpr_headers <> 0) by discriminate.
  pose proof (@register_zero_without_device winpr_headers
                sim_platform_no_thread [x61; x20; x62] [x2f; x61; x2f] false
                Hok Hmem Hint) as Hiff.
  vm_compute in Hiff. destruct Hiff as [Hiff _].
  destruct (Hiff (conj eq_refl eq_refl))
    as [[Hev _] | (drive0 & Hev & Hasync & _)]; [discriminate Hev|].
  exists drive0. split; [|exact Hasync].
  rewrite <- Hev. reflexivity.
Defined.

(** A Create that opens FileId 1, then the Close of FileId 1. *)
Lemma create_then_close_restores_table_witness :
  files
    (snd (@drive_process_irp winpr_headers sim_host sim_drive
            (sim_irp 2 0 1 [])
            (snd (@drive_process_irp winpr_headers sim_host sim_drive
                    (sim_irp 0 0 0 (create_request 0 0 0 0 1 0 [x5c; x00]))
                    (sim_world sim_good {[ 7 := 7 ]})))))
  = files (sim_world sim_good {[ 7 := 7 ]}).
Proof.
  apply (@create_then_close_restores_table winpr_headers sim_host sim_drive
           (sim_irp 0 0 0 (create_request 0 0 0 0 1 0 [x5c; x00]))
           (sim_irp 2 0 1 []) (sim_world sim_good {[ 7 := 7 ]}));
    try reflexivity; [discriminate | vm_compute; discriminate].
Defined.

(** A Read with Length 0xFFFFFFFF from a file that holds 300 bytes:
    Length + 4 wraps to 3, which fits the buffer as it is, and
    [drive_file_read] stores 300 bytes behind a buffer of 240. *)
Example scenario_read_past_buffer :
  let w :=
    snd (@drive_process_irp winpr_headers sim_host sim_drive
           (sim_irp 3 0 7 (read_request 0xFFFFFFFF 0 []))
           (sim_world sim_long_read {[ 7 := 7 ]})) in
  hostcalls w =
    [call_drive_file_seek; call_drive_file_read; write_past_buffer] /\
  exists irp',
    calls w = [Complete irp'] /\
    Stream_GetPosition (output irp') = 304 /\
    capacity (output irp') = 240.
Proof.
  cbv zeta. split; [reflexivity|].
  eexists. split; [reflexivity|]. split; reflexivity.
Qed.
